(** * JAMS Python utilities: a shallow embedding and its checked properties

    The first part embeds the repository file by file:
    - [Argsort]  : src/jams/argsort.py  (argmax, argmin, argsort, iargsort,
                   iargmax, iargmin)
    - [Division] : src/jams/division.py (division, div)
    - [PyStr]    : the methods of Python's str that the readers call
    - [Sread]    : src/jams/sread.py    (sread, line2var)
    - [Hdf], [ReadHDF5], [ReadHDF4] : src/readhdf5.py (readhdf5) and
                   src/jams/readhdf4.py (readhdf4, hdf4read)
    - [AlphaKin] : src/ufz/alpha_kin_h2o.py (alpha_kin_h2o)

    The second part states and proves the properties: [ArgsortProps],
    [DivisionProps], [HdfProps], [PyStrProps] and [SreadProps], then
    [ArgsortOrder], [DivisionMasked], [HdfReaders], [SreadPaths],
    [SreadTables] and [AlphaKinProps] on further paths of the same code.

    Python exceptions are values of [exn]; a call either returns, raises or
    loops forever ([outcome]).  numpy, h5py and pyhdf are modelled by what
    their documentation says of the routines called. *)

From Stdlib Require Import Ascii String.
From Stdlib Require Import List Bool Arith ZArith QArith Qabs Lia.
From Stdlib Require Import Permutation Sorted.
From Stdlib Require Reals Lra.
Import ListNotations.
Close Scope Q_scope.
Open Scope string_scope.
Open Scope list_scope.

Set Implicit Arguments.

(** ** Python outcomes shared by all modules *)

Inductive exn : Type :=
| ValueError (msg : string)
| IOError (msg : string)
| TypeError (msg : string)
| KeyError (msg : string)
| IndexError (msg : string)
| NameError (name : string)
| AttributeError (msg : string)
| FloatingPointError (msg : string)
| HDF4Error (msg : string).

Inductive outcome (A : Type) : Type :=
| Return (a : A)
| Raise (e : exn)
| Diverge.

Arguments Return {A} a.
Arguments Raise {A} e.
Arguments Diverge {A}.

Definition bind {A B : Type} (m : outcome A) (k : A -> outcome B) : outcome B :=
  match m with
  | Return a => k a
  | Raise e => Raise e
  | Diverge => Diverge
  end.

Declare Scope py_scope.
Delimit Scope py_scope with py.
Notation "x <- m ;; k" := (bind m (fun x => k))
  (at level 61, m at next level, right associativity) : py_scope.

(** ** src/jams/argsort.py *)

Module Argsort.

(** The three kinds of argument the wrappers dispatch on.  Elements are
    integers (the doctests use int64 arrays and int lists). *)
Inductive pyarg : Type :=
| MaskedArray (data : list Z) (mask : list bool)
| NdArray (data : list Z)
| Iterable (sq : list Z).

(** Keyword arguments that the wrappers forward: [fill_value], [reverse]
    and [key], the keywords of the module's documentation.  [kw_key]
    records that a [key=] keyword is present.  The wrappers forward any
    further keyword and positional argument as well; such calls are not
    described here. *)
Record kwargs : Type := mkKw {
  kw_fill_value : option Z;
  kw_reverse : option bool;
  kw_key : bool
}.

Definition no_kwargs : kwargs := mkKw None None false.
Definition with_fill_value (v : Z) : kwargs := mkKw (Some v) None false.

(** int64 bounds: numpy.ma's default fill values for integer arrays. *)
Definition int64_max : Z := 9223372036854775807.
Definition int64_min : Z := -9223372036854775808.

(** [MaskedArray.filled(v)]: masked entries replaced by [v]; a mask shorter
    than the data masks nothing further (numpy's [nomask]). *)
Fixpoint filled (data : list Z) (mask : list bool) (v : Z) : list Z :=
  match data with
  | [] => []
  | x :: data' =>
      match mask with
      | [] => x :: filled data' [] v
      | b :: mask' => (if b then v else x) :: filled data' mask' v
      end
  end.

(** The fill value numpy.ma works with: the given one, which has to be a
    value of the array's dtype, or else the default. *)
Definition check_fill_value (default : Z) (fill_value : option Z) : outcome Z :=
  match fill_value with
  | None => Return default
  | Some v =>
      if ((int64_min <=? v) && (v <=? int64_max))%Z then Return v
      else Raise (TypeError "Cannot convert fill_value to dtype int64")
  end.

(** [a.filled(fill_value)] as numpy.ma's routines call it, [default] being
    the fill value they use when none is given.  An array without a mask
    is returned as it is; the fill value is not looked at. *)
Definition ma_filled (data : list Z) (mask : list bool) (default : Z)
                     (fill_value : option Z) : outcome (list Z) :=
  match mask with
  | [] => Return data
  | _ :: _ =>
      (fv <- check_fill_value default fill_value ;;
       Return (filled data mask fv))%py
  end.

(** [enumerate(iterable)] *)
Fixpoint enumerate_from (n : nat) (l : list Z) : list (nat * Z) :=
  match l with
  | [] => []
  | x :: l' => (n, x) :: enumerate_from (S n) l'
  end.

Definition enumerate (l : list Z) : list (nat * Z) := enumerate_from 0 l.

(** Python's [max(it, key=...)]: the running best is replaced only by an
    item whose key is strictly greater; [min] dually. *)
Definition py_max {A : Type} (key : A -> Z) (it : list A) : outcome A :=
  match it with
  | [] => Raise (ValueError "max() arg is an empty sequence")
  | x :: r =>
      Return (fold_left
                (fun best item => if (key item >? key best)%Z then item else best)
                r x)
  end.

Definition py_min {A : Type} (key : A -> Z) (it : list A) : outcome A :=
  match it with
  | [] => Raise (ValueError "min() arg is an empty sequence")
  | x :: r =>
      Return (fold_left
                (fun best item => if (key item <? key best)%Z then item else best)
                r x)
  end.

(** [iargmax], [iargmin] (argsort.py 332-336) *)
Definition iargmax (iterable : list Z) : outcome nat :=
  (x <- py_max snd (enumerate iterable) ;; Return (fst x))%py.

Definition iargmin (iterable : list Z) : outcome nat :=
  (x <- py_min snd (enumerate iterable) ;; Return (fst x))%py.

(** [numpy.argmax] / [numpy.argmin] on a 1-d array: index of the first
    occurrence of the extreme value; an empty array raises. *)
Definition np_argmax (data : list Z) : outcome nat :=
  match enumerate data with
  | [] => Raise (ValueError "attempt to get argmax of an empty sequence")
  | x :: r =>
      Return (fst (fold_left
                     (fun best item => if (snd item >? snd best)%Z then item else best)
                     r x))
  end.

Definition np_argmin (data : list Z) : outcome nat :=
  match enumerate data with
  | [] => Raise (ValueError "attempt to get argmin of an empty sequence")
  | x :: r =>
      Return (fst (fold_left
                     (fun best item => if (snd item <? snd best)%Z then item else best)
                     r x))
  end.

(** [numpy.ma.argmax(a, fill_value=None)]: masked entries are filled (by
    default with the smallest value of the dtype) before [argmax]. *)
Definition np_ma_argmax (data : list Z) (mask : list bool) (fill_value : option Z)
  : outcome nat :=
  (d <- ma_filled data mask int64_min fill_value ;; np_argmax d)%py.

Definition np_ma_argmin (data : list Z) (mask : list bool) (fill_value : option Z)
  : outcome nat :=
  (d <- ma_filled data mask int64_max fill_value ;; np_argmin d)%py.

(** Keywords of [sorted] that no numpy routine accepts. *)
Definition sorted_only (kw : kwargs) : bool :=
  kw_key kw || match kw_reverse kw with Some _ => true | None => false end.

Definition has_fill_value (kw : kwargs) : bool :=
  match kw_fill_value kw with Some _ => true | None => false end.

(** [argmax], [argmin] (argsort.py 102-107, 205-210).  The plain numpy
    routines do not accept [fill_value]; for iterables no keyword is
    forwarded. *)
Definition argmax (a : pyarg) (kw : kwargs) : outcome nat :=
  match a with
  | MaskedArray data mask =>
      if sorted_only kw
      then Raise (TypeError "argmax() got an unexpected keyword argument")
      else np_ma_argmax data mask (kw_fill_value kw)
  | NdArray data =>
      if sorted_only kw || has_fill_value kw
      then Raise (TypeError "argmax() got an unexpected keyword argument")
      else np_argmax data
  | Iterable sq => iargmax sq
  end.

Definition argmin (a : pyarg) (kw : kwargs) : outcome nat :=
  match a with
  | MaskedArray data mask =>
      if sorted_only kw
      then Raise (TypeError "argmin() got an unexpected keyword argument")
      else np_ma_argmin data mask (kw_fill_value kw)
  | NdArray data =>
      if sorted_only kw || has_fill_value kw
      then Raise (TypeError "argmin() got an unexpected keyword argument")
      else np_argmin data
  | Iterable sq => iargmin sq
  end.

(** Stable insertion of an index into a list of indices ordered by [key]:
    the model of Python's [sorted] (guaranteed stable). *)
Fixpoint insert_by (key : nat -> Z) (i : nat) (l : list nat) : list nat :=
  match l with
  | [] => [i]
  | j :: l' => if (key i <? key j)%Z then i :: j :: l'
               else j :: insert_by key i l'
  end.

Definition py_sorted (key : nat -> Z) (l : list nat) : list nat :=
  fold_left (fun acc i => insert_by key i acc) l [].

Definition getitem (sq : list Z) (i : nat) : Z := nth i sq 0%Z.

(** [iargsort] (argsort.py 326-329).  [reverse=True] sorts by the opposite
    order and keeps equal elements in their original order. *)
Definition iargsort (sq : list Z) (kw : kwargs) : outcome (list nat) :=
  if kw_key kw then Raise (KeyError "keyword key cannot be given to argsort.")
  else
    match kw_fill_value kw with
    | Some _ => Raise (TypeError "'fill_value' is an invalid keyword argument for sorted()")
    | None =>
        let rng := seq 0 (length sq) in
        match kw_reverse kw with
        | Some true => Return (py_sorted (fun i => (- getitem sq i)%Z) rng)
        | _ => Return (py_sorted (getitem sq) rng)
        end
    end.

Section Dispatch.

(** [numpy.argsort] on a 1-d array for the sort kind in use.  numpy
    documents only that the result sorts the array; ties may come in any
    order for the default kind. *)
Variable np_argsort : list Z -> list nat.

(** [numpy.ma.argsort(a, fill_value=None)]: [a.filled(fill_value).argsort()],
    the default fill placing masked entries last. *)
Definition np_ma_argsort (data : list Z) (mask : list bool) (fill_value : option Z)
  : outcome (list nat) :=
  (d <- ma_filled data mask int64_max fill_value ;; Return (np_argsort d))%py.

(** [argsort] (argsort.py 317-322) *)
Definition argsort (a : pyarg) (kw : kwargs) : outcome (list nat) :=
  match a with
  | MaskedArray data mask =>
      if sorted_only kw
      then Raise (TypeError "argsort() got an unexpected keyword argument")
      else np_ma_argsort data mask (kw_fill_value kw)
  | NdArray data =>
      if sorted_only kw || has_fill_value kw
      then Raise (TypeError "argsort() got an unexpected keyword argument")
      else Return (np_argsort data)
  | Iterable sq => iargsort sq kw
  end.

End Dispatch.

(** A concrete [numpy.argsort]: the stable kind. *)
Definition stable_argsort (data : list Z) : list nat :=
  py_sorted (getitem data) (seq 0 (length data)).

(** The contract of [numpy.argsort]: the result lists every index once and
    reading the array through it gives a non-decreasing sequence. *)
Definition sorts (f : list Z -> list nat) : Prop :=
  forall data,
    Permutation (f data) (seq 0 (length data)) /\
    Sorted Z.le (map (getitem data) (f data)).

(** *** The scans of [max] and [min] over enumerated integers *)

Definition max_step (best item : nat * Z) : nat * Z :=
  if (snd item >? snd best)%Z then item else best.

Definition min_step (best item : nat * Z) : nat * Z :=
  if (snd item <? snd best)%Z then item else best.

(** *** Keywords, lengths and the order of a stable sort *)

(** A call with [reverse=b] as its only keyword. *)
Definition with_reverse (b : bool) : kwargs := mkKw None (Some b) false.

(** [len(a)] *)
Definition arg_length (a : pyarg) : nat :=
  match a with
  | MaskedArray data _ => length data
  | NdArray data => length data
  | Iterable sq => length sq
  end.

(** [mask[k]], nothing being masked beyond the end of the mask. *)
Definition masked_at (mask : list bool) (k : nat) : bool := nth k mask false.

(** The order in which a stable sort by [key] lists two indices: by key,
    and indices with equal keys in their original order. *)
Definition stable_before (key : nat -> Z) (i j : nat) : Prop :=
  (key i < key j)%Z \/ (key i = key j /\ (i < j)%nat).

End Argsort.

(** ** src/jams/division.py *)

Module Division.

(** Array elements: double-precision values without rounding of the
    mantissa, i.e. exact rationals together with the two infinities and
    not-a-number.  The range of a double is kept: a quotient beyond it
    overflows to an infinity, a quotient below the least normal number
    underflows. *)
Inductive fval : Type :=
| Fin (q : Q)
| PInf
| NInf
| NaN.

(** [abs] *)
Definition fabs (x : fval) : fval :=
  match x with
  | Fin q => Fin (Qabs q)
  | PInf | NInf => PInf
  | NaN => NaN
  end.

(** [x > y] and [x <= y]; every comparison with not-a-number is false. *)
Definition fgt (x y : fval) : bool :=
  match x, y with
  | NaN, _ | _, NaN => false
  | Fin a, Fin b => negb (Qle_bool a b)
  | PInf, PInf => false
  | PInf, _ => true
  | NInf, _ => false
  | Fin _, NInf => true
  | Fin _, PInf => false
  end.


(** Floating-point exceptions a division can signal. *)
Inductive fpflag : Type :=
| NoFlag | DivideFlag | OverFlag | UnderFlag | InvalidFlag.

Definition fpflag_eqb (f g : fpflag) : bool :=
  match f, g with
  | NoFlag, NoFlag | DivideFlag, DivideFlag | OverFlag, OverFlag
  | UnderFlag, UnderFlag | InvalidFlag, InvalidFlag => true
  | _, _ => false
  end.

Definition Qis_zero (q : Q) : bool := Qeq_bool q 0.
Definition Qis_neg (q : Q) : bool := negb (Qle_bool 0 q).
Definition Qis_int (q : Q) : bool := (Qnum q mod Zpos (Qden q) =? 0)%Z.

(** The range of a double.  A quotient of absolute value [huge] or more
    rounds to an infinity: [huge] lies half-way between the largest double,
    [2^1024 - 2^971], and [2^1024].  [tiny] is the least positive normal
    double, [np.finfo(float).tiny]; below it the doubles are the multiples
    of [2^-1074]. *)
Definition huge : Q := inject_Z (2 ^ 1024 - 2 ^ 970).
Definition tiny : Q := 1 / (2 ^ 1022).

Definition overflows (q : Q) : bool := Qle_bool huge (Qabs q).

(** Underflow is signalled for a non-zero quotient below [tiny] that is not
    a double itself.  Tininess is detected before rounding; hardware that
    detects it after rounding differs for quotients within [2^-1076] of
    [tiny] only. *)
Definition underflows (q : Q) : bool :=
  negb (Qis_zero q) && negb (Qle_bool tiny (Qabs q)) &&
  negb (Qis_int (q * inject_Z (2 ^ 1074))).

(** [x / y] with the exception it signals: a finite non-zero value over
    zero gives an infinity and signals divide-by-zero; 0/0 and inf/inf give
    not-a-number and signal invalid; a finite quotient out of the range of
    a double signals overflow or underflow. *)
Definition fdiv (x y : fval) : fval * fpflag :=
  match x, y with
  | NaN, _ | _, NaN => (NaN, NoFlag)
  | Fin a, Fin b =>
      if Qis_zero b then
        if Qis_zero a then (NaN, InvalidFlag)
        else ((if Qis_neg a then NInf else PInf), DivideFlag)
      else if overflows (a / b) then
        ((if Qis_neg (a / b) then NInf else PInf), OverFlag)
      else if underflows (a / b) then (Fin (a / b), UnderFlag)
      else (Fin (a / b), NoFlag)
  | Fin _, (PInf | NInf) => (Fin 0, NoFlag)
  | PInf, Fin b => ((if Qis_neg b then NInf else PInf), NoFlag)
  | NInf, Fin b => ((if Qis_neg b then PInf else NInf), NoFlag)
  | (PInf | NInf), (PInf | NInf) => (NaN, InvalidFlag)
  end.


(** numpy's floating-point error handling: the dictionary returned by
    [np.geterr()]. *)
Inductive errmode : Type :=
| Ignore | Warn | RaiseErr | Call | Print | Log.

Record errstate : Type := mkErr {
  divide : errmode;
  over : errmode;
  under : errmode;
  invalid : errmode
}.

(** numpy's settings at import. *)
Definition default_err : errstate := mkErr Warn Warn Ignore Warn.

Definition geterr (st : errstate) : errstate := st.
Definition seterr_divide (m : errmode) (st : errstate) : errstate :=
  mkErr m (over st) (under st) (invalid st).
Definition seterr_all (old : errstate) (st : errstate) : errstate :=
  mkErr (divide old) (over old) (under old) (invalid old).

(** 0-d and 1-d arrays. *)
Inductive nd (A : Type) : Type :=
| Scalar (x : A)
| Vector (xs : list A).

Arguments Scalar {A} x.
Arguments Vector {A} xs.

Definition nd_map {A B : Type} (f : A -> B) (v : nd A) : nd B :=
  match v with
  | Scalar x => Scalar (f x)
  | Vector xs => Vector (map f xs)
  end.

Definition nd_list {A : Type} (v : nd A) : list A :=
  match v with
  | Scalar x => [x]
  | Vector xs => xs
  end.

Fixpoint zip_with {A B C : Type} (f : A -> B -> C) (xs : list A) (ys : list B)
  : list C :=
  match xs, ys with
  | x :: xs', y :: ys' => f x y :: zip_with f xs' ys'
  | _, _ => []
  end.

(** Element-wise binary operation with numpy broadcasting: a scalar or a
    length-1 vector is stretched; other unequal lengths do not broadcast. *)
Definition broadcast2 {A B C : Type} (f : A -> B -> C) (u : nd A) (v : nd B)
  : outcome (nd C) :=
  match u, v with
  | Scalar a, Scalar b => Return (Scalar (f a b))
  | Scalar a, Vector ys => Return (Vector (map (f a) ys))
  | Vector xs, Scalar b => Return (Vector (map (fun x => f x b) xs))
  | Vector xs, Vector ys =>
      if Nat.eqb (length xs) (length ys) then Return (Vector (zip_with f xs ys))
      else
        match xs, ys with
        | [x], _ => Return (Vector (map (f x) ys))
        | _, [y] => Return (Vector (map (fun x => f x y) xs))
        | _, _ => Raise (ValueError "operands could not be broadcast together")
        end
  end.



Definition has_flag {A : Type} (fl : fpflag) (l : list (A * fpflag)) : bool :=
  existsb (fun p => fpflag_eqb (snd p) fl) l.

(** [np.array(a)/np.array(b)] under the settings [st]: a signalled
    exception whose mode is 'raise' raises FloatingPointError.  numpy looks
    at the signalled exceptions in the order divide-by-zero, overflow,
    underflow, invalid. *)
Definition np_divide (st : errstate) (a b : nd fval) : outcome (nd fval) :=
  (r <- broadcast2 fdiv a b ;;
   if has_flag DivideFlag (nd_list r) &&
      match divide st with RaiseErr => true | _ => false end
   then Raise (FloatingPointError "divide by zero encountered in true_divide")
   else if has_flag OverFlag (nd_list r) &&
           match over st with RaiseErr => true | _ => false end
   then Raise (FloatingPointError "overflow encountered in true_divide")
   else if has_flag UnderFlag (nd_list r) &&
           match under st with RaiseErr => true | _ => false end
   then Raise (FloatingPointError "underflow encountered in true_divide")
   else if has_flag InvalidFlag (nd_list r) &&
           match invalid st with RaiseErr => true | _ => false end
   then Raise (FloatingPointError "invalid value encountered in true_divide")
   else Return (nd_map fst r))%py.

(** [np.where(cond, x, y)] *)
Definition np_where {A : Type} (cond : nd bool) (x y : nd A) : outcome (nd A) :=
  (cx <- broadcast2 pair cond x ;;
   broadcast2 (fun (p : bool * A) (e : A) => if fst p then snd p else e) cx y)%py.

(** Masked arrays: [None] is a masked entry. *)
Definition marray : Type := nd (option fval).

Definition ma_array (v : nd fval) : marray := nd_map Some v.

(** numpy.ma masks every entry that is masked in an operand, whose divisor
    is negligible against the dividend ([|a| * tiny >= |b|]) or whose
    quotient is not finite. *)
Definition ma_div_elt (x y : option fval) : option fval :=
  match x, y with
  | Some (Fin a), Some (Fin b) =>
      if Qle_bool (Qabs b) (Qabs a * tiny) then None
      else Some (Fin (a / b))
  | Some (Fin _), Some (PInf | NInf) => Some (Fin 0)
  | _, _ => None
  end.

(** The exception the division of the data signals at an entry.  The data
    under a mask are not kept by [marray]; they are taken to signal
    nothing. *)
Definition ma_flag (x y : option fval) : fpflag :=
  match x, y with
  | Some u, Some v => snd (fdiv u v)
  | _, _ => NoFlag
  end.

(** [np.ma.array(a)/np.ma.array(b)]: numpy.ma divides the data inside
    [np.errstate(divide='ignore', invalid='ignore')], so that of the
    settings [st] 'over' and 'under' still count, and then masks. *)
Definition ma_divide (st : errstate) (a b : marray) : outcome marray :=
  (r <- broadcast2 (fun x y => (ma_div_elt x y, ma_flag x y)) a b ;;
   if has_flag OverFlag (nd_list r) &&
      match over st with RaiseErr => true | _ => false end
   then Raise (FloatingPointError "overflow encountered in true_divide")
   else if has_flag UnderFlag (nd_list r) &&
           match under st with RaiseErr => true | _ => false end
   then Raise (FloatingPointError "underflow encountered in true_divide")
   else Return (nd_map fst r))%py.

(** [np.ma.abs(b) > np.abs(prec)]: masked where [b] is. *)
Definition ma_abs_gt (b : marray) (prec : fval) : nd (option bool) :=
  nd_map (option_map (fun y => fgt (fabs y) (fabs prec))) b.

(** [np.ma.where(cond, x, y)]: masked where the condition is masked,
    otherwise the chosen entry with its mask. *)
Definition ma_where (cond : nd (option bool)) (x y : marray) : outcome marray :=
  (cx <- broadcast2 pair cond x ;;
   broadcast2 (fun (p : option bool * option fval) (e : option fval) =>
                 match fst p with
                 | None => None
                 | Some true => snd p
                 | Some false => e
                 end) cx y)%py.

(** Arguments and results: plain or masked arrays. *)
Inductive array : Type :=
| Plain (v : nd fval)
| Masked (v : marray).

Definition is_masked (a : array) : bool :=
  match a with Masked _ => true | Plain _ => false end.

Definition to_masked (a : array) : marray :=
  match a with Masked v => v | Plain v => ma_array v end.

Definition to_plain (a : array) : nd fval :=
  match a with
  | Plain v => v
  | Masked v => nd_map (fun o => match o with Some x => x | None => NaN end) v
  end.

(** [division] (division.py 94-104).  The global error settings are
    threaded through: saved, 'divide' switched off, the quotient selected,
    and the saved settings put back before returning.  An exception leaves
    the function before the settings are put back. *)
Definition division (st : errstate) (a b : array) (otherwise : nd fval)
                    (prec : fval) : outcome array * errstate :=
  let oldsettings := geterr st in
  let st1 := seterr_divide Ignore st in
  let body : outcome array :=
    if is_masked a || is_masked b then
      (q <- ma_divide st1 (to_masked a) (to_masked b) ;;
       out <- ma_where (ma_abs_gt (to_masked b) prec) q (ma_array otherwise) ;;
       Return (Masked out))%py
    else
      (q <- np_divide st1 (to_plain a) (to_plain b) ;;
       out <- np_where (nd_map (fun y => fgt (fabs y) (fabs prec)) (to_plain b))
                       q otherwise ;;
       Return (Plain out))%py in
  match body with
  | Return out => (Return out, seterr_all oldsettings st1)
  | Raise e => (Raise e, st1)
  | Diverge => (Diverge, st1)
  end.

(** [div] (division.py 132) *)
Definition div := division.

(** *** Shapes *)

(** The length of a vector, [None] for a scalar. *)
Definition size {A : Type} (v : nd A) : option nat :=
  match v with
  | Scalar _ => None
  | Vector xs => Some (length xs)
  end.

(** The size two operands broadcast to, if they do. *)
Definition bsize (s t : option nat) : option (option nat) :=
  match s, t with
  | None, _ => Some t
  | _, None => Some s
  | Some n, Some m =>
      if (n =? m)%nat then Some (Some n)
      else if (n =? 1)%nat then Some (Some m)
      else if (m =? 1)%nat then Some (Some n)
      else None
  end.

(** The shape of an argument, plain or masked. *)
Definition asize (a : array) : option nat :=
  match a with
  | Plain v => size v
  | Masked v => size v
  end.


End Division.

(** ** Python [str] methods used by the readers *)

Module PyStr.

Definition newline : string := String (ascii_of_nat 10) EmptyString.
Definition dquote : string := String (ascii_of_nat 34) EmptyString.
Definition squote : string := "'".

(** [str.isspace] on code points below 256. *)
Definition is_space (c : ascii) : bool :=
  let n := nat_of_ascii c in
  ((9 <=? n) && (n <=? 13) || (28 <=? n) && (n <=? 32)
   || (n =? 133) || (n =? 160))%nat.

Fixpoint mem_char (c : ascii) (chars : string) : bool :=
  match chars with
  | EmptyString => false
  | String d chars' => Ascii.eqb c d || mem_char c chars'
  end.

Fixpoint lstrip_by (p : ascii -> bool) (s : string) : string :=
  match s with
  | EmptyString => EmptyString
  | String c s' => if p c then lstrip_by p s' else s
  end.

Fixpoint rstrip_by (p : ascii -> bool) (s : string) : string :=
  match s with
  | EmptyString => EmptyString
  | String c s' =>
      match rstrip_by p s' with
      | EmptyString => if p c then EmptyString else String c EmptyString
      | r => String c r
      end
  end.

(** [s.rstrip()], [s.strip()], [s.strip(chars)] *)
Definition str_rstrip (s : string) : string := rstrip_by is_space s.
Definition str_strip (s : string) : string := rstrip_by is_space (lstrip_by is_space s).
Definition str_strip_chars (chars : string) (s : string) : string :=
  rstrip_by (fun c => mem_char c chars) (lstrip_by (fun c => mem_char c chars) s).

(** [s.split(sep)] for a non-empty [sep]: [skip] counts the characters of
    a separator occurrence still to be passed over, [cur] is the piece
    being collected. *)
Fixpoint split_sep_aux (sep : string) (skip : nat) (cur : string) (s : string)
  : list string :=
  match s with
  | EmptyString => [cur]
  | String c s' =>
      match skip with
      | S k => split_sep_aux sep k cur s'
      | O =>
          if prefix sep s
          then cur :: split_sep_aux sep (String.length sep - 1) EmptyString s'
          else split_sep_aux sep 0 (cur ++ String c EmptyString)%string s'
      end
  end.

Definition split_sep (sep : string) (s : string) : list string :=
  split_sep_aux sep 0 EmptyString s.

(** [s.split()]: pieces between runs of whitespace, none of them empty. *)
Fixpoint split_ws_aux (cur : string) (s : string) : list string :=
  match s with
  | EmptyString => match cur with EmptyString => [] | _ => [cur] end
  | String c s' =>
      if is_space c
      then match cur with
           | EmptyString => split_ws_aux EmptyString s'
           | _ => cur :: split_ws_aux EmptyString s'
           end
      else split_ws_aux (cur ++ String c EmptyString)%string s'
  end.

Definition split_ws (s : string) : list string := split_ws_aux EmptyString s.

(** [s.split(sep)]: [None] splits on whitespace, the empty separator is
    refused. *)
Definition str_split (sep : option string) (s : string) : outcome (list string) :=
  match sep with
  | None => Return (split_ws s)
  | Some EmptyString => Raise (ValueError "empty separator")
  | Some sp => Return (split_sep sp s)
  end.

(** Characters at which [str.splitlines] ends a line (code points below
    256); a carriage return followed by a line feed ends one line. *)
Definition is_linebreak (ch : ascii) : bool :=
  let n := nat_of_ascii ch in
  ((10 <=? n) && (n <=? 13) || (28 <=? n) && (n <=? 30) || (n =? 133))%nat.

Definition cr : ascii := ascii_of_nat 13.
Definition lf : ascii := ascii_of_nat 10.

(** [s.splitlines(keepends=True)]: [cur] is the line being collected. *)
Fixpoint splitlines_aux (cur : string) (s : string) : list string :=
  match s with
  | EmptyString => match cur with EmptyString => [] | _ => [cur] end
  | String ch s' =>
      if is_linebreak ch then
        if Ascii.eqb ch cr then
          match s' with
          | String ch2 s'' =>
              if Ascii.eqb ch2 lf
              then (cur ++ String ch (String ch2 EmptyString))%string
                     :: splitlines_aux EmptyString s''
              else (cur ++ String ch EmptyString)%string
                     :: splitlines_aux EmptyString s'
          | EmptyString => [(cur ++ String ch EmptyString)%string]
          end
        else (cur ++ String ch EmptyString)%string :: splitlines_aux EmptyString s'
      else splitlines_aux (cur ++ String ch EmptyString)%string s'
  end.

Definition str_splitlines (s : string) : list string :=
  splitlines_aux EmptyString s.

(** [sep.join(cells)] *)
Fixpoint str_join (sep : string) (cells : list string) : string :=
  match cells with
  | [] => EmptyString
  | [c] => c
  | c :: cells' => (c ++ sep ++ str_join sep cells')%string
  end.

(** Strings all of whose characters pass a test; strings free of line
    breaks and strings free of whitespace. *)
Fixpoint str_forallb (p : ascii -> bool) (s : string) : bool :=
  match s with
  | EmptyString => true
  | String ch s' => p ch && str_forallb p s'
  end.

Definition no_linebreak (s : string) : bool :=
  str_forallb (fun ch => negb (is_linebreak ch)) s.

Definition no_space (s : string) : bool :=
  str_forallb (fun ch => negb (is_space ch)) s.

(** [bytes.decode('ascii', errors='ignore')]: every byte that is no ASCII
    character is dropped.  A string stands for the bytes of a file before
    decoding and for text after it. *)
Definition is_ascii (ch : ascii) : bool := (nat_of_ascii ch <? 128)%nat.

Fixpoint decode_ascii (bytes : string) : string :=
  match bytes with
  | EmptyString => EmptyString
  | String ch bytes' =>
      if is_ascii ch then String ch (decode_ascii bytes') else decode_ascii bytes'
  end.

(** Text that the decoding leaves as it is. *)
Definition ascii_only (s : string) : bool := str_forallb is_ascii s.

End PyStr.

(** ** src/jams/sread.py *)

Module Sread.

Import PyStr.

(** *** Arguments *)

(** [nc]: a number of columns or a sequence of column indices. *)
Inductive nc_arg : Type :=
| NcInt (n : Z)
| NcSeq (l : list nat).

(** [cname]: one name or a sequence of names. *)
Inductive cname_arg : Type :=
| CnameStr (s : string)
| CnameSeq (l : list string).

(** [comment]: a string of comment characters or a sequence of strings. *)
Inductive comment_arg : Type :=
| CommentStr (s : string)
| CommentSeq (l : list string).

(** The keyword arguments of [sread].  Line and column counts are natural
    numbers; [strip = Some EmptyString] stands for any false value.
    [encoding] and [errors] are not among them: they are left at their
    defaults, 'ascii' and 'ignore', with which [sread] below decodes the
    file.  A call that sets them otherwise is not described. *)
Record options : Type := mkOptions {
  nc : nc_arg;
  cname : option cname_arg;
  skip : nat;
  cskip : nat;
  hskip : nat;
  hstrip : bool;
  separator : option string;
  squeeze : bool;
  reform : bool;
  skip_blank : bool;
  comment : option comment_arg;
  fill : bool;
  fill_value : string;
  strip : option string;
  header : bool;
  full_header : bool;
  transpose : bool;
  strarr : bool
}.

Definition defaults : options :=
  mkOptions (NcInt 0) None 0 0 0 true None false false false None
            false EmptyString None false false false false.

(** Calls are written as the defaults with some keywords changed. *)
Definition with_nc (v : nc_arg) (o : options) : options :=
  mkOptions v (cname o) (skip o) (cskip o) (hskip o) (hstrip o) (separator o)
            (squeeze o) (reform o) (skip_blank o) (comment o) (fill o)
            (fill_value o) (strip o) (header o) (full_header o) (transpose o)
            (strarr o).

Definition with_cname (v : cname_arg) (o : options) : options :=
  mkOptions (nc o) (Some v) (skip o) (cskip o) (hskip o) (hstrip o) (separator o)
            (squeeze o) (reform o) (skip_blank o) (comment o) (fill o)
            (fill_value o) (strip o) (header o) (full_header o) (transpose o)
            (strarr o).

Definition with_skip (v : nat) (o : options) : options :=
  mkOptions (nc o) (cname o) v (cskip o) (hskip o) (hstrip o) (separator o)
            (squeeze o) (reform o) (skip_blank o) (comment o) (fill o)
            (fill_value o) (strip o) (header o) (full_header o) (transpose o)
            (strarr o).

Definition with_separator (v : option string) (o : options) : options :=
  mkOptions (nc o) (cname o) (skip o) (cskip o) (hskip o) (hstrip o) v
            (squeeze o) (reform o) (skip_blank o) (comment o) (fill o)
            (fill_value o) (strip o) (header o) (full_header o) (transpose o)
            (strarr o).

Definition with_skip_blank (v : bool) (o : options) : options :=
  mkOptions (nc o) (cname o) (skip o) (cskip o) (hskip o) (hstrip o) (separator o)
            (squeeze o) (reform o) v (comment o) (fill o)
            (fill_value o) (strip o) (header o) (full_header o) (transpose o)
            (strarr o).

Definition with_fill (fv : string) (o : options) : options :=
  mkOptions (nc o) (cname o) (skip o) (cskip o) (hskip o) (hstrip o) (separator o)
            (squeeze o) (reform o) (skip_blank o) (comment o) true
            fv (strip o) (header o) (full_header o) (transpose o)
            (strarr o).

Definition with_header (v : bool) (o : options) : options :=
  mkOptions (nc o) (cname o) (skip o) (cskip o) (hskip o) (hstrip o) (separator o)
            (squeeze o) (reform o) (skip_blank o) (comment o) (fill o)
            (fill_value o) (strip o) v (full_header o) (transpose o)
            (strarr o).

(** *** Values *)

(** numpy arrays of strings with zero, one or two dimensions. *)
Inductive strarray : Type :=
| Arr0 (s : string)
| Arr1 (v : list string)
| Arr2 (m : list (list string)).

#[warnings="-register-all"]
Inductive pyval : Type :=
| PNone
| PStr (s : string)
| PList (l : list pyval)
| PArr (a : strarray).

Definition row_val (r : list string) : pyval := PList (map PStr r).
Definition rows_val (rs : list (list string)) : pyval := PList (map row_val rs).

(** *** The open file: a state and exception monad *)

Record file : Type := mkFile {
  pending : list string;   (* lines not yet read, each with its line end *)
  closed : bool
}.

Definition M (A : Type) : Type := file -> outcome A * file.

Definition ret {A : Type} (a : A) : M A := fun f => (Return a, f).
Definition raise {A : Type} (e : exn) : M A := fun f => (Raise e, f).
Definition diverge {A : Type} : M A := fun f => (Diverge, f).
Definition lift {A : Type} (r : outcome A) : M A := fun f => (r, f).

Definition mbind {A B : Type} (m : M A) (k : A -> M B) : M B :=
  fun f =>
    match m f with
    | (Return a, f') => k a f'
    | (Raise e, f') => (Raise e, f')
    | (Diverge, f') => (Diverge, f')
    end.

Declare Scope io_scope.
Delimit Scope io_scope with io.
Notation "x <- m ;; k" := (mbind m (fun x => k))
  (at level 61, m at next level, right associativity) : io_scope.
Notation "m ;; k" := (mbind m (fun _ => k))
  (at level 61, right associativity) : io_scope.

(** [f.readline()]: the next line, the empty string at end of file. *)
Definition readline : M string :=
  fun f =>
    if closed f then (Raise (ValueError "I/O operation on closed file."), f)
    else match pending f with
         | [] => (Return EmptyString, f)
         | l :: r => (Return l, mkFile r (closed f))
         end.

(** [f.close()] *)
Definition close : M unit := fun f => (Return tt, mkFile (pending f) true).

(** The iterator of [f] has handed out everything before [rest]. *)
Definition advance (rest : list string) : M unit :=
  fun f => (Return tt, mkFile rest (closed f)).

(** [n] times [f.readline().rstrip()], collected (sread.py 300-302, 306-308). *)
Fixpoint read_stripped (n : nat) : M (list string) :=
  match n with
  | O => ret []
  | S n' =>
      (l <- readline ;;
       ls <- read_stripped n' ;;
       ret (str_rstrip l :: ls))%io
  end.

Definition in_comment (c : ascii) (cm : comment_arg) : bool :=
  match cm with
  | CommentStr chars => mem_char c chars
  | CommentSeq l => existsb (String.eqb (String c EmptyString)) l
  end.

(** [comment is not None and s[0] in comment], for a non-empty [s]. *)
Definition is_comment (cm : option comment_arg) (s : string) : bool :=
  match cm, s with
  | Some c, String ch _ => in_comment ch c
  | _, _ => false
  end.

(** The first data line (sread.py 312-321), by recursion on the lines
    left.  At end of file [readline] keeps returning the empty string:
    with [skip_blank] the loop never ends. *)
Fixpoint first_line_from (o : options) (lines : list string) : M string :=
  match lines with
  | [] => if skip_blank o then diverge else ret EmptyString
  | line :: rest =>
      (advance rest ;;
       let s := str_rstrip line in
       if (String.length s =? 0)%nat then
         if skip_blank o then first_line_from o rest else ret s
       else if is_comment (comment o) s then first_line_from o rest
       else ret s)%io
  end.

Definition first_line (o : options) : M string :=
  fun f => first_line_from o (pending f) f.

(** Separator and first split (sread.py 322-337): comma, then semi-colon,
    then whitespace unless a separator is given. *)
Definition sniff (sp : option string) (s : string)
  : outcome (option string * list string) :=
  match sp with
  | None =>
      let res := split_sep "," s in
      if (length res =? 1)%nat then
        let res := split_sep ";" s in
        if (length res =? 1)%nat then Return (None, split_ws s)
        else Return (Some ";", res)
      else Return (Some ",", res)
  | Some sep => (res <- str_split (Some sep) s ;; Return (Some sep, res))%py
  end.

Definition nc_nonzero (n : nc_arg) : bool :=
  match n with
  | NcInt z => negb (z =? 0)%Z
  | NcSeq _ => true
  end.

Definition mem_str (s : string) (l : list string) : bool :=
  existsb (String.eqb s) l.

(** The selected column indices (sread.py 340-367). *)
Definition indices (o : options) (head : list string) (sep : option string)
                   (nres : nat) : M (list nat) :=
  if nc_nonzero (nc o) && match cname o with Some _ => true | None => false end
  then (close ;; raise (ValueError "nc and cname are mutually exclusive."))%io
  else
    match cname o with
    | Some cn =>
        if (skip o - hskip o <=? 0)%nat
        then (close ;;
              raise (IOError "No header line left for choosing columns by name."))%io
        else
          let cn := match cn with CnameStr c => [c] | CnameSeq l => l end in
          let cn := if hstrip o then map str_strip cn else cn in
          (hres <- lift (str_split sep (nth 0 head EmptyString)) ;;
           let hres := if hstrip o then map str_strip hres else hres in
           ret (filter (fun k => mem_str (nth k hres EmptyString) cn)
                       (seq 0 (length hres))))%io
    | None =>
        match nc o with
        | NcSeq l => ret l
        | NcInt n =>
            if (n <=? 0)%Z then ret (seq (cskip o) (nres - cskip o))
            else ret (seq (cskip o) (Z.to_nat n))
        end
    end.

(** [max(iinc)] *)
Definition max_index (iinc : list nat) : outcome nat :=
  match iinc with
  | [] => Raise (ValueError "max() arg is an empty sequence")
  | i :: r => Return (fold_left Nat.max r i)
  end.

(** [line2var] (sread.py 447-459): the selected cells of a split line,
    stripped, then one empty string per selected column the line does not
    have; the row is appended to [var]. *)
Definition line2var (res : list string) (var : list (list string))
                    (iinc : list nat) (stp : option string)
  : list (list string) :=
  let nres := length res in
  let present := filter (fun i => i <? nres)%nat iinc in
  let tmp :=
    match stp with
    | None =>
        map (fun i => str_strip_chars squote
                        (str_strip_chars dquote (nth i res EmptyString))) present
    | Some EmptyString => map (fun i => nth i res EmptyString) present
    | Some chars => map (fun i => str_strip_chars chars (nth i res EmptyString)) present
    end in
  let rest := length (filter (fun i => nres <=? i)%nat iinc) in
  let tmp := if (0 <? rest)%nat then tmp ++ repeat EmptyString rest else tmp in
  var ++ [tmp].

Definition not_enough (h : string) : exn :=
  ValueError ("Line has not enough columns to index: " ++ h)%string.

(** The header lines split like the data (sread.py 380-387). *)
Fixpoint header_rows (o : options) (sep : option string) (iinc : list nat)
                     (miinc : nat) (hs : list string) (var : list (list string))
  : M (list (list string)) :=
  match hs with
  | [] => ret var
  | h :: hs' =>
      (hres <- lift (str_split sep h) ;;
       if (length hres <=? miinc)%nat && negb (fill o)
       then (close ;; raise (not_enough h))
       else header_rows o sep iinc miinc hs' (line2var hres var iinc (strip o)))%io
  end.

(** The data lines after the first (sread.py 413-427), by recursion on the
    lines left. *)
Fixpoint values_from (o : options) (sep : option string) (iinc : list nat)
                     (miinc : nat) (lines : list string) (var : list (list string))
  : M (list (list string)) :=
  match lines with
  | [] => (advance [] ;; ret var)%io
  | line :: rest =>
      (advance rest ;;
       let s := str_rstrip line in
       if (String.length s =? 0)%nat then
         if skip_blank o then values_from o sep iinc miinc rest var else ret var
       else if is_comment (comment o) s then values_from o sep iinc miinc rest var
       else
         res <- lift (str_split sep s) ;;
         if (length res <=? miinc)%nat && negb (fill o)
         then (close ;; raise (not_enough s))
         else values_from o sep iinc miinc rest (line2var res var iinc (strip o)))%io
  end.

Definition values_loop (o : options) (sep : option string) (iinc : list nat)
                       (miinc : nat) (var : list (list string))
  : M (list (list string)) :=
  fun f => values_from o sep iinc miinc (pending f) var f.

(** *** Shaping the result (sread.py 390-403, 429-443) *)

Fixpoint mapM {A B : Type} (g : A -> outcome B) (l : list A) : outcome (list B) :=
  match l with
  | [] => Return []
  | x :: l' => (y <- g x ;; ys <- mapM g l' ;; Return (y :: ys))%py
  end.

Definition chars_of (s : string) : list pyval :=
  map (fun c => PStr (String c EmptyString)) (list_ascii_of_string s).

(** Iterating, [len(v)] and [v[0]]. *)
Definition py_iter (v : pyval) : outcome (list pyval) :=
  match v with
  | PList l => Return l
  | PStr s => Return (chars_of s)
  | PNone => Raise (TypeError "'NoneType' object is not iterable")
  | PArr _ => Raise (TypeError "array in list branch")
  end.

Definition py_len (v : pyval) : outcome nat :=
  match v with
  | PList l => Return (length l)
  | PStr s => Return (String.length s)
  | PNone => Raise (TypeError "object of type 'NoneType' has no len()")
  | PArr _ => Raise (TypeError "array in list branch")
  end.

Definition py_first (v : pyval) : outcome pyval :=
  match v with
  | PList (x :: _) => Return x
  | PList [] => Raise (IndexError "list index out of range")
  | PStr (String c _) => Return (PStr (String c EmptyString))
  | PStr EmptyString => Raise (IndexError "string index out of range")
  | PNone => Raise (TypeError "'NoneType' object is not subscriptable")
  | PArr _ => Raise (TypeError "array in list branch")
  end.

Definition is_empty_str (v : pyval) : bool :=
  match v with
  | PStr EmptyString => true
  | _ => false
  end.

(** [[ [fill_value if i=='' else i for i in row] for row in var ]] *)
Definition fill_rows (fv : string) (var : pyval) : outcome pyval :=
  (rows <- py_iter var ;;
   rows' <- mapM (fun row =>
                    cells <- py_iter row ;;
                    Return (PList (map (fun i => if is_empty_str i then PStr fv else i)
                                       cells))) rows ;;
   Return (PList rows'))%py.

(** [maxi = max([len(i) for i in var]); if maxi==1: var = [i[0] for i in var]] *)
Definition squeeze_rows (var : pyval) : outcome pyval :=
  (rows <- py_iter var ;;
   lens <- mapM py_len rows ;;
   maxi <- max_index lens ;;
   if (maxi =? 1)%nat then (firsts <- mapM py_first rows ;; Return (PList firsts))
   else Return var)%py.

Definition heads {A : Type} (rows : list (list A)) : list A :=
  flat_map (fun r => match r with x :: _ => [x] | [] => [] end) rows.

(** Python's zip over the rows, unpacked; [n] is the length of the shortest row. *)
Fixpoint zip_star {A : Type} (n : nat) (rows : list (list A)) : list (list A) :=
  match n with
  | O => []
  | S n' => heads rows :: zip_star n' (map (@tl A) rows)
  end.

Definition min_length {A : Type} (rows : list (list A)) : nat :=
  match rows with
  | [] => 0%nat
  | r :: rs => fold_left Nat.min (map (@length A) rs) (length r)
  end.

(** The transpose step: if [var[0]] is a list, the rows are zipped. *)
Definition transpose_rows (var : pyval) : outcome pyval :=
  (v0 <- py_first var ;;
   match v0 with
   | PList _ =>
       rows <- py_iter var ;;
       its <- mapM py_iter rows ;;
       Return (PList (map PList (zip_star (min_length its) its)))
   | _ => Return var
   end)%py.

Definition as_str (v : pyval) : outcome string :=
  match v with
  | PStr s => Return s
  | _ => Raise (ValueError "setting an array element with a sequence")
  end.

(** [np.str]: numpy dropped this alias of [str] in its release 1.24, and
    no version of numpy is required by the package; reading the attribute
    raises. *)
Definition np_str : outcome unit :=
  Raise (AttributeError "module 'numpy' has no attribute 'str'").

(** [np.array(var, dtype=str)] *)
Definition np_array (var : pyval) : outcome strarray :=
  match var with
  | PNone => Return (Arr0 "None")
  | PStr s => Return (Arr0 s)
  | PArr a => Return a
  | PList [] => Return (Arr1 [])
  | PList ((PList _ :: _) as rows) =>
      (m <- mapM (fun r => cells <- py_iter r ;; mapM as_str cells) rows ;;
       Return (Arr2 m))%py
  | PList cells => (v <- mapM as_str cells ;; Return (Arr1 v))%py
  end.

(** [var.T], [var.squeeze()] and [np.where(var=='', fill_value, var)] *)
Definition arr_T (a : strarray) : strarray :=
  match a with
  | Arr2 m => Arr2 (zip_star (min_length m) m)
  | _ => a
  end.

Definition arr_squeeze (a : strarray) : strarray :=
  match a with
  | Arr0 _ => a
  | Arr1 [x] => Arr0 x
  | Arr1 _ => a
  | Arr2 [[x]] => Arr0 x
  | Arr2 [r] => Arr1 r
  | Arr2 m => if (min_length m =? 1)%nat then Arr1 (heads m) else a
  end.

Definition fill_str (fv : string) (x : string) : string :=
  match x with
  | EmptyString => fv
  | _ => x
  end.

Definition arr_fill (fv : string) (a : strarray) : strarray :=
  match a with
  | Arr0 x => Arr0 (fill_str fv x)
  | Arr1 v => Arr1 (map (fill_str fv) v)
  | Arr2 m => Arr2 (map (map (fill_str fv)) m)
  end.


(** After the file is closed: the array branch evaluates [np.str] first;
    the list branch fills, squeezes and transposes. *)
Definition finish (o : options) (var : pyval) : outcome pyval :=
  if strarr o then
    (_ <- np_str ;;
     a <- np_array var ;;
     let a := if transpose o then arr_T a else a in
     let a := if squeeze o || reform o then arr_squeeze a else a in
     let a := if fill o then arr_fill (fill_value o) a else a in
     Return (PArr a))%py
  else
    (var <- (if fill o then fill_rows (fill_value o) var else Return var) ;;
     var <- (if squeeze o || reform o then squeeze_rows var else Return var) ;;
     if transpose o then transpose_rows var else Return var)%py.

(** *** [sread] (sread.py 292-443) on the opened file *)

(** What the first part of [sread] establishes: the header lines, the
    first data line [s], the separator, the split of [s], the selected
    column indices and the largest of them. *)
Record setup : Type := mkSetup {
  st_head : list string;
  st_s : string;
  st_sep : option string;
  st_res : list string;
  st_iinc : list nat;
  st_miinc : nat
}.

(** Skipping, first line, separator and indices (sread.py 298-368). *)
Definition sread_setup (o : options) : M setup :=
  (_ <- (if (0 <? hskip o)%nat then read_stripped (hskip o) else ret []) ;;
   head <- (if (0 <? skip o)%nat then read_stripped (skip o - hskip o) else ret []) ;;
   s <- first_line o ;;
   sr <- lift (sniff (separator o) s) ;;
   let sep := fst sr in
   let res := snd sr in
   let nres := length res in
   iinc <- indices o head sep nres ;;
   miinc <- lift (max_index iinc) ;;
   ret (mkSetup head s sep res iinc miinc))%io.

(** The header branch (sread.py 371-403). *)
Definition sread_header (o : options) (st : setup) : M pyval :=
  (var <- (if (0 <? skip o - hskip o)%nat then
             if full_header o then ret (PList (map PStr (st_head st)))
             else
               rows <- header_rows o (st_sep st) (st_iinc st) (st_miinc st)
                                   (st_head st) [] ;;
               if (skip o - hskip o =? 1)%nat
               then ret (row_val (nth 0 rows []))
               else ret (rows_val rows)
           else ret PNone) ;;
   close ;;
   lift (finish o var))%io.

(** The data branch (sread.py 406-443). *)
Definition sread_values (o : options) (st : setup) : M pyval :=
  (if (length (st_res st) <=? st_miinc st)%nat && negb (fill o)
   then (close ;; raise (not_enough (st_s st)))
   else
     var <- values_loop o (st_sep st) (st_iinc st) (st_miinc st)
                        (line2var (st_res st) [] (st_iinc st) (strip o)) ;;
     close ;;
     lift (finish o (rows_val var)))%io.

Definition sread_body (o : options) : M pyval :=
  (st <- sread_setup o ;;
   if header o then sread_header o st else sread_values o st)%io.

(** A file system maps a name to the bytes of a readable file. *)
Definition filesystem : Type := string -> option string.

(** The file system holding one file. *)
Definition one_file (name : string) (content : string) : filesystem :=
  fun n => if String.eqb n name then Some content else None.

(** A line as written with its line end, and the text of some lines. *)
Definition line (s : string) : string := (s ++ newline)%string.

Fixpoint text (lines : list string) : string :=
  match lines with
  | [] => EmptyString
  | l :: lines' => (l ++ text lines')%string
  end.

(** [sread(infile, ...)]: the outcome and the file object opened by the
    call, if any, as the call leaves it.  The stream reader of
    [codecs.open(infile, 'r', encoding='ascii', errors='ignore')] decodes
    the bytes and hands the text out line by line, line ends kept. *)
Definition sread (fs : filesystem) (infile : string) (o : options)
  : outcome pyval * option file :=
  match fs infile with
  | None => (Raise (IOError "No such file or directory"), None)
  | Some content =>
      let rf := sread_body o (mkFile (str_splitlines (decode_ascii content)) false) in
      (fst rf, Some (snd rf))
  end.

(** *** Rows, sample files and written tables *)

(** The first file of the doctests. *)
Definition test_dat : list string :=
  [line "head1 head2 head3 head4"; line "1.1 1.2 1.3 1.4"; line "2.1 2.2 2.3 2.4"].

(** A cell as [line2var] strips it. *)
Definition stripped (stp : option string) (cell : string) : string :=
  match stp with
  | None => str_strip_chars squote (str_strip_chars dquote cell)
  | Some EmptyString => cell
  | Some chars => str_strip_chars chars cell
  end.

(** The row [line2var] makes of a split line: the selected cells the line
    has, stripped, then one empty string per selected column it lacks. *)
Definition line_row (res : list string) (iinc : list nat) (stp : option string)
  : list string :=
  map (fun i => stripped stp (nth i res EmptyString))
      (filter (fun i => i <? length res)%nat iinc)
  ++ repeat EmptyString (length (filter (fun i => length res <=? i)%nat iinc)).

(** A line is blank when nothing is left of it after [rstrip]. *)
Definition blank (l : string) : Prop := str_rstrip l = EmptyString.



(** A file with a header, a full data line and a short one. *)
Definition short_dat : list string :=
  [line "head1 head2 head3"; line "1 2 3"; line "4"].

(** One line per row: the cells joined by the separator character. *)
Definition write_table (c : ascii) (table : list (list string)) : list string :=
  map (fun row => line (str_join (String c EmptyString) row)) table.

(** What the default [strip=None] does to a cell: double quotes are
    stripped from both ends, then single quotes. *)
Definition unquote (cell : string) : string :=
  str_strip_chars squote (str_strip_chars dquote cell).

(** What stripping every leading and trailing quote character would give. *)
Definition trim_quotes (cell : string) : string :=
  str_strip_chars (dquote ++ squote)%string cell.

(** A row that can be written on one line and split again: [n] cells,
    none holding the separator or a line break, the last one not empty and
    not ending in whitespace. *)
Definition well_formed_row (c : ascii) (n : nat) (row : list string) : Prop :=
  length row = n /\
  Forall (fun cell => mem_char c cell = false /\ no_linebreak cell = true) row /\
  last row EmptyString <> EmptyString /\
  str_rstrip (last row EmptyString) = last row EmptyString.

(** A table all of whose cells are ASCII text. *)
Definition ascii_table (table : list (list string)) : Prop :=
  Forall (Forall (fun cell => ascii_only cell = true)) table.

(** The two bytes that encode an e with acute accent in UTF-8. *)
Definition e_acute : string :=
  String (ascii_of_nat 195) (String (ascii_of_nat 169) EmptyString).

(** A cell of a whitespace-delimited table: not empty and free of
    whitespace, commas and semi-colons. *)
Definition token (cell : string) : Prop :=
  cell <> EmptyString /\ no_space cell = true /\
  mem_char ","%char cell = false /\ mem_char ";"%char cell = false.

(** How a table written with the separator character [c] is read back:
    the separator is given; or none is given and the reader finds it, the
    comma first, then the semi-colon when no cell holds a comma, then
    whitespace when all cells are tokens. *)
Definition reads_with (c : ascii) (n : nat) (sp : option string)
                      (table : list (list string)) : Prop :=
  sp = Some (String c EmptyString) \/
  (sp = None /\ c = ","%char /\ (2 <= n)%nat) \/
  (sp = None /\ c = ";"%char /\ (2 <= n)%nat /\
   Forall (Forall (fun cell => mem_char ","%char cell = false)) table) \/
  (sp = None /\ is_space c = true /\ Forall (Forall token) table).

(** A row whose written line the reader, splitting with [sep], turns back
    into the row. *)
Definition parsed (sep : option string) (c : ascii) (n : nat) (row : list string)
  : Prop :=
  length row = n /\
  str_rstrip (line (str_join (String c EmptyString) row))
    = str_join (String c EmptyString) row /\
  str_join (String c EmptyString) row <> EmptyString /\
  str_split sep (str_join (String c EmptyString) row) = Return row.

(** The data of the first doctest file. *)
Definition spaced_table : list (list string) :=
  [["1.1"; "1.2"; "1.3"; "1.4"]; ["2.1"; "2.2"; "2.3"; "2.4"]].

(** A table with quoted cells, as in the doctests. *)
Definition quoted_table : list (list string) :=
  [[(dquote ++ "head1" ++ dquote)%string; (dquote ++ "head2" ++ dquote)%string];
   [(dquote ++ "1.1" ++ dquote)%string; (squote ++ "1.2" ++ squote)%string];
   ["2.1"; "nan"]].

(** *** Selected columns *)

(** The columns that [nc] and [cskip] select on a first line of [nres]
    cells when no [cname] is given (sread.py 358-367). *)
Definition selected (ncv : nc_arg) (cskip nres : nat) : list nat :=
  match ncv with
  | NcSeq l => l
  | NcInt z =>
      if (z <=? 0)%Z then seq cskip (nres - cskip) else seq cskip (Z.to_nat z)
  end.

(** The cells of a row at the given columns. *)
Definition pick (cols : list nat) (row : list string) : list string :=
  map (fun i => nth i row EmptyString) cols.

(** A header row as the list branch of [fill] leaves it: every name turned
    into the list of its characters. *)
Definition spelled (names : list string) : pyval :=
  PList (map (fun name => PList (chars_of name)) names).

(** More keywords changed one at a time. *)
Definition with_transpose (v : bool) (o : options) : options :=
  mkOptions (nc o) (cname o) (skip o) (cskip o) (hskip o) (hstrip o) (separator o)
            (squeeze o) (reform o) (skip_blank o) (comment o) (fill o)
            (fill_value o) (strip o) (header o) (full_header o) v
            (strarr o).

Definition with_squeeze (v : bool) (o : options) : options :=
  mkOptions (nc o) (cname o) (skip o) (cskip o) (hskip o) (hstrip o) (separator o)
            v (reform o) (skip_blank o) (comment o) (fill o)
            (fill_value o) (strip o) (header o) (full_header o) (transpose o)
            (strarr o).


(** The first file of the doctests as a table with its header row. *)
Definition headed_table : list (list string) :=
  [["head1"; "head2"; "head3"; "head4"]; ["1.1"; "1.2"; "1.3"; "1.4"];
   ["2.1"; "2.2"; "2.3"; "2.4"]].

End Sread.

(** ** HDF containers as the readers see them *)

Module Hdf.

Inductive attrval : Type :=
| AInt (z : Z)
| AStr (s : string)
| AVec (v : list Z).

(** Dataset contents with up to two dimensions. *)
Inductive ndarray : Type :=
| D0 (x : Z)
| D1 (v : list Z)
| D2 (m : list (list Z)).

(** [arr.squeeze()] *)
Definition nd_squeeze (a : ndarray) : ndarray :=
  match a with
  | D0 _ => a
  | D1 [x] => D0 x
  | D1 _ => a
  | D2 [[x]] => D0 x
  | D2 [r] => D1 r
  | D2 m =>
      if forallb (fun r => (length r =? 1)%nat) m
      then D1 (flat_map (fun r => r) m) else a
  end.

(** A dataset: its attributes and its data, [None] when reading fails.
    [D0] is the content of a scalar dataset. *)
Record dataset : Type := mkDataset {
  ds_attrs : list (string * attrval);
  ds_data : option ndarray
}.

Record container : Type := mkContainer {
  file_attrs : list (string * attrval);
  datasets : list (string * dataset)
}.

(** Names mapped to the containers that can be opened. *)
Definition filesystem : Type := string -> option container.

(** What the call leaves of the file object it opened. *)
Inductive handle : Type :=
| NotOpened
| Opened (is_closed : bool).

Inductive result : Type :=
| RAttrs (d : list (string * attrval))
| RAttrsFull (d : list (string * (attrval * nat)))
| RNames (l : list string)
| RArray (a : ndarray).

(** The keyword arguments shared by [readhdf5] and [readhdf4]. *)
Record options : Type := mkOptions {
  var : string;
  reform : bool;
  squeeze : bool;
  variables : bool;
  attributes : bool;
  fileattributes : bool;
  sort : bool
}.

Definition defaults : options :=
  mkOptions EmptyString false false false false false false.

Definition with_var (v : string) (attrs : bool) : options :=
  mkOptions v false false false attrs false false.

Fixpoint lookup {A : Type} (k : string) (l : list (string * A)) : option A :=
  match l with
  | [] => None
  | (k', v) :: l' => if String.eqb k k' then Some v else lookup k l'
  end.

Definition mem_str (s : string) (l : list string) : bool :=
  existsb (String.eqb s) l.

(** [sorted(names)] *)
Fixpoint insert_str (s : string) (l : list string) : list string :=
  match l with
  | [] => [s]
  | t :: l' => if String.ltb s t then s :: t :: l' else t :: insert_str s l'
  end.

Definition sorted_str (l : list string) : list string :=
  fold_left (fun acc s => insert_str s acc) l [].

(** Reading a name that holds a string: the string-valued bindings are in
    [strs], every other bound name in [others]; an unbound name raises
    NameError. *)
Definition load_str (strs : list (string * string)) (others : list string)
                    (name : string) : outcome string :=
  match lookup name strs with
  | Some v => Return v
  | None =>
      if mem_str name others
      then Raise (TypeError "can only concatenate str (not another type) to str")
      else Raise (NameError name)
  end.

(** [raise ValueError(msg)] once [msg] is evaluated. *)
Definition raise_with {A : Type} (mk : string -> exn) (msg : outcome string)
  : outcome A :=
  match msg with
  | Return m => Raise (mk m)
  | Raise e => Raise e
  | Diverge => Diverge
  end.

(** *** A sample container *)

(** The container of the doctests: one dataset [chs]. *)
Definition test_container : container :=
  mkContainer [("NB_PARAMETERS", AInt 9)]
              [("chs", mkDataset [("Double", AVec [1%Z]); ("Inttest", AInt 1)]
                                 (Some (D2 [[1; 2; 3]; [4; 5; 6]]%Z)))].

Definition test_fs : filesystem :=
  fun name => if String.eqb name "test_readhdf5.hdf5" then Some test_container
              else None.

(** *** Order of names and calls for the list of variables *)

(** [s <= t] for strings: [t] does not come before [s]. *)
Definition str_le (s t : string) : Prop := String.ltb t s = false.

(** A call with [variables=True] and the given [sort]. *)
Definition list_variables (sorted : bool) : options :=
  mkOptions EmptyString false false true false false sorted.

(** A container with several datasets, one of them unreadable. *)
Definition modis_container : container :=
  mkContainer [("HDFEOSVersion", AStr "HDFEOS_V2.14")]
              [("sur_refl_b02_1", mkDataset [] (Some (D1 [1; 2]%Z)));
               ("QC_250m_1", mkDataset [("_FillValue", AInt 0)] None);
               ("sur_refl_b01_1", mkDataset [] (Some (D2 [[7; 8]]%Z)));
               ("num_observations", mkDataset [] (Some (D0 3%Z)))].

Definition modis_fs : filesystem :=
  fun name => if String.eqb name "test_readhdf4.hdf4" then Some modis_container
              else None.

End Hdf.

(** ** src/readhdf5.py *)

Module ReadHDF5.

Import Hdf.

(** The names bound inside [readhdf5] besides the two string parameters
    (parameters, locals, module globals and imports). *)
Definition other_names : list string :=
  ["reform"; "squeeze"; "variables"; "attributes"; "fileattributes"; "sort";
   "f"; "vars"; "nvars"; "svars"; "ivars"; "v"; "attrs"; "attr"; "a"; "arr";
   "print_function"; "np"; "hdf"; "readhdf5"].

(** ['variable '+var+' not in file '+fname] (readhdf5.py 124, 138) *)
Definition not_in_file_msg (fName v : string) : outcome string :=
  (v' <- load_str [("fName", fName); ("var", v)] other_names "var" ;;
   fname <- load_str [("fName", fName); ("var", v)] other_names "fname" ;;
   Return ("variable " ++ v' ++ " not in file " ++ fname)%string)%py.

(** ['Cannot read variable '+var+' in file '+fname] (readhdf5.py 143) *)
Definition cannot_read_msg (fName v : string) : outcome string :=
  (v' <- load_str [("fName", fName); ("var", v)] other_names "var" ;;
   fname <- load_str [("fName", fName); ("var", v)] other_names "fname" ;;
   Return ("Cannot read variable " ++ v' ++ " in file " ++ fname)%string)%py.

(** [readhdf5] (readhdf5.py 92-149).  Reading [f[var][:]] has two ways to
    fail: an IOError, which the function catches, closing the file; and
    h5py's ValueError for the slice of a scalar dataset, which it does not
    catch, so that the file stays open. *)
Definition readhdf5 (fs : filesystem) (fName : string) (o : options)
  : outcome result * handle :=
  match fs fName with
  | None => (Raise (IOError ("Cannot open file: " ++ fName)%string), NotOpened)
  | Some f =>
      if fileattributes o then (Return (RAttrs (file_attrs f)), Opened true)
      else
        let vars := map fst (datasets f) in
        if variables o then
          (Return (RNames (if sort o then sorted_str vars else vars)), Opened true)
        else if attributes o then
          match lookup (var o) (datasets f) with
          | None => (raise_with ValueError (not_in_file_msg fName (var o)), Opened true)
          | Some d => (Return (RAttrs (ds_attrs d)), Opened true)
          end
        else if String.eqb (var o) EmptyString then
          (Raise (ValueError "Variable name has to be given."), Opened true)
        else
          match lookup (var o) (datasets f) with
          | None => (raise_with ValueError (not_in_file_msg fName (var o)), Opened true)
          | Some d =>
              match ds_data d with
              | None => (raise_with IOError (cannot_read_msg fName (var o)), Opened true)
              | Some (D0 _) =>
                  (Raise (ValueError "Illegal slicing argument for scalar dataspace"),
                   Opened false)
              | Some arr =>
                  if reform o || squeeze o
                  then (Return (RArray (nd_squeeze arr)), Opened true)
                  else (Return (RArray arr), Opened true)
              end
          end
  end.

End ReadHDF5.

(** ** src/jams/readhdf4.py *)

Module ReadHDF4.

Import Hdf.

(** The names bound inside [readhdf4] besides the two string parameters:
    parameters, locals, the imported [SD], module globals. *)
Definition other_names : list string :=
  ["reform"; "squeeze"; "variables"; "attributes"; "fileattributes"; "sort";
   "SD"; "f"; "attr"; "svars"; "attrs"; "arr";
   "division"; "absolute_import"; "print_function"; "np"; "readhdf4"; "hdf4read"].

(** Names of Python's builtins the function refers to. *)
Definition builtins : list string := ["IOError"; "ValueError"].

(** Looking a class name up, as [raise X(...)] and [except X:] do. *)
Definition load_class (name : string) : outcome string :=
  if mem_str name other_names || mem_str name builtins then Return name
  else Raise (NameError name).

(** ['Variable '+var+' not in file '+fname] (readhdf4.py 133, 144) *)
Definition not_in_file_msg (fName v : string) : outcome string :=
  (v' <- load_str [("fName", fName); ("var", v)] other_names "var" ;;
   fname <- load_str [("fName", fName); ("var", v)] other_names "fname" ;;
   Return ("Variable " ++ v' ++ " not in file " ++ fname)%string)%py.

(** [attributes(full=1)]: every value comes with its index; the type
    code and the length pyhdf adds to the tuple are left out. *)
Fixpoint full_from (n : nat) (d : list (string * attrval))
  : list (string * (attrval * nat)) :=
  match d with
  | [] => []
  | (k, v) :: d' => (k, (v, n)) :: full_from (S n) d'
  end.

Definition full (d : list (string * attrval)) : list (string * (attrval * nat)) :=
  full_from 0 d.

(** [readhdf4] (readhdf4.py 105-154).  [pyhdf] tells whether the import of
    [pyhdf.SD] succeeds; [SD(fName)] raises pyhdf's HDF4Error when the file
    cannot be opened.  A failing read of the data raises pyhdf's ValueError
    before [f.end()] is reached: the handler for it is commented out in the
    source. *)
Definition readhdf4 (pyhdf : bool) (fs : filesystem) (fName : string) (o : options)
  : outcome result * handle :=
  if negb pyhdf then
    ((cls <- load_class "Error" ;;
      Raise (ValueError "No HDF4 support available, i.e. pyhdf"))%py, NotOpened)
  else
    match fs fName with
    | None =>
        (* try: f = SD(fName) / except HDF4Error: raise IOError(...) *)
        ((cls <- load_class "HDF4Error" ;;
          Raise (IOError ("Cannot open file: " ++ fName)%string))%py, NotOpened)
    | Some f =>
        if fileattributes o then (Return (RAttrsFull (full (file_attrs f))), Opened true)
        else
          let svars := map fst (datasets f) in
          if variables o then
            (Return (RNames (if sort o then sorted_str svars else svars)), Opened true)
          else if attributes o then
            match lookup (var o) (datasets f) with
            | None =>
                (raise_with ValueError (not_in_file_msg fName (var o)),
                 Opened true)
            | Some d => (Return (RAttrsFull (full (ds_attrs d))), Opened true)
            end
          else if String.eqb (var o) EmptyString then
            (Raise (ValueError "Variable name has to be given."), Opened true)
          else
            match lookup (var o) (datasets f) with
            | None =>
                (raise_with ValueError (not_in_file_msg fName (var o)),
                 Opened true)
            | Some d =>
                match ds_data d with
                | None => (Raise (ValueError "SDreaddata failure"), Opened false)
                | Some arr =>
                    if reform o || squeeze o
                    then (Return (RArray (nd_squeeze arr)), Opened true)
                    else (Return (RArray arr), Opened true)
                end
            end
    end.

(** [hdf4read] (readhdf4.py 193) *)
Definition hdf4read := readhdf4.

End ReadHDF4.

(** ** src/ufz/alpha_kin_h2o.py *)

Module AlphaKin.

Import Reals.
Local Open Scope R_scope.

(** Floating-point numbers are the reals they stand for: no rounding. *)

(** The fractionation factors (alpha_kin_h2o.py 92-104): of Merlivat
    (1978), or of Cappa et al. (2003) with [cappa]; [isotope] is 1 for HDO,
    2 for H218O, anything else (or nothing) for no fractionation. *)
Definition factor (isotope : option Z) (cappa : bool) : R :=
  match isotope with
  | Some z =>
      if (z =? 1)%Z then (if cappa then 0.9839 else 0.9755)
      else if (z =? 2)%Z then (if cappa then 0.9691 else 0.9727)
      else 1
  | None => 1
  end.

(** [alpha_kin_h2o] (alpha_kin_h2o.py 92-118) *)
Definition alpha_kin_h2o (isotope : option Z) (eps greater1 boundary cappa : bool)
  : R :=
  let out := factor isotope cappa in
  let out := if boundary then Rpower out (2 / 3) else out in
  let out := if greater1 then 1 / out else out in
  if eps then out - 1 else out.

(** The isotopologues that fractionate. *)
Definition fractionates (isotope : option Z) : bool :=
  match isotope with
  | Some z => (z =? 1)%Z || (z =? 2)%Z
  | None => false
  end.

End AlphaKin.

(** * Properties *)

(** ** argsort.py: extreme indices and masked sorting *)

Module ArgsortProps.

Import Argsort.
Local Open Scope Z_scope.

(** What a scan leaves as its running best: it is the start value or a later
    element, nothing seen beats it, and everything seen before its position
    is strictly worse. *)
Lemma max_scan :
  forall r n i0 v0,
    (i0 < n)%nat ->
    forall i v, fold_left max_step (enumerate_from n r) (i0, v0) = (i, v) ->
      ((i, v) = (i0, v0) \/ (n <= i)%nat /\ nth_error r (i - n) = Some v) /\
      v0 <= v /\ (i <> i0 -> v0 < v) /\
      (forall k w, nth_error r k = Some w -> w <= v /\ ((n + k < i)%nat -> w < v)).
Proof.
  induction r as [|x r IH]; intros n i0 v0 Hlt i v Hf; simpl in Hf.
  - inversion Hf; subst. repeat split; auto; try lia; try congruence;
      destruct k; discriminate.
  - unfold max_step at 2 in Hf. simpl in Hf.
    destruct (x >? v0) eqn:Hx.
    + apply IH in Hf; [|lia].
      destruct Hf as (Hwhere & Hge & Hne & Hall).
      assert (Hx' : v0 < x) by lia.
      repeat split.
      * right. destruct Hwhere as [E | [Hn He]].
        -- inversion E; subst. split; [lia|]. now rewrite Nat.sub_diag.
        -- split; [lia|]. replace (i - n)%nat with (S (i - S n)) by lia. exact He.
      * lia.
      * intros _. lia.
      * destruct k as [|k]; simpl in H; [inversion H; subst; lia|].
        apply Hall in H. tauto.
      * destruct k as [|k]; simpl in H.
        -- inversion H; subst. intros Hk. apply Hne. lia.
        -- apply Hall in H. intros Hk. apply H. lia.
    + apply IH in Hf; [|lia].
      destruct Hf as (Hwhere & Hge & Hne & Hall).
      assert (Hx' : x <= v0) by lia.
      repeat split.
      * destruct Hwhere as [E | [Hn He]]; [now left|right].
        split; [lia|]. replace (i - n)%nat with (S (i - S n)) by lia. exact He.
      * exact Hge.
      * exact Hne.
      * destruct k as [|k]; simpl in H; [inversion H; subst; lia|].
        apply Hall in H. tauto.
      * destruct k as [|k]; simpl in H.
        -- inversion H; subst. intros Hk.
           assert (i <> i0) by lia. apply Hne in H0. lia.
        -- apply Hall in H. intros Hk. apply H. lia.
Qed.

Lemma min_scan :
  forall r n i0 v0,
    (i0 < n)%nat ->
    forall i v, fold_left min_step (enumerate_from n r) (i0, v0) = (i, v) ->
      ((i, v) = (i0, v0) \/ (n <= i)%nat /\ nth_error r (i - n) = Some v) /\
      v <= v0 /\ (i <> i0 -> v < v0) /\
      (forall k w, nth_error r k = Some w -> v <= w /\ ((n + k < i)%nat -> v < w)).
Proof.
  induction r as [|x r IH]; intros n i0 v0 Hlt i v Hf; simpl in Hf.
  - inversion Hf; subst. repeat split; auto; try lia; try congruence;
      destruct k; discriminate.
  - unfold min_step at 2 in Hf. simpl in Hf.
    destruct (x <? v0) eqn:Hx.
    + apply IH in Hf; [|lia].
      destruct Hf as (Hwhere & Hge & Hne & Hall).
      assert (Hx' : x < v0) by lia.
      repeat split.
      * right. destruct Hwhere as [E | [Hn He]].
        -- inversion E; subst. split; [lia|]. now rewrite Nat.sub_diag.
        -- split; [lia|]. replace (i - n)%nat with (S (i - S n)) by lia. exact He.
      * lia.
      * intros _. lia.
      * destruct k as [|k]; simpl in H; [inversion H; subst; lia|].
        apply Hall in H. tauto.
      * destruct k as [|k]; simpl in H.
        -- inversion H; subst. intros Hk. apply Hne. lia.
        -- apply Hall in H. intros Hk. apply H. lia.
    + apply IH in Hf; [|lia].
      destruct Hf as (Hwhere & Hge & Hne & Hall).
      assert (Hx' : v0 <= x) by lia.
      repeat split.
      * destruct Hwhere as [E | [Hn He]]; [now left|right].
        split; [lia|]. replace (i - n)%nat with (S (i - S n)) by lia. exact He.
      * exact Hge.
      * exact Hne.
      * destruct k as [|k]; simpl in H; [inversion H; subst; lia|].
        apply Hall in H. tauto.
      * destruct k as [|k]; simpl in H.
        -- inversion H; subst. intros Hk.
           assert (i <> i0) by lia. apply Hne in H0. lia.
        -- apply Hall in H. intros Hk. apply H. lia.
Qed.

Lemma getitem_nth_error :
  forall (l : list Z) k w, nth_error l k = Some w -> getitem l k = w.
Proof.
  intros l k w H. unfold getitem. now apply nth_error_nth.
Qed.

Lemma nth_error_getitem :
  forall (l : list Z) k, (k < length l)%nat -> nth_error l k = Some (getitem l k).
Proof.
  intros l k H. unfold getitem. now apply nth_error_nth'.
Qed.

(** C10.  On a non-empty plain Python sequence [argmax] returns an index
    holding the greatest value such that every earlier position holds a
    strictly smaller one, i.e. the smallest index of the maximum; [argmin]
    likewise returns the smallest index of the minimum. *)
Theorem iterable_argmax_argmin_first_extreme :
  forall (l : list Z) (kw : kwargs),
    l <> [] ->
    exists i j,
      argmax (Iterable l) kw = Return i /\
      argmin (Iterable l) kw = Return j /\
      (i < length l)%nat /\ (j < length l)%nat /\
      (forall k, (k < length l)%nat -> getitem l k <= getitem l i) /\
      (forall k, (k < i)%nat -> getitem l k < getitem l i) /\
      (forall k, (k < length l)%nat -> getitem l j <= getitem l k) /\
      (forall k, (k < j)%nat -> getitem l j < getitem l k).
Proof.
  intros [|x r] kw Hne; [congruence|clear Hne].
  destruct (fold_left max_step (enumerate_from 1 r) (0%nat, x)) as [i v] eqn:Hmax.
  destruct (fold_left min_step (enumerate_from 1 r) (0%nat, x)) as [j u] eqn:Hmin.
  exists i, j.
  pose proof (@max_scan r 1 0 x ltac:(lia) i v Hmax) as (Wi & Gi & Ni & Ai).
  pose proof (@min_scan r 1 0 x ltac:(lia) j u Hmin) as (Wj & Gj & Nj & Aj).
  assert (Hi : (i < length (x :: r))%nat /\ getitem (x :: r) i = v).
  { destruct Wi as [E | [Hn He]].
    - inversion E; subst. simpl. split; [lia|reflexivity].
    - assert (i - 1 < length r)%nat by (apply nth_error_Some; congruence).
      split; [simpl; lia|].
      apply getitem_nth_error. replace i with (S (i - 1)) by lia. exact He. }
  assert (Hj : (j < length (x :: r))%nat /\ getitem (x :: r) j = u).
  { destruct Wj as [E | [Hn He]].
    - inversion E; subst. simpl. split; [lia|reflexivity].
    - assert (j - 1 < length r)%nat by (apply nth_error_Some; congruence).
      split; [simpl; lia|].
      apply getitem_nth_error. replace j with (S (j - 1)) by lia. exact He. }
  destruct Hi as [Hi Hiv], Hj as [Hj Hju].
  split.
  { unfold argmax, iargmax, py_max, enumerate. simpl.
    change (fold_left _ (enumerate_from 1 r) (0%nat, x))
      with (fold_left max_step (enumerate_from 1 r) (0%nat, x)).
    now rewrite Hmax. }
  split.
  { unfold argmin, iargmin, py_min, enumerate. simpl.
    change (fold_left _ (enumerate_from 1 r) (0%nat, x))
      with (fold_left min_step (enumerate_from 1 r) (0%nat, x)).
    now rewrite Hmin. }
  split; [exact Hi|]. split; [exact Hj|].
  rewrite Hiv, Hju.
  repeat split.
  - intros [|k] Hk; [exact Gi|].
    simpl in Hk. assert (Hk' : (k < length r)%nat) by lia.
    apply nth_error_getitem in Hk'. apply Ai in Hk'. apply Hk'.
  - intros [|k] Hk; [apply Ni; lia|].
    assert (Hk' : (k < length r)%nat) by (simpl in Hi; lia).
    apply nth_error_getitem in Hk'. apply Ai in Hk'. apply Hk'. lia.
  - intros [|k] Hk; [exact Gj|].
    simpl in Hk. assert (Hk' : (k < length r)%nat) by lia.
    apply nth_error_getitem in Hk'. apply Aj in Hk'. apply Hk'.
  - intros [|k] Hk; [apply Nj; lia|].
    assert (Hk' : (k < length r)%nat) by (simpl in Hj; lia).
    apply nth_error_getitem in Hk'. apply Aj in Hk'. apply Hk'. lia.
Qed.

Lemma iterable_argmax_argmin_first_extreme_witness :
  exists i j,
    argmax (Iterable [0; 4; 6; 2; 6; 0]) no_kwargs = Return i /\
    argmin (Iterable [0; 4; 6; 2; 6; 0]) no_kwargs = Return j /\
    (i < 6)%nat /\ (j < 6)%nat /\
    (forall k, (k < 6)%nat -> getitem [0; 4; 6; 2; 6; 0] k <= getitem [0; 4; 6; 2; 6; 0] i) /\
    (forall k, (k < i)%nat -> getitem [0; 4; 6; 2; 6; 0] k < getitem [0; 4; 6; 2; 6; 0] i) /\
    (forall k, (k < 6)%nat -> getitem [0; 4; 6; 2; 6; 0] j <= getitem [0; 4; 6; 2; 6; 0] k) /\
    (forall k, (k < j)%nat -> getitem [0; 4; 6; 2; 6; 0] j < getitem [0; 4; 6; 2; 6; 0] k).
Proof.
  apply (@iterable_argmax_argmin_first_extreme [0; 4; 6; 2; 6; 0] no_kwargs).
  discriminate.
Defined.

Example argmax_ties : argmax (Iterable [0; 4; 6; 2; 6; 0]) no_kwargs = Return 2%nat.
Proof. reflexivity. Qed.

Example argmin_ties : argmin (Iterable [0; 4; 6; 2; 6; 0]) no_kwargs = Return 0%nat.
Proof. reflexivity. Qed.

(** *** Stable sorting of indices *)

Lemma insert_by_perm :
  forall key i l, Permutation (insert_by key i l) (i :: l).
Proof.
  intros key i l. induction l as [|j l IH]; simpl.
  - apply Permutation_refl.
  - destruct (key i <? key j).
    + apply Permutation_refl.
    + eapply perm_trans; [apply perm_skip, IH|apply perm_swap].
Qed.

Lemma insert_by_sorted :
  forall key i l,
    Sorted Z.le (map key l) -> Sorted Z.le (map key (insert_by key i l)).
Proof.
  intros key i l. induction l as [|j l IH]; simpl; intros Hs.
  - repeat constructor.
  - destruct (key i <? key j) eqn:Hij; simpl.
    + constructor; [exact Hs|]. constructor. lia.
    + inversion Hs as [|? ? Hs' Hhd]; subst.
      constructor; [now apply IH|].
      destruct l as [|j' l]; simpl.
      * constructor. lia.
      * destruct (key i <? key j'); simpl; constructor; try lia.
        now inversion Hhd.
Qed.

Lemma py_sorted_perm_acc :
  forall key l acc,
    Permutation (fold_left (fun a i => insert_by key i a) l acc) (acc ++ l).
Proof.
  intros key l. induction l as [|i l IH]; intros acc; simpl.
  - rewrite app_nil_r. apply Permutation_refl.
  - eapply perm_trans; [apply IH|].
    eapply perm_trans; [apply Permutation_app_tail, insert_by_perm|].
    simpl. apply Permutation_middle.
Qed.

Lemma py_sorted_sorted_acc :
  forall key l acc,
    Sorted Z.le (map key acc) ->
    Sorted Z.le (map key (fold_left (fun a i => insert_by key i a) l acc)).
Proof.
  intros key l. induction l as [|i l IH]; intros acc Hs; simpl.
  - exact Hs.
  - apply IH. now apply insert_by_sorted.
Qed.

(** The stable kind fulfils the contract of [numpy.argsort]. *)
Lemma stable_argsort_sorts : sorts stable_argsort.
Proof.
  intros data. unfold stable_argsort, py_sorted. split.
  - apply (py_sorted_perm_acc (getitem data) (seq 0 (length data)) []).
  - apply py_sorted_sorted_acc. constructor.
Qed.

Lemma filled_length :
  forall data mask v, length (filled data mask v) = length data.
Proof.
  induction data as [|x data IH]; intros mask v; simpl; [reflexivity|].
  destruct mask; simpl; now rewrite IH.
Qed.

(** Position by position, [filled] puts the fill value at masked entries
    and keeps the others. *)
Lemma filled_getitem :
  forall data mask v k,
    (k < length data)%nat ->
    getitem (filled data mask v) k =
      if nth k mask false then v else getitem data k.
Proof.
  unfold getitem.
  induction data as [|x data IH]; intros mask v k Hk; simpl in Hk; [lia|].
  destruct mask as [|b mask]; destruct k as [|k]; simpl; try reflexivity.
  - rewrite (IH [] v k) by lia. now destruct k.
  - apply IH. lia.
Qed.

(** Reading a sorted list of indices at two positions. *)
Lemma strongly_sorted_positions :
  forall (f : nat -> Z) (l : list nat) (p q a b : nat),
    StronglySorted Z.le (map f l) -> (p < q)%nat ->
    nth_error l p = Some a -> nth_error l q = Some b -> f a <= f b.
Proof.
  intros f l. induction l as [|x l IH]; intros p q a b Hs Hpq Ha Hb.
  - now destruct p.
  - inversion Hs as [|y ys Hs' Hall]; subst.
    destruct q as [|q]; [lia|]. cbn [nth_error] in Hb.
    destruct p as [|p]; cbn [nth_error] in Ha.
    + inversion Ha; subst. rewrite Forall_forall in Hall. apply Hall.
      apply in_map. now apply nth_error_In in Hb.
    + apply (IH p q a b Hs'); [lia|exact Ha|exact Hb].
Qed.

(** numpy.ma refuses a fill value that is no int64. *)
Lemma check_fill_value_out_of_range :
  forall default v,
    v < int64_min \/ int64_max < v ->
    check_fill_value default (Some v)
      = Raise (TypeError "Cannot convert fill_value to dtype int64").
Proof.
  intros default v H. cbn [check_fill_value].
  destruct (int64_min <=? v) eqn:E1; destruct (v <=? int64_max) eqn:E2;
    try reflexivity.
  apply Z.leb_le in E1. apply Z.leb_le in E2. lia.
Qed.

Lemma check_fill_value_in_range :
  forall default v,
    int64_min <= v <= int64_max -> check_fill_value default (Some v) = Return v.
Proof.
  intros default v [H1 H2]. cbn [check_fill_value].
  apply Z.leb_le in H1. apply Z.leb_le in H2. now rewrite H1, H2.
Qed.

Lemma filled_nomask : forall data v, filled data [] v = data.
Proof.
  induction data as [|x data IH]; intros v; simpl; [reflexivity|now rewrite IH].
Qed.

(** With the default fill value, or a given one of the dtype, numpy.ma
    fills the masked entries. *)
Lemma ma_filled_default :
  forall data mask default,
    ma_filled data mask default None = Return (filled data mask default).
Proof.
  intros data [|b mask] default; cbn [ma_filled check_fill_value bind].
  - now rewrite filled_nomask.
  - reflexivity.
Qed.

Lemma ma_filled_in_range :
  forall data mask default v,
    int64_min <= v <= int64_max ->
    ma_filled data mask default (Some v) = Return (filled data mask v).
Proof.
  intros data [|b mask] default v Hv; cbn [ma_filled].
  - now rewrite filled_nomask.
  - now rewrite (check_fill_value_in_range _ Hv).
Qed.

(** C4, amended.  For a masked int64 array (its mask absent or as long as
    the data) and a fill value [v] that is an int64, [argsort] with
    [fill_value=v] is [argsort] of the plain array in which every masked
    entry is replaced by [v]: the result lists every index once; reading
    through it the values, with [v] at masked positions, come in
    non-decreasing order; and an unmasked entry below [v] comes before
    every masked entry, one above [v] after every masked entry. *)
Theorem argsort_masked_fill_value :
  forall (np_argsort : list Z -> list nat),
    sorts np_argsort ->
    forall (data : list Z) (mask : list bool) (v : Z),
      mask = [] \/ length mask = length data ->
      int64_min <= v <= int64_max ->
      argsort np_argsort (MaskedArray data mask) (with_fill_value v) =
        argsort np_argsort (NdArray (filled data mask v)) no_kwargs /\
      exists ii,
        argsort np_argsort (MaskedArray data mask) (with_fill_value v) = Return ii /\
        Permutation ii (seq 0 (length data)) /\
        Sorted Z.le
          (map (fun k => if nth k mask false then v else getitem data k) ii) /\
        forall p q j k,
          nth_error ii p = Some j -> nth_error ii q = Some k ->
          nth j mask false = false -> nth k mask false = true ->
          (getitem data j < v -> (p < q)%nat) /\
          (v < getitem data j -> (q < p)%nat).
Proof.
  intros np_argsort Hsorts data mask v _ Hv.
  assert (E : argsort np_argsort (MaskedArray data mask) (with_fill_value v)
              = Return (np_argsort (filled data mask v))).
  { cbn [argsort sorted_only with_fill_value kw_key kw_reverse kw_fill_value orb].
    unfold np_ma_argsort. now rewrite (ma_filled_in_range _ _ _ Hv). }
  split; [rewrite E; reflexivity|].
  exists (np_argsort (filled data mask v)). split; [exact E|].
  destruct (Hsorts (filled data mask v)) as [Hperm Hsorted].
  rewrite filled_length in Hperm. split; [exact Hperm|].
  assert (Hs : Sorted Z.le
            (map (fun k => if nth k mask false then v else getitem data k)
                 (np_argsort (filled data mask v)))).
  { erewrite map_ext_in; [exact Hsorted|].
    intros k Hk. symmetry. apply filled_getitem.
    apply (Permutation_in _ Hperm) in Hk. apply in_seq in Hk. lia. }
  split; [exact Hs|].
  apply Sorted_StronglySorted in Hs; [|intros x y z; apply Z.le_trans].
  intros p q j k Hj Hk Hmj Hmk.
  pose proof (fun H => @strongly_sorted_positions _ _ p q j k Hs H Hj Hk) as Hpq.
  pose proof (fun H => @strongly_sorted_positions _ _ q p k j Hs H Hk Hj) as Hqp.
  cbv beta in Hpq, Hqp. rewrite Hmj, Hmk in Hpq, Hqp.
  assert (Hne : p <> q).
  { intros ->. rewrite Hj in Hk. inversion Hk; subst. congruence. }
  split; intros Hlt.
  - destruct (Nat.lt_trichotomy p q) as [H|[H|H]]; [exact H|contradiction|].
    specialize (Hqp H). lia.
  - destruct (Nat.lt_trichotomy p q) as [H|[H|H]]; [|contradiction|exact H].
    specialize (Hpq H). lia.
Qed.

Lemma argsort_masked_fill_value_witness :
  argsort stable_argsort
    (MaskedArray [0; 4; 6; 2; 1; 5; 3; 5]
                 [false; false; true; true; false; false; false; false])
    (with_fill_value 1) =
    argsort stable_argsort (NdArray [0; 4; 1; 1; 1; 5; 3; 5]) no_kwargs /\
  exists ii,
    argsort stable_argsort
      (MaskedArray [0; 4; 6; 2; 1; 5; 3; 5]
                   [false; false; true; true; false; false; false; false])
      (with_fill_value 1) = Return ii /\
    Permutation ii (seq 0 8) /\
    Sorted Z.le
      (map (fun k => if nth k [false; false; true; true; false; false; false; false] false
                     then 1 else getitem [0; 4; 6; 2; 1; 5; 3; 5] k) ii) /\
    forall p q j k,
      nth_error ii p = Some j -> nth_error ii q = Some k ->
      nth j [false; false; true; true; false; false; false; false] false = false ->
      nth k [false; false; true; true; false; false; false; false] false = true ->
      (getitem [0; 4; 6; 2; 1; 5; 3; 5] j < 1 -> (p < q)%nat) /\
      (1 < getitem [0; 4; 6; 2; 1; 5; 3; 5] j -> (q < p)%nat).
Proof.
  apply (@argsort_masked_fill_value stable_argsort stable_argsort_sorts
           [0; 4; 6; 2; 1; 5; 3; 5]
           [false; false; true; true; false; false; false; false] 1).
  - right. reflexivity.
  - vm_compute. split; discriminate.
Defined.

(** C4 as stated fails for a fill value that the array cannot hold: with
    [fill_value = 2^63] on an int64 array numpy.ma raises TypeError and no
    permutation is returned, whatever the sort kind. *)
Lemma argsort_masked_fill_value_counterexample :
  int64_max + 1 = 2 ^ 63 /\
  forall np_argsort : list Z -> list nat,
    argsort np_argsort
      (MaskedArray [0; 4; 6; 2; 1; 5; 3; 5]
                   [false; false; true; true; false; false; false; false])
      (with_fill_value (2 ^ 63))
      = Raise (TypeError "Cannot convert fill_value to dtype int64").
Proof.
  split; [reflexivity|]. intros np_argsort. reflexivity.
Qed.

(** The doctest of [argsort] with [fill_value=1]. *)
Example argsort_doctest_fill :
  argsort stable_argsort
    (MaskedArray [0; 4; 6; 2; 1; 5; 3; 5]
                 [false; false; true; true; false; false; false; false])
    (with_fill_value 1) = Return [0; 2; 3; 4; 6; 1; 5; 7]%nat.
Proof. reflexivity. Qed.

End ArgsortProps.

(** ** division.py: selection by the guard and the error settings *)

Module DivisionProps.

Import Division.





Lemma size_nd_map :
  forall (A B : Type) (g : A -> B) (v : nd A), size (nd_map g v) = size v.
Proof.
  intros A B g [x|xs]; cbn [nd_map size]; [reflexivity|now rewrite length_map].
Qed.












(** The doctests of [division]. *)
Example division_doctest_default :
  fst (division default_err (Plain (Vector [Fin 1; Fin 1; Fin 1]))
                (Plain (Vector [Fin 2; Fin 1; Fin 0])) (Scalar NaN) (Fin 0))
    = Return (Plain (Vector [Fin (1 # 2); Fin 1; NaN])).
Proof. reflexivity. Qed.

Example division_doctest_prec :
  fst (division default_err (Plain (Vector [Fin 1; Fin 1; Fin 1]))
                (Plain (Vector [Fin 2; Fin 1; Fin 0])) (Scalar NaN) (Fin 1))
    = Return (Plain (Vector [Fin (1 # 2); NaN; NaN])).
Proof. reflexivity. Qed.

(** What a returning call computes does not depend on the error settings
    it starts from. *)
Lemma np_divide_independent :
  forall st st' a b q q',
    np_divide st a b = Return q -> np_divide st' a b = Return q' -> q = q'.
Proof.
  intros st st' a b q q'. unfold np_divide.
  destruct (broadcast2 fdiv a b) as [r| |]; cbn [bind]; try discriminate.
  repeat match goal with
         | |- context [if ?c then _ else _] => destruct c
         end; congruence.
Qed.

Lemma ma_divide_independent :
  forall st st' a b q q',
    ma_divide st a b = Return q -> ma_divide st' a b = Return q' -> q = q'.
Proof.
  intros st st' a b q q'. unfold ma_divide.
  destruct (broadcast2 _ a b) as [r| |]; cbn [bind]; try discriminate.
  repeat match goal with
         | |- context [if ?c then _ else _] => destruct c
         end; congruence.
Qed.

Lemma seterr_restores :
  forall st, seterr_all (geterr st) (seterr_divide Ignore st) = st.
Proof. now intros []. Qed.

(** C9.  When [division] returns, the error settings are those found at
    entry; and the same arguments give the same result from any other
    settings, which come back unchanged as well. *)
Theorem division_stateless :
  forall (st : errstate) (a b : array) (x : nd fval) (p : fval)
         (out : array) (st' : errstate),
    division st a b x p = (Return out, st') ->
    st' = st /\
    forall (st2 : errstate) (out2 : array) (st2' : errstate),
      division st2 a b x p = (Return out2, st2') ->
      out2 = out /\ st2' = st2.
Proof.
  intros st a b x p out st' H.
  assert (Hframe : forall s o s', division s a b x p = (Return o, s') -> s' = s).
  { intros s o s'. unfold division.
    match goal with
    | |- (match ?body with _ => _ end) = _ -> _ => destruct body
    end; intros E; inversion E. apply seterr_restores. }
  split; [now apply (Hframe st out)|].
  intros st2 out2 st2' H2. split; [|now apply (Hframe st2 out2)].
  unfold division in H, H2.
  destruct (is_masked a || is_masked b).
  - destruct (ma_divide (seterr_divide Ignore st) (to_masked a) (to_masked b))
      as [q| |] eqn:Eq; cbn [bind] in H; try discriminate.
    destruct (ma_divide (seterr_divide Ignore st2) (to_masked a) (to_masked b))
      as [q2| |] eqn:Eq2; cbn [bind] in H2; try discriminate.
    rewrite (ma_divide_independent _ _ _ _ Eq2 Eq) in H2.
    destruct (ma_where (ma_abs_gt (to_masked b) p) q (ma_array x)) as [o| |];
      cbn [bind] in *; try discriminate.
    congruence.
  - destruct (np_divide (seterr_divide Ignore st) (to_plain a) (to_plain b))
      as [q| |] eqn:Eq; cbn [bind] in H; try discriminate.
    destruct (np_divide (seterr_divide Ignore st2) (to_plain a) (to_plain b))
      as [q2| |] eqn:Eq2; cbn [bind] in H2; try discriminate.
    rewrite (np_divide_independent _ _ _ _ Eq2 Eq) in H2.
    destruct (np_where _ q x) as [o| |]; cbn [bind] in *; try discriminate.
    congruence.
Qed.

Lemma division_stateless_witness :
  mkErr RaiseErr Warn Ignore Log = mkErr RaiseErr Warn Ignore Log /\
  forall (st2 : errstate) (out2 : array) (st2' : errstate),
    division st2 (Plain (Vector [Fin 1; Fin 1; Fin 1]))
             (Plain (Vector [Fin 2; Fin 1; Fin 0])) (Scalar NaN) (Fin 0)
      = (Return out2, st2') ->
    out2 = Plain (Vector [Fin (1 # 2); Fin 1; NaN]) /\ st2' = st2.
Proof.
  apply (@division_stateless (mkErr RaiseErr Warn Ignore Log)
           (Plain (Vector [Fin 1; Fin 1; Fin 1]))
           (Plain (Vector [Fin 2; Fin 1; Fin 0])) (Scalar NaN) (Fin 0)).
  reflexivity.
Defined.

(** A call that raises leaves 'divide' switched off: the settings are put
    back on the returning path only. *)
Example division_raise_leaves_settings :
  division (mkErr Warn Warn Ignore RaiseErr) (Plain (Vector [Fin 0]))
           (Plain (Vector [Fin 0])) (Scalar NaN) (Fin 0)
    = (Raise (FloatingPointError "invalid value encountered in true_divide"),
       mkErr Ignore Warn Ignore RaiseErr).
Proof. reflexivity. Qed.

(** The quotient [2^1000 / 2^-1000] is beyond the doubles.  With 'over' at
    its default the call returns an infinity there; with 'over' set to
    'raise' it raises, for plain and for masked operands, and leaves
    'divide' switched off. *)
Example division_overflow_default :
  division default_err (Plain (Vector [Fin (inject_Z (2 ^ 1000))]))
           (Plain (Vector [Fin (1 / inject_Z (2 ^ 1000))])) (Scalar NaN) (Fin 0)
    = (Return (Plain (Vector [PInf])), default_err).
Proof. vm_compute. reflexivity. Qed.

Example division_overflow_raises :
  division (mkErr Warn RaiseErr Ignore Warn)
           (Plain (Vector [Fin (inject_Z (2 ^ 1000))]))
           (Plain (Vector [Fin (1 / inject_Z (2 ^ 1000))])) (Scalar NaN) (Fin 0)
    = (Raise (FloatingPointError "overflow encountered in true_divide"),
       mkErr Ignore RaiseErr Ignore Warn).
Proof. vm_compute. reflexivity. Qed.

Example division_masked_overflow_raises :
  division (mkErr Warn RaiseErr Ignore Warn)
           (Masked (Vector [Some (Fin (inject_Z (2 ^ 1000)))]))
           (Plain (Vector [Fin (1 / inject_Z (2 ^ 1000))])) (Scalar NaN) (Fin 0)
    = (Raise (FloatingPointError "overflow encountered in true_divide"),
       mkErr Ignore RaiseErr Ignore Warn).
Proof. vm_compute. reflexivity. Qed.

(** A quotient below the least normal double that is no double itself
    signals underflow; a subnormal double does not. *)
Example division_underflow_raises :
  division (mkErr Warn Warn RaiseErr Warn)
           (Plain (Vector [Fin (1 / inject_Z (2 ^ 1000))]))
           (Plain (Vector [Fin (inject_Z (3 * 2 ^ 100))])) (Scalar NaN) (Fin 0)
    = (Raise (FloatingPointError "underflow encountered in true_divide"),
       mkErr Ignore Warn RaiseErr Warn).
Proof. vm_compute. reflexivity. Qed.

Example division_subnormal_returns :
  fst (division (mkErr Warn Warn RaiseErr Warn)
                (Plain (Vector [Fin (1 / inject_Z (2 ^ 1000))]))
                (Plain (Vector [Fin (inject_Z (2 ^ 50))])) (Scalar NaN) (Fin 0))
    = Return (Plain (Vector [Fin (1 / inject_Z (2 ^ 1000) / inject_Z (2 ^ 50))])).
Proof. vm_compute. reflexivity. Qed.

End DivisionProps.

(** ** readhdf5.py and readhdf4.py: how failures are signalled *)

Module HdfProps.

Import Hdf.
Local Open Scope Z_scope.

Lemma lookup_not_in :
  forall (A : Type) (k : string) (l : list (string * A)),
    ~ In k (map fst l) -> lookup k l = None.
Proof.
  intros A k l. induction l as [|[k' v] l IH]; intros Hn; simpl in *.
  - reflexivity.
  - destruct (String.eqb k k') eqn:E.
    + apply String.eqb_eq in E. subst. tauto.
    + apply IH. tauto.
Qed.

(** C6, as the code behaves.  A variable that is not in the file makes
    [readhdf5] close the file and then fail while it builds the message:
    the message reads the undefined name [fname] (the parameter is
    [fName]), so a NameError is raised in place of the ValueError. *)
Theorem readhdf5_missing_variable :
  forall (fs : filesystem) (fName : string) (f : container)
         (v : string) (attrs : bool),
    fs fName = Some f ->
    ~ In v (map fst (datasets f)) ->
    attrs = true \/ v <> EmptyString ->
    ReadHDF5.readhdf5 fs fName (with_var v attrs)
      = (Raise (NameError "fname"), Opened true).
Proof.
  intros fs fName f v attrs Hf Hv Hcase.
  unfold ReadHDF5.readhdf5. rewrite Hf. cbn [with_var fileattributes variables attributes var].
  rewrite (lookup_not_in _ _ Hv).
  destruct attrs; [reflexivity|].
  destruct Hcase as [|Hne]; [discriminate|].
  destruct (String.eqb v EmptyString) eqn:E; [|reflexivity].
  apply String.eqb_eq in E. contradiction.
Qed.

Lemma readhdf5_missing_variable_witness :
  ReadHDF5.readhdf5 test_fs "test_readhdf5.hdf5" (with_var "EM_BB" false)
    = (Raise (NameError "fname"), Opened true).
Proof.
  apply (@readhdf5_missing_variable test_fs "test_readhdf5.hdf5" test_container
           "EM_BB" false).
  - reflexivity.
  - simpl. intros [H|[]]. discriminate.
  - right. discriminate.
Defined.

Example readhdf5_missing_variable_attributes :
  ReadHDF5.readhdf5 test_fs "test_readhdf5.hdf5" (with_var "EM_BB" true)
    = (Raise (NameError "fname"), Opened true).
Proof. reflexivity. Qed.

(** A variable of the file is read. *)
Example readhdf5_present_variable :
  ReadHDF5.readhdf5 test_fs "test_readhdf5.hdf5" (with_var "chs" false)
    = (Return (RArray (D2 [[1; 2; 3]; [4; 5; 6]])), Opened true).
Proof. reflexivity. Qed.

(** A file that cannot be opened is reported by [readhdf5] as the claim
    for the sibling reader asks. *)
Example readhdf5_open_failure :
  ReadHDF5.readhdf5 test_fs "missing.hdf5" defaults
    = (Raise (IOError "Cannot open file: missing.hdf5"), NotOpened).
Proof. reflexivity. Qed.

(** C7, as the code behaves.  When the file cannot be opened, pyhdf's
    HDF4Error reaches the clause [except HDF4Error:]; the name [HDF4Error]
    was never imported, so looking it up raises NameError and no IOError
    is produced. *)
Theorem readhdf4_open_failure :
  forall (fs : filesystem) (fName : string) (o : options),
    fs fName = None ->
    ReadHDF4.readhdf4 true fs fName o = (Raise (NameError "HDF4Error"), NotOpened).
Proof.
  intros fs fName o Hf. unfold ReadHDF4.readhdf4. cbn [negb]. now rewrite Hf.
Qed.

Lemma readhdf4_open_failure_witness :
  ReadHDF4.readhdf4 true test_fs "missing.hdf4" defaults
    = (Raise (NameError "HDF4Error"), NotOpened).
Proof.
  apply (@readhdf4_open_failure test_fs "missing.hdf4" defaults).
  reflexivity.
Defined.

(** Without pyhdf the import fails and the handler raises the undefined
    name [Error]. *)
Example readhdf4_without_pyhdf :
  ReadHDF4.readhdf4 false test_fs "missing.hdf4" defaults
    = (Raise (NameError "Error"), NotOpened).
Proof. reflexivity. Qed.

End HdfProps.

(** ** Python strings: splitting what was joined, stripping line ends *)

Module PyStrProps.

Import PyStr.
Local Open Scope string_scope.

Lemma append_nil_r : forall s : string, (s ++ EmptyString)%string = s.
Proof.
  induction s as [|c s IH]; simpl; [reflexivity|now rewrite IH].
Qed.

Lemma append_assoc :
  forall s t u : string, ((s ++ t) ++ u)%string = (s ++ (t ++ u))%string.
Proof.
  induction s as [|c s IH]; intros t u; simpl; [reflexivity|now rewrite IH].
Qed.

(** Stripping the right end of a concatenation: if the second part strips
    to nothing the first part is stripped, otherwise the first part stays. *)
Lemma rstrip_by_app :
  forall p (s t : string),
    rstrip_by p (s ++ t) =
      match rstrip_by p t with
      | EmptyString => rstrip_by p s
      | r => (s ++ r)%string
      end.
Proof.
  intros p s t. induction s as [|c s IH]; simpl.
  - now destruct (rstrip_by p t).
  - rewrite IH. destruct (rstrip_by p t) as [|d r]; [reflexivity|].
    now destruct s.
Qed.

Lemma rstrip_newline : str_rstrip newline = EmptyString.
Proof. reflexivity. Qed.

(** A line that ends in a visible character loses exactly its line end. *)
Lemma rstrip_line :
  forall s : string,
    str_rstrip s = s -> str_rstrip (s ++ newline) = s.
Proof.
  intros s Hs. unfold str_rstrip in *. rewrite rstrip_by_app.
  change (rstrip_by is_space newline) with EmptyString. exact Hs.
Qed.

Lemma rstrip_app_visible :
  forall s t : string,
    t <> EmptyString -> str_rstrip t = t -> str_rstrip (s ++ t) = (s ++ t)%string.
Proof.
  intros s t Hne Ht. unfold str_rstrip in *. rewrite rstrip_by_app, Ht.
  destruct t; [congruence|reflexivity].
Qed.

(** A joined row ends with its last cell. *)
Lemma join_last :
  forall sep (row : list string),
    row <> [] ->
    exists pre : string, str_join sep row = (pre ++ last row EmptyString)%string.
Proof.
  intros sep row. induction row as [|c row IH]; intros Hne; [congruence|].
  destruct row as [|c' row].
  - exists EmptyString. reflexivity.
  - destruct IH as (pre & Hpre); [discriminate|].
    exists (c ++ sep ++ pre)%string.
    change (str_join sep (c :: c' :: row))
      with (c ++ sep ++ str_join sep (c' :: row))%string.
    rewrite Hpre, !append_assoc. reflexivity.
Qed.

Lemma prefix_char :
  forall (c x : ascii) (s : string),
    prefix (String c EmptyString) (String x s) = Ascii.eqb c x.
Proof.
  intros c x s. simpl. destruct (ascii_dec c x) as [E|E].
  - subst. rewrite Ascii.eqb_refl. now destruct s.
  - symmetry. now apply Ascii.eqb_neq.
Qed.

(** Splitting at a one-character separator: a cell without the separator
    is taken over whole. *)
Lemma split_sep_aux_cell :
  forall (c : ascii) (cell cur rest : string),
    mem_char c cell = false ->
    split_sep_aux (String c EmptyString) 0 cur (cell ++ rest) =
      split_sep_aux (String c EmptyString) 0 (cur ++ cell) rest.
Proof.
  intros c cell. induction cell as [|x cell IH]; intros cur rest Hm.
  - now rewrite append_nil_r.
  - simpl in Hm. apply orb_false_iff in Hm. destruct Hm as [Hx Hm].
    change ((String x cell ++ rest)%string) with (String x (cell ++ rest)).
    cbn [split_sep_aux]. rewrite prefix_char, Hx.
    rewrite IH by exact Hm. rewrite append_assoc. reflexivity.
Qed.

Lemma split_sep_aux_sep :
  forall (c : ascii) (cur rest : string),
    split_sep_aux (String c EmptyString) 0 cur (String c rest) =
      cur :: split_sep_aux (String c EmptyString) 0 EmptyString rest.
Proof.
  intros c cur rest. cbn [split_sep_aux]. rewrite prefix_char, Ascii.eqb_refl.
  reflexivity.
Qed.

Lemma split_sep_aux_join :
  forall (c : ascii) (row : list string) (cur : string),
    row <> [] ->
    Forall (fun cell => mem_char c cell = false) row ->
    split_sep_aux (String c EmptyString) 0 cur (str_join (String c EmptyString) row) =
      (cur ++ hd EmptyString row)%string :: tl row.
Proof.
  intros c row. induction row as [|cell row IH]; intros cur Hne Hall; [congruence|].
  inversion Hall as [|? ? Hcell Hrow]; subst.
  destruct row as [|cell' row].
  - cbn [str_join hd tl].
    rewrite <- (append_nil_r cell) at 1.
    rewrite split_sep_aux_cell by exact Hcell. reflexivity.
  - change (str_join (String c EmptyString) (cell :: cell' :: row))
      with (cell ++ String c (str_join (String c EmptyString) (cell' :: row)))%string.
    rewrite split_sep_aux_cell by exact Hcell.
    rewrite split_sep_aux_sep.
    rewrite IH by (try discriminate; exact Hrow). reflexivity.
Qed.

(** Splitting a joined row gives the row back when no cell holds the
    separator. *)
Lemma split_join :
  forall (c : ascii) (row : list string),
    row <> [] ->
    Forall (fun cell => mem_char c cell = false) row ->
    str_split (Some (String c EmptyString)) (str_join (String c EmptyString) row)
      = Return row.
Proof.
  intros c row Hne Hall. cbn [str_split]. unfold split_sep.
  rewrite split_sep_aux_join by assumption.
  destruct row; [congruence|reflexivity].
Qed.

Lemma split_sep_aux_none :
  forall (c : ascii) (s cur : string),
    mem_char c s = false ->
    split_sep_aux (String c EmptyString) 0 cur s = [(cur ++ s)%string].
Proof.
  intros c s cur H. rewrite <- (append_nil_r s) at 1.
  now rewrite split_sep_aux_cell.
Qed.

Lemma mem_char_app :
  forall c (s t : string), mem_char c (s ++ t) = mem_char c s || mem_char c t.
Proof.
  intros c s t. induction s as [|d s IH]; cbn [append mem_char]; [reflexivity|].
  now rewrite IH, orb_assoc.
Qed.

(** A character that is neither the separator nor in any cell is not in
    the joined row. *)
Lemma mem_char_join :
  forall (c d : ascii) (row : list string),
    Ascii.eqb c d = false ->
    Forall (fun cell => mem_char c cell = false) row ->
    mem_char c (str_join (String d EmptyString) row) = false.
Proof.
  intros c d row Hcd Hall. induction Hall as [|cell row Hcell Hrow IH]; [reflexivity|].
  destruct row as [|cell' row]; [exact Hcell|].
  change (str_join (String d EmptyString) (cell :: cell' :: row))
    with (cell ++ String d EmptyString
               ++ str_join (String d EmptyString) (cell' :: row))%string.
  rewrite !mem_char_app, Hcell, IH. cbn [mem_char]. now rewrite Hcd.
Qed.

(** Splitting at whitespace: a piece free of whitespace is taken over
    whole, and a whitespace character ends the piece collected so far. *)
Lemma split_ws_aux_piece :
  forall (cell cur rest : string),
    no_space cell = true ->
    split_ws_aux cur (cell ++ rest) = split_ws_aux (cur ++ cell) rest.
Proof.
  intros cell. induction cell as [|x cell IH]; intros cur rest H.
  - now rewrite append_nil_r.
  - unfold no_space in H. cbn [str_forallb] in H. apply andb_true_iff in H. destruct H as [Hx H].
    apply negb_true_iff in Hx.
    change ((String x cell ++ rest)%string) with (String x (cell ++ rest)).
    cbn [split_ws_aux]. rewrite Hx, IH by exact H. now rewrite append_assoc.
Qed.

Lemma split_ws_join :
  forall (c : ascii) (row : list string),
    is_space c = true ->
    Forall (fun cell => cell <> EmptyString /\ no_space cell = true) row ->
    split_ws (str_join (String c EmptyString) row) = row.
Proof.
  intros c row Hc Hall. unfold split_ws.
  induction Hall as [|cell row [Hne Hcell] Hrow IH]; [reflexivity|].
  destruct row as [|cell' row].
  - cbn [str_join]. rewrite <- (append_nil_r cell) at 1.
    rewrite split_ws_aux_piece by exact Hcell. cbn [append split_ws_aux].
    now destruct cell.
  - change (str_join (String c EmptyString) (cell :: cell' :: row))
      with (cell ++ String c (str_join (String c EmptyString) (cell' :: row)))%string.
    rewrite split_ws_aux_piece by exact Hcell. cbn [append split_ws_aux].
    rewrite Hc, IH. now destruct cell.
Qed.

End PyStrProps.

(** ** sread.py: what the reader returns, raises and leaves open *)

Module SreadProps.

Import PyStr Sread PyStrProps.

(** *** Running the file monad *)

Lemma mbind_return :
  forall (A B : Type) (m : M A) (k : A -> M B) f a f',
    m f = (Return a, f') -> mbind m k f = k a f'.
Proof. intros A B m k f a f' H. unfold mbind. now rewrite H. Qed.

Lemma mbind_raise :
  forall (A B : Type) (m : M A) (k : A -> M B) f e f',
    m f = (Raise e, f') -> mbind m k f = (Raise e, f').
Proof. intros A B m k f e f' H. unfold mbind. now rewrite H. Qed.

Lemma mbind_diverge :
  forall (A B : Type) (m : M A) (k : A -> M B) f f',
    m f = (Diverge, f') -> mbind m k f = (Diverge, f').
Proof. intros A B m k f f' H. unfold mbind. now rewrite H. Qed.

(** Splitting a returning [mbind]. *)
Lemma mbind_inv :
  forall (A B : Type) (m : M A) (k : A -> M B) f b f2,
    mbind m k f = (Return b, f2) ->
    exists a f1, m f = (Return a, f1) /\ k a f1 = (Return b, f2).
Proof.
  intros A B m k f b f2 H. unfold mbind in H.
  destruct (m f) as [[a|e|] f1]; try discriminate. eauto.
Qed.

(** *** The first part of [sread] *)

Lemma read_stripped_open :
  forall n f,
    closed f = false ->
    exists ls f', read_stripped n f = (Return ls, f') /\ closed f' = false.
Proof.
  induction n as [|n IH]; intros f Hf.
  - exists [], f. split; [reflexivity|exact Hf].
  - cbn [read_stripped].
    assert (Hr : exists l f1, readline f = (Return l, f1) /\ closed f1 = false).
    { unfold readline. rewrite Hf. destruct (pending f) as [|l r].
      - exists EmptyString, f. split; [reflexivity|exact Hf].
      - exists l, (mkFile r false). split; reflexivity. }
    destruct Hr as (l & f1 & Hl & Hf1).
    destruct (IH f1 Hf1) as (ls & f2 & Hls & Hf2).
    exists (str_rstrip l :: ls), f2. split; [|exact Hf2].
    erewrite mbind_return; [|exact Hl]. erewrite mbind_return; [|exact Hls].
    reflexivity.
Qed.

(** Looking for the first data line neither raises nor touches the
    handle; it runs forever only under [skip_blank]. *)
Lemma first_line_from_outcome :
  forall o lines f,
    exists r f',
      first_line_from o lines f = (r, f') /\ closed f' = closed f /\
      ((exists s, r = Return s) \/ (r = Diverge /\ skip_blank o = true)).
Proof.
  intros o lines. induction lines as [|line rest IH]; intros f.
  - cbn [first_line_from]. destruct (skip_blank o) eqn:Hb.
    + exists Diverge, f. repeat split. now right.
    + exists (Return EmptyString), f. repeat split. left. eauto.
  - cbn [first_line_from]. unfold mbind at 1. cbn [advance].
    destruct (IH (mkFile rest (closed f))) as (r & f' & Hr & Hc & Hcase).
    destruct (String.length (str_rstrip line) =? 0)%nat.
    + destruct (skip_blank o).
      * exists r, f'. auto.
      * eexists _, _. split; [reflexivity|]. split; [reflexivity|]. left. eauto.
    + destruct (is_comment (comment o) (str_rstrip line)).
      * exists r, f'. auto.
      * eexists _, _. split; [reflexivity|]. split; [reflexivity|]. left. eauto.
Qed.

(** The separator that comes out of [sniff] is never the empty string, and
    [sniff] fails only on an empty separator. *)
Lemma sniff_outcome :
  forall sp s,
    (exists sep res, sniff sp s = Return (sep, res) /\ sep <> Some EmptyString) \/
    sniff sp s = Raise (ValueError "empty separator").
Proof.
  intros [[|c sp]|] s.
  - right. reflexivity.
  - left. eexists _, _. split; [reflexivity|discriminate].
  - left. unfold sniff.
    destruct (length (split_sep "," s) =? 1)%nat;
      [destruct (length (split_sep ";" s) =? 1)%nat|];
      eexists _, _; (split; [reflexivity|discriminate]).
Qed.

Lemma split_valid :
  forall sep s, sep <> Some EmptyString -> exists res, str_split sep s = Return res.
Proof.
  intros [[|c sp]|] s H; [congruence| |]; eexists; reflexivity.
Qed.

Lemma skip_part_open :
  forall (b : bool) n f,
    closed f = false ->
    exists ls f',
      (if b then read_stripped n else ret []) f = (Return ls, f') /\
      closed f' = false.
Proof.
  intros [|] n f Hf; [now apply read_stripped_open|].
  exists [], f. split; [reflexivity|exact Hf].
Qed.

(** Selecting the columns leaves the handle alone unless it raises. *)
Lemma indices_return :
  forall o head sep nres f iinc f',
    indices o head sep nres f = (Return iinc, f') -> f' = f.
Proof.
  intros o head sep nres f iinc f'. unfold indices.
  destruct (nc_nonzero (nc o) && _); [discriminate|].
  destruct (cname o) as [cn|].
  - destruct (skip o - hskip o <=? 0)%nat; [discriminate|].
    unfold mbind, lift, ret.
    destruct (str_split sep (nth 0 head EmptyString)); intros H; inversion H.
    reflexivity.
  - destruct (nc o) as [n|l]; [destruct (n <=? 0)%Z|]; unfold ret;
      intros H; inversion H; reflexivity.
Qed.

(** Asking for columns both by number and by name closes the file and
    raises. *)
Lemma indices_exclusive :
  forall o head sep nres f,
    nc_nonzero (nc o) = true -> cname o <> None ->
    indices o head sep nres f =
      (Raise (ValueError "nc and cname are mutually exclusive."),
       mkFile (pending f) true).
Proof.
  intros o head sep nres f Hnc Hcn. unfold indices. rewrite Hnc.
  destruct (cname o); [reflexivity|congruence].
Qed.

(** What holds once the first part has gone through: the file is still
    open, the separator is usable, and the largest selected index is the
    maximum of a non-empty selection. *)
Lemma setup_inv :
  forall o f st f1,
    closed f = false ->
    sread_setup o f = (Return st, f1) ->
    closed f1 = false /\ st_sep st <> Some EmptyString /\
    max_index (st_iinc st) = Return (st_miinc st).
Proof.
  intros o f st f1 Hf H. unfold sread_setup in H.
  apply mbind_inv in H. destruct H as (x0 & f0 & H0 & H).
  destruct (skip_part_open (0 <? hskip o)%nat (hskip o) f Hf) as (? & ? & E0 & Hf0).
  rewrite E0 in H0. inversion H0; subst. clear H0 E0.
  apply mbind_inv in H. destruct H as (head & fh & Hh & H).
  destruct (skip_part_open (0 <? skip o)%nat (skip o - hskip o) f0 Hf0)
    as (? & ? & Eh & Hfh).
  rewrite Eh in Hh. inversion Hh; subst. clear Hh Eh.
  apply mbind_inv in H. destruct H as (s & fs & Hs & H).
  unfold first_line in Hs.
  destruct (first_line_from_outcome o (pending fh) fh) as (r & f' & Er & Hc & _).
  rewrite Er in Hs. inversion Hs; subst. clear Hs.
  apply mbind_inv in H. destruct H as ([sep res] & fr & Hr & H).
  unfold lift in Hr. inversion Hr; subst. clear Hr.
  match goal with Hsn : sniff _ _ = _ |- _ => rename Hsn into Hsniff end.
  apply mbind_inv in H. destruct H as (iinc & fi & Hi & H).
  apply indices_return in Hi. subst fi.
  apply mbind_inv in H. destruct H as (miinc & fm & Hm & H).
  unfold lift in Hm. inversion Hm; subst. clear Hm.
  unfold ret in H. inversion H; subst. cbn [st_sep st_iinc st_miinc].
  split; [congruence|]. split; [|assumption].
  destruct (sniff_outcome (separator o) s) as [(sep' & res' & E & Hne)|E];
    rewrite E in Hsniff; inversion Hsniff; subst. exact Hne.
Qed.

Lemma setup_exclusive :
  forall o f,
    closed f = false ->
    nc_nonzero (nc o) = true -> cname o <> None ->
    (exists f', sread_setup o f = (Diverge, f') /\ skip_blank o = true) \/
    (exists f', sread_setup o f = (Raise (ValueError "empty separator"), f')) \/
    (exists f', sread_setup o f
                = (Raise (ValueError "nc and cname are mutually exclusive."), f') /\
                closed f' = true).
Proof.
  intros o f Hf Hnc Hcn. unfold sread_setup.
  destruct (skip_part_open (0 <? hskip o)%nat (hskip o) f Hf)
    as (l0 & f0 & E0 & Hf0).
  erewrite mbind_return; [|exact E0].
  destruct (skip_part_open (0 <? skip o)%nat (skip o - hskip o) f0 Hf0)
    as (head & fh & Eh & Hfh).
  erewrite mbind_return; [|exact Eh].
  destruct (first_line_from_outcome o (pending fh) fh)
    as (r & f1 & Er & Hc & [(s & ->)|[-> Hb]]).
  - erewrite mbind_return; [|exact Er].
    destruct (sniff_outcome (separator o) s) as [(sep & res & Es & _)|Es].
    + right. right. eexists. split.
      * erewrite mbind_return; [|unfold lift; rewrite Es; reflexivity].
        erewrite mbind_raise; [reflexivity|].
        now apply indices_exclusive.
      * reflexivity.
    + right. left. eexists.
      erewrite mbind_raise; [reflexivity|]. unfold lift. now rewrite Es.
  - left. eexists. split; [|exact Hb].
    erewrite mbind_diverge; [reflexivity|exact Er].
Qed.

(** With [nc] and [cname] both given, a call that gets past the search for
    the first data line raises ValueError; the search itself may run
    forever under [skip_blank]. *)
Lemma sread_nc_and_cname :
  forall o lines,
    nc_nonzero (nc o) = true -> cname o <> None ->
    (exists f', sread_body o (mkFile lines false) = (Diverge, f') /\
                skip_blank o = true) \/
    (exists f', sread_body o (mkFile lines false)
                = (Raise (ValueError "empty separator"), f')) \/
    (exists f', sread_body o (mkFile lines false)
                = (Raise (ValueError "nc and cname are mutually exclusive."), f') /\
                closed f' = true).
Proof.
  intros o lines Hnc Hcn. unfold sread_body.
  destruct (setup_exclusive o (mkFile lines false) eq_refl Hnc Hcn)
    as [(f' & E & Hb)|[(f' & E)|(f' & E & Hc)]].
  - left. exists f'. split; [|exact Hb]. now apply mbind_diverge.
  - right. left. exists f'. now apply mbind_raise.
  - right. right. exists f'. split; [|exact Hc]. now apply mbind_raise.
Qed.

(** *** Claims on the handle and on exclusive options *)

(** C5, as the code behaves.  With [nc=1], [cname='head1'], [skip=1] and
    [skip_blank=True] on a file that holds a header line and no data yet,
    the search for the first data line reads the end of file as one more
    blank line and never ends: no error is raised. *)
Theorem sread_nc_and_cname_hangs :
  sread (one_file "test.dat" (text [line "head1 head2 head3 head4"])) "test.dat"
        (with_skip_blank true
           (with_skip 1 (with_cname (CnameStr "head1") (with_nc (NcInt 1) defaults))))
    = (Diverge, Some (mkFile [] false)).
Proof. reflexivity. Qed.

(** On the full file the same call raises as the claim says. *)
Example sread_nc_and_cname_raises :
  sread (one_file "test.dat" (text test_dat)) "test.dat"
        (with_skip_blank true
           (with_skip 1 (with_cname (CnameStr "head1") (with_nc (NcInt 1) defaults))))
    = (Raise (ValueError "nc and cname are mutually exclusive."),
       Some (mkFile [line "2.1 2.2 2.3 2.4"] true)).
Proof. reflexivity. Qed.

(** C8, as the code behaves.  A [cname] that matches no header column
    leaves no index selected; [max(iinc)] then raises ValueError and the
    file is still open when the call ends. *)
Theorem sread_cname_no_match_leaves_file_open :
  sread (one_file "test.dat" (text test_dat)) "test.dat"
        (with_skip 1 (with_cname (CnameStr "head9") defaults))
    = (Raise (ValueError "max() arg is an empty sequence"),
       Some (mkFile [line "2.1 2.2 2.3 2.4"] false)).
Proof. reflexivity. Qed.

(** An empty separator is refused by [split] with the file open, too. *)
Example sread_empty_separator_leaves_file_open :
  sread (one_file "test.dat" (text test_dat)) "test.dat"
        (with_separator (Some EmptyString) defaults)
    = (Raise (ValueError "empty separator"),
       Some (mkFile [line "1.1 1.2 1.3 1.4"; line "2.1 2.2 2.3 2.4"] false)).
Proof. reflexivity. Qed.

(** Every call that returns has closed its file. *)
Lemma sread_return_closes :
  forall o lines v f',
    sread_body o (mkFile lines false) = (Return v, f') -> closed f' = true.
Proof.
  intros o lines v f' H. unfold sread_body in H.
  apply mbind_inv in H. destruct H as (st & f1 & _ & H).
  destruct (header o).
  - unfold sread_header in H.
    apply mbind_inv in H. destruct H as (var & f2 & _ & H).
    apply mbind_inv in H. destruct H as (u & f3 & Hc & H).
    unfold close in Hc. inversion Hc; subst.
    unfold lift in H. inversion H; subst. reflexivity.
  - unfold sread_values in H.
    destruct (_ && _).
    + apply mbind_inv in H. destruct H as (u & f2 & _ & H). discriminate.
    + apply mbind_inv in H. destruct H as (var & f2 & _ & H).
      apply mbind_inv in H. destruct H as (u & f3 & Hc & H).
      unfold close in Hc. inversion Hc; subst.
      unfold lift in H. inversion H; subst. reflexivity.
Qed.

(** *** Rows *)

Lemma line2var_row :
  forall res var iinc stp,
    line2var res var iinc stp = var ++ [line_row res iinc stp].
Proof.
  intros res var iinc stp. unfold line2var, line_row. f_equal. f_equal.
  destruct (length (filter (fun i => length res <=? i)%nat iinc)) as [|k] eqn:E.
  - cbn [Nat.ltb Nat.leb repeat]. rewrite app_nil_r.
    destruct stp as [[|c chars]|]; reflexivity.
  - change (0 <? S k)%nat with true. cbv iota.
    destruct stp as [[|c chars]|]; reflexivity.
Qed.

Lemma line_row_length :
  forall res iinc stp, length (line_row res iinc stp) = length iinc.
Proof.
  intros res iinc stp. unfold line_row.
  rewrite length_app, length_map, repeat_length.
  induction iinc as [|i iinc IH]; [reflexivity|]. cbn [filter].
  destruct (i <? length res)%nat eqn:E.
  - apply Nat.ltb_lt in E.
    assert (E' : (length res <=? i)%nat = false) by (apply Nat.leb_gt; lia).
    rewrite E'. cbn [length]. lia.
  - apply Nat.ltb_ge in E. apply Nat.leb_le in E. rewrite E. cbn [length]. lia.
Qed.


(** *** The loop over the data lines *)

(** One turn of the loop, with the monad run. *)
Lemma values_from_cons :
  forall o sep iinc miinc l rest var f,
    values_from o sep iinc miinc (l :: rest) var f =
      let f1 := mkFile rest (closed f) in
      let s := str_rstrip l in
      if (String.length s =? 0)%nat then
        if skip_blank o then values_from o sep iinc miinc rest var f1
        else (Return var, f1)
      else if is_comment (comment o) s then values_from o sep iinc miinc rest var f1
      else
        match str_split sep s with
        | Return res =>
            if (length res <=? miinc)%nat && negb (fill o)
            then (Raise (not_enough s), mkFile rest true)
            else values_from o sep iinc miinc rest
                             (var ++ [line_row res iinc (strip o)]) f1
        | Raise e => (Raise e, f1)
        | Diverge => (Diverge, f1)
        end.
Proof.
  intros o sep iinc miinc l rest var f. cbn [values_from].
  unfold mbind at 1, advance at 1. cbv beta iota zeta.
  destruct (String.length (str_rstrip l) =? 0)%nat.
  { destruct (skip_blank o); reflexivity. }
  destruct (is_comment (comment o) (str_rstrip l)); [reflexivity|].
  unfold mbind at 1, lift at 1.
  destruct (str_split sep (str_rstrip l)) as [res|e|]; try reflexivity.
  destruct ((length res <=? miinc)%nat && negb (fill o)); [reflexivity|].
  now rewrite line2var_row.
Qed.

(** The loop either returns the rows it was given followed by complete
    rows, with the handle untouched, or, without [fill] only, closes the
    file and raises ValueError. *)
Lemma values_from_outcome :
  forall o sep iinc miinc lines var f,
    sep <> Some EmptyString ->
    (exists more f',
        values_from o sep iinc miinc lines var f = (Return (var ++ more), f') /\
        closed f' = closed f /\
        Forall (fun r => length r = length iinc) more) \/
    (fill o = false /\
     exists msg f',
        values_from o sep iinc miinc lines var f = (Raise (ValueError msg), f') /\
        closed f' = true).
Proof.
  intros o sep iinc miinc lines. induction lines as [|l rest IH]; intros var f Hsep.
  - left. exists [], (mkFile [] (closed f)). rewrite app_nil_r.
    repeat split. constructor.
  - rewrite values_from_cons. cbv zeta.
    set (f1 := mkFile rest (closed f)).
    assert (Hstop : exists more f',
               (Return var, f1) = (Return (var ++ more), f') /\
               closed f' = closed f /\
               Forall (fun r => length r = length iinc) more).
    { exists [], f1. rewrite app_nil_r. repeat split. constructor. }
    destruct (String.length (str_rstrip l) =? 0)%nat.
    { destruct (skip_blank o); [apply (IH var f1 Hsep)|now left]. }
    destruct (is_comment (comment o) (str_rstrip l)); [apply (IH var f1 Hsep)|].
    destruct (@split_valid sep (str_rstrip l) Hsep) as (res & Hres).
    rewrite Hres.
    destruct ((length res <=? miinc)%nat && negb (fill o)) eqn:Hshort.
    + right. apply andb_true_iff in Hshort. destruct Hshort as [_ Hfill].
      split; [now destruct (fill o)|].
      eexists _, _. split; reflexivity.
    + destruct (IH (var ++ [line_row res iinc (strip o)]) f1 Hsep)
        as [(more & f' & E & Hc & Hall)|(Hfill & msg & f' & E & Hc)].
      * left. exists (line_row res iinc (strip o) :: more), f'.
        rewrite E, <- app_assoc. repeat split; [exact Hc|].
        constructor; [apply line_row_length|exact Hall].
      * right. split; [exact Hfill|]. exists msg, f'. now split.
Qed.




(** *** Which paths close the file *)

Lemma indices_outcome :
  forall o head sep nres f,
    sep <> Some EmptyString ->
    (exists iinc, indices o head sep nres f = (Return iinc, f)) \/
    (exists e, indices o head sep nres f = (Raise e, mkFile (pending f) true)).
Proof.
  intros o head sep nres f Hsep. unfold indices.
  destruct (nc_nonzero (nc o) && _); [right; eexists; reflexivity|].
  destruct (cname o) as [cn|].
  - destruct (skip o - hskip o <=? 0)%nat; [right; eexists; reflexivity|].
    destruct (@split_valid sep (nth 0 head EmptyString) Hsep) as (hres & Hres).
    left. eexists. unfold mbind, lift. rewrite Hres. reflexivity.
  - left. destruct (nc o) as [n|l]; [destruct (n <=? 0)%Z|]; eexists; reflexivity.
Qed.

Lemma header_rows_cons :
  forall o sep iinc miinc h hs var f,
    header_rows o sep iinc miinc (h :: hs) var f =
      match str_split sep h with
      | Return hres =>
          if (length hres <=? miinc)%nat && negb (fill o)
          then (Raise (not_enough h), mkFile (pending f) true)
          else header_rows o sep iinc miinc hs (line2var hres var iinc (strip o)) f
      | Raise e => (Raise e, f)
      | Diverge => (Diverge, f)
      end.
Proof.
  intros o sep iinc miinc h hs var f. cbn [header_rows].
  unfold mbind at 1, lift at 1.
  destruct (str_split sep h) as [hres|e|]; try reflexivity.
  destruct ((length hres <=? miinc)%nat && negb (fill o)); reflexivity.
Qed.

Lemma header_rows_outcome :
  forall o sep iinc miinc hs var f,
    sep <> Some EmptyString ->
    (exists rows, header_rows o sep iinc miinc hs var f = (Return rows, f)) \/
    (exists msg,
        header_rows o sep iinc miinc hs var f
          = (Raise (ValueError msg), mkFile (pending f) true)).
Proof.
  intros o sep iinc miinc hs. induction hs as [|h hs IH]; intros var f Hsep.
  - left. eexists. reflexivity.
  - rewrite header_rows_cons.
    destruct (@split_valid sep h Hsep) as (hres & Hres). rewrite Hres.
    destruct ((length hres <=? miinc)%nat && negb (fill o)).
    + right. eexists. reflexivity.
    + apply IH. exact Hsep.
Qed.

(** How the first part can end: with the columns selected and the file
    open; with the file closed by one of the two explicit raises; or, the
    file still open, by running forever, by an empty separator, or by an
    empty selection of columns. *)
Lemma setup_outcome :
  forall o f,
    closed f = false ->
    exists r f1,
      sread_setup o f = (r, f1) /\
      ((exists st, r = Return st /\ closed f1 = false /\
                   st_sep st <> Some EmptyString) \/
       (exists e, r = Raise e /\ closed f1 = true) \/
       r = Diverge \/
       r = Raise (ValueError "empty separator") \/
       r = Raise (ValueError "max() arg is an empty sequence")).
Proof.
  intros o f Hf. unfold sread_setup.
  destruct (skip_part_open (0 <? hskip o)%nat (hskip o) f Hf)
    as (l0 & f0 & E0 & Hf0).
  erewrite mbind_return; [|exact E0].
  destruct (skip_part_open (0 <? skip o)%nat (skip o - hskip o) f0 Hf0)
    as (head & fh & Eh & Hfh).
  erewrite mbind_return; [|exact Eh].
  destruct (first_line_from_outcome o (pending fh) fh)
    as (r & f1 & Er & Hc & [(s & ->)|[-> Hb]]).
  2:{ eexists _, _. split; [erewrite mbind_diverge; [reflexivity|exact Er]|].
      right. right. now left. }
  erewrite mbind_return; [|exact Er].
  destruct (sniff_outcome (separator o) s) as [(sep & res & Es & Hsep)|Es].
  2:{ eexists _, _. split.
      - erewrite mbind_raise; [reflexivity|]. unfold lift. now rewrite Es.
      - right. right. right. now left. }
  erewrite mbind_return; [|unfold lift; rewrite Es; reflexivity].
  cbn [fst snd].
  destruct (@indices_outcome o head sep (length res) f1 Hsep) as [(iinc & Ei)|(e & Ei)].
  2:{ eexists _, _. split; [erewrite mbind_raise; [reflexivity|exact Ei]|].
      right. left. eexists. split; reflexivity. }
  erewrite mbind_return; [|exact Ei].
  destruct iinc as [|i iinc].
  - eexists _, _. split; [reflexivity|]. right. right. right. now right.
  - eexists _, _. split; [reflexivity|]. left. eexists.
    split; [reflexivity|]. split; [congruence|exact Hsep].
Qed.

(** Every path of [sread] closes the file it opened, except three: the
    endless search for a first data line, the empty separator refused by
    [split], and the empty selection of columns refused by [max]. *)
Lemma sread_handle :
  forall o lines r f',
    sread_body o (mkFile lines false) = (r, f') ->
    closed f' = true \/
    r = Diverge \/
    r = Raise (ValueError "empty separator") \/
    r = Raise (ValueError "max() arg is an empty sequence").
Proof.
  intros o lines r f' H. unfold sread_body in H.
  destruct (setup_outcome o (mkFile lines false) eq_refl)
    as (r1 & f1 & E1 & [(st & -> & Hf1 & Hsep)|[(e & -> & Hc)|[->|[->| ->]]]]).
  - erewrite mbind_return in H; [|exact E1].
    destruct (header o).
    + left. unfold sread_header in H.
      assert (Hvar : forall (m : M pyval),
                 (exists v, m f1 = (Return v, f1)) \/
                 (exists msg, m f1 = (Raise (ValueError msg), mkFile (pending f1) true)) ->
                 mbind m (fun var => mbind close (fun _ => lift (finish o var))) f1
                   = (r, f') -> closed f' = true).
      { intros m [(v & Ev)|(msg & Ev)] Hm.
        - erewrite mbind_return in Hm; [|exact Ev].
          unfold mbind, close, lift in Hm. inversion Hm. reflexivity.
        - erewrite mbind_raise in Hm; [|exact Ev]. inversion Hm. reflexivity. }
      apply (fun Hm => Hvar _ Hm H).
      destruct (0 <? skip o - hskip o)%nat; [|left; eexists; reflexivity].
      destruct (full_header o); [left; eexists; reflexivity|].
      destruct (@header_rows_outcome o (st_sep st) (st_iinc st) (st_miinc st)
                  (st_head st) [] f1 Hsep) as [(rows & Er)|(msg & Er)].
      * left. erewrite mbind_return; [|exact Er].
        destruct (skip o - hskip o =? 1)%nat; eexists; reflexivity.
      * right. exists msg. now apply mbind_raise.
    + left. unfold sread_values in H.
      destruct (_ && _).
      * unfold mbind, close, raise in H. inversion H. reflexivity.
      * unfold values_loop in H.
        destruct (@values_from_outcome o (st_sep st) (st_iinc st) (st_miinc st)
                    (pending f1)
                    (line2var (st_res st) [] (st_iinc st) (strip o)) f1 Hsep)
          as [(more & f2 & E & Hc & _)|(_ & msg & f2 & E & Hc)].
        -- unfold mbind at 1 in H. rewrite E in H.
           unfold mbind, close, lift in H. inversion H. reflexivity.
        -- unfold mbind at 1 in H. rewrite E in H. inversion H; subst. exact Hc.
  - left. erewrite mbind_raise in H; [|exact E1]. inversion H; subst. exact Hc.
  - right. left. erewrite mbind_diverge in H; [|exact E1]. now inversion H.
  - right. right. left. erewrite mbind_raise in H; [|exact E1]. now inversion H.
  - right. right. right. erewrite mbind_raise in H; [|exact E1]. now inversion H.
Qed.

(** *** Shaping rows of equal length *)

Lemma mapM_map :
  forall (A B C : Type) (f : A -> B) (g : B -> outcome C) (h : A -> C) (l : list A),
    (forall x, In x l -> g (f x) = Return (h x)) ->
    mapM g (map f l) = Return (map h l).
Proof.
  intros A B C f g h l. induction l as [|x l IH]; intros H; cbn [map mapM].
  - reflexivity.
  - rewrite (H x (or_introl eq_refl)). cbn [bind].
    rewrite IH by (intros y Hy; apply H; now right). reflexivity.
Qed.

Lemma mapM_as_str :
  forall r : list string, mapM as_str (map PStr r) = Return r.
Proof.
  intros r. rewrite (mapM_map PStr as_str (fun x => x)) by reflexivity.
  now rewrite map_id.
Qed.

Lemma fill_rows_rows :
  forall fv rows,
    fill_rows fv (rows_val rows) = Return (rows_val (map (map (fill_str fv)) rows)).
Proof.
  intros fv rows. unfold fill_rows, rows_val. cbn [py_iter bind].
  rewrite (mapM_map row_val _ (fun r => row_val (map (fill_str fv) r))).
  - cbn [bind]. now rewrite map_map.
  - intros r _. unfold row_val. cbn [py_iter bind]. f_equal. f_equal.
    rewrite !map_map. apply map_ext. intros [|c x]; reflexivity.
Qed.

Lemma np_array_rows :
  forall rows, rows <> [] -> np_array (rows_val rows) = Return (Arr2 rows).
Proof.
  intros [|r rows] Hne; [congruence|].
  unfold rows_val. cbn [map]. unfold row_val at 1. cbn [np_array].
  change (PList (map PStr r) :: map row_val rows) with (map row_val (r :: rows)).
  rewrite (mapM_map row_val _ (fun x => x)).
  - cbn [bind]. now rewrite map_id.
  - intros x _. unfold row_val. cbn [py_iter bind]. apply mapM_as_str.
Qed.









(** Without reshaping, the rows come back as collected, empty cells
    replaced under [fill]. *)
Lemma finish_plain :
  forall o rows,
    strarr o = false -> squeeze o = false -> reform o = false ->
    transpose o = false ->
    finish o (rows_val rows) =
      Return (rows_val (if fill o then map (map (fill_str (fill_value o))) rows
                        else rows)).
Proof.
  intros o rows Ha Hs Hr Ht. unfold finish. rewrite Ha, Hs, Hr, Ht.
  destruct (fill o); [rewrite fill_rows_rows|]; reflexivity.
Qed.


(** *** Short lines *)





Example sread_short_line_raises :
  sread (one_file "short.dat" (text short_dat)) "short.dat" (with_skip 1 defaults)
    = (Raise (ValueError "Line has not enough columns to index: 4"),
       Some (mkFile [] true)).
Proof. reflexivity. Qed.

Example sread_short_line_filled :
  sread (one_file "short.dat" (text short_dat)) "short.dat"
        (with_fill "-1" (with_skip 1 defaults))
    = (Return (rows_val [["1"; "2"; "3"]; ["4"; "-1"; "-1"]]),
       Some (mkFile [] true)).
Proof. reflexivity. Qed.

Example sread_short_line_filled_transposed :
  sread (one_file "short.dat" (text short_dat)) "short.dat"
        (with_transpose true (with_fill "-1" (with_skip 1 defaults)))
    = (Return (rows_val [["1"; "4"]; ["2"; "-1"]; ["3"; "-1"]]),
       Some (mkFile [] true)).
Proof. reflexivity. Qed.


(** *** Writing a table and reading it back *)

Lemma filter_all :
  forall (A : Type) (p : A -> bool) (l : list A),
    (forall x, In x l -> p x = true) -> filter p l = l.
Proof.
  intros A p l. induction l as [|x l IH]; intros H; cbn [filter]; [reflexivity|].
  rewrite (H x (or_introl eq_refl)). f_equal. apply IH. intros y Hy. apply H. now right.
Qed.

Lemma filter_none :
  forall (A : Type) (p : A -> bool) (l : list A),
    (forall x, In x l -> p x = false) -> filter p l = [].
Proof.
  intros A p l. induction l as [|x l IH]; intros H; cbn [filter]; [reflexivity|].
  rewrite (H x (or_introl eq_refl)). apply IH. intros y Hy. apply H. now right.
Qed.

Lemma map_nth_seq :
  forall (A B : Type) (g : A -> B) (d : A) (l : list A),
    map (fun i => g (nth i l d)) (seq 0 (length l)) = map g l.
Proof.
  intros A B g d l. induction l as [|x l IH]; [reflexivity|].
  cbn [length seq map nth]. f_equal.
  rewrite <- seq_shift, map_map. exact IH.
Qed.

(** A line with exactly the selected columns gives its cells, stripped. *)
Lemma line_row_full :
  forall res stp,
    line_row res (seq 0 (length res)) stp = map (stripped stp) res.
Proof.
  intros res stp. unfold line_row.
  rewrite filter_all, filter_none.
  - cbn [length repeat]. rewrite app_nil_r. apply map_nth_seq.
  - intros i Hi. apply in_seq in Hi. apply Nat.leb_gt. lia.
  - intros i Hi. apply in_seq in Hi. apply Nat.ltb_lt. lia.
Qed.

Lemma fold_max_seq :
  forall k a b, (b < a + k)%nat -> (fold_left Nat.max (seq a k) b < a + k)%nat.
Proof.
  induction k as [|k IH]; intros a b Hb; cbn [seq fold_left]; [exact Hb|].
  replace (a + S k)%nat with (S a + k)%nat by lia. apply IH. lia.
Qed.

Lemma max_index_seq :
  forall n, (1 <= n)%nat -> exists m, max_index (seq 0 n) = Return m /\ (m < n)%nat.
Proof.
  intros [|n] Hn; [lia|]. cbn [seq max_index]. eexists. split; [reflexivity|].
  apply (@fold_max_seq n 1 0). lia.
Qed.

(** What makes a well-formed row readable: its line strips to the joined
    cells, which are not blank and split into the row. *)
Lemma written_row :
  forall c n row,
    well_formed_row c n row ->
    let s := str_join (String c EmptyString) row in
    str_rstrip (line s) = s /\ s <> EmptyString /\
    str_split (Some (String c EmptyString)) s = Return row /\
    (1 <= n)%nat.
Proof.
  intros c n row (Hlen & Hcells & Hlast & Hvis) s.
  assert (Hne : row <> []) by (intros ->; now apply Hlast).
  destruct (join_last (String c EmptyString) Hne) as (pre & Hpre).
  assert (Hs : str_rstrip s = s).
  { unfold s. rewrite Hpre. now apply rstrip_app_visible. }
  repeat split.
  - unfold line. now apply rstrip_line.
  - unfold s. rewrite Hpre. intros E.
    destruct pre; [simpl in E; contradiction|discriminate].
  - apply split_join; [exact Hne|].
    eapply Forall_impl; [|exact Hcells]. now intros cell [H _].
  - destruct row; [congruence|simpl in Hlen; lia].
Qed.

Lemma nonempty_length :
  forall s : string, s <> EmptyString -> (String.length s =? 0)%nat = false.
Proof. intros [|ch s] H; [congruence|reflexivity]. Qed.

(** The loop reads the lines of parsed rows into their rows. *)
Lemma values_from_table :
  forall o sep c n m rows var f,
    comment o = None -> strip o = None ->
    (m < n)%nat ->
    Forall (parsed sep c n) rows ->
    values_from o sep (seq 0 n) m (write_table c rows) var f
      = (Return (var ++ map (map unquote) rows), mkFile [] (closed f)).
Proof.
  intros o sep c n m rows var f Hcm Hstrip Hm Hall. revert var f.
  induction Hall as [|row rows Hrow Hrows IH]; intros var f.
  - cbn [write_table map values_from]. now rewrite app_nil_r.
  - destruct Hrow as (Hlen & Hline & Hne & Hsplit).
    change (write_table c (row :: rows))
      with (line (str_join (String c EmptyString) row) :: write_table c rows).
    rewrite values_from_cons. cbv zeta. rewrite Hline.
    rewrite (nonempty_length Hne), Hcm. cbn [is_comment]. rewrite Hsplit.
    assert (Hfull : (length row <=? m)%nat = false) by (apply Nat.leb_gt; lia).
    rewrite Hfull. cbn [andb]. rewrite IH. cbn [closed map].
    rewrite <- app_assoc. cbn [app]. rewrite Hstrip, <- Hlen, line_row_full.
    reflexivity.
Qed.

(** *** The text of a written table splits into its lines *)

Lemma no_linebreak_app :
  forall s t : string,
    no_linebreak (s ++ t) = no_linebreak s && no_linebreak t.
Proof.
  unfold no_linebreak. induction s as [|ch s IH]; intros t; cbn [append str_forallb].
  - reflexivity.
  - now rewrite IH, andb_assoc.
Qed.

Lemma no_linebreak_join :
  forall c row,
    is_linebreak c = false ->
    Forall (fun cell => no_linebreak cell = true) row ->
    no_linebreak (str_join (String c EmptyString) row) = true.
Proof.
  intros c row Hc Hall. induction Hall as [|cell row Hcell Hrow IH]; [reflexivity|].
  destruct row as [|cell' row]; [exact Hcell|].
  change (str_join (String c EmptyString) (cell :: cell' :: row))
    with (cell ++ String c EmptyString
               ++ str_join (String c EmptyString) (cell' :: row))%string.
  rewrite !no_linebreak_app, Hcell, IH. unfold no_linebreak. cbn [str_forallb].
  now rewrite Hc.
Qed.

Lemma splitlines_aux_plain :
  forall s cur rest,
    no_linebreak s = true ->
    splitlines_aux cur (s ++ rest) = splitlines_aux (cur ++ s) rest.
Proof.
  unfold no_linebreak. induction s as [|ch s IH]; intros cur rest Hs.
  - now rewrite append_nil_r.
  - cbn [str_forallb] in Hs. apply andb_true_iff in Hs. destruct Hs as [Hch Hs].
    apply negb_true_iff in Hch.
    change ((String ch s ++ rest)%string) with (String ch (s ++ rest)).
    cbn [splitlines_aux]. rewrite Hch. rewrite IH by exact Hs.
    now rewrite append_assoc.
Qed.

Lemma splitlines_aux_newline :
  forall cur rest,
    splitlines_aux cur (newline ++ rest) =
      (cur ++ newline)%string :: splitlines_aux EmptyString rest.
Proof. reflexivity. Qed.

Lemma splitlines_written :
  forall c n rows,
    is_linebreak c = false ->
    Forall (well_formed_row c n) rows ->
    str_splitlines (text (write_table c rows)) = write_table c rows.
Proof.
  intros c n rows Hc Hall. unfold str_splitlines.
  induction Hall as [|row rows Hrow Hrows IH]; [reflexivity|].
  change (write_table c (row :: rows))
    with (line (str_join (String c EmptyString) row) :: write_table c rows).
  cbn [text]. unfold line at 1. rewrite append_assoc.
  rewrite splitlines_aux_plain.
  - rewrite splitlines_aux_newline, IH. reflexivity.
  - apply no_linebreak_join; [exact Hc|].
    destruct Hrow as (_ & Hcells & _).
    eapply Forall_impl; [|exact Hcells]. now intros cell [_ H].
Qed.

(** *** Decoding leaves ASCII text as written *)

Lemma decode_ascii_id :
  forall s, ascii_only s = true -> decode_ascii s = s.
Proof.
  unfold ascii_only. induction s as [|ch s IH]; intros H; [reflexivity|].
  cbn [str_forallb] in H. apply andb_true_iff in H. destruct H as [Hch Hs].
  cbn [decode_ascii]. rewrite Hch. f_equal. now apply IH.
Qed.

Lemma decode_ascii_app :
  forall s t, decode_ascii (s ++ t) = (decode_ascii s ++ decode_ascii t)%string.
Proof.
  induction s as [|ch s IH]; intros t; [reflexivity|].
  cbn [append decode_ascii]. rewrite IH. now destruct (is_ascii ch).
Qed.

Lemma ascii_only_app :
  forall s t, ascii_only (s ++ t) = ascii_only s && ascii_only t.
Proof.
  unfold ascii_only. induction s as [|ch s IH]; intros t; cbn [append str_forallb].
  - reflexivity.
  - now rewrite IH, andb_assoc.
Qed.

Lemma ascii_only_join :
  forall c row,
    is_ascii c = true ->
    Forall (fun cell => ascii_only cell = true) row ->
    ascii_only (str_join (String c EmptyString) row) = true.
Proof.
  intros c row Hc Hall. induction Hall as [|cell row Hcell Hrow IH]; [reflexivity|].
  destruct row as [|cell' row]; [exact Hcell|].
  change (str_join (String c EmptyString) (cell :: cell' :: row))
    with (cell ++ String c EmptyString
               ++ str_join (String c EmptyString) (cell' :: row))%string.
  rewrite !ascii_only_app, Hcell, IH. unfold ascii_only. cbn [str_forallb].
  now rewrite Hc.
Qed.

(** A table of ASCII cells written with an ASCII separator is a file that
    the decoding hands out as written. *)
Lemma decode_written :
  forall c table,
    is_ascii c = true -> ascii_table table ->
    decode_ascii (text (write_table c table)) = text (write_table c table).
Proof.
  intros c table Hc Hall. apply decode_ascii_id.
  induction Hall as [|row table Hrow Htable IH]; [reflexivity|].
  change (write_table c (row :: table))
    with (line (str_join (String c EmptyString) row) :: write_table c table).
  cbn [text]. unfold line. rewrite !ascii_only_app, IH.
  now rewrite (@ascii_only_join c row Hc Hrow).
Qed.

(** The separator the reader settles on, the same for every row of the
    table, and the rows it parses with it. *)
Lemma reads_parsed :
  forall c n sp table,
    reads_with c n sp table ->
    Forall (well_formed_row c n) table ->
    exists sep,
      Forall (parsed sep c n) table /\
      Forall (fun row => sniff sp (str_join (String c EmptyString) row)
                         = Return (sep, row)) table.
Proof.
  intros c n sp table Hreads Hall.
  destruct Hreads as [->|[(-> & -> & Hn)|[(-> & -> & Hn & Hcomma)|(-> & Hc & Htok)]]].
  - exists (Some (String c EmptyString)). split.
    + eapply Forall_impl; [|exact Hall]. intros row Hrow.
      destruct (written_row Hrow) as (Hline & Hnb & Hsplit & _).
      destruct Hrow as (Hlen & _). now repeat split.
    + eapply Forall_impl; [|exact Hall]. intros row Hrow.
      destruct (written_row Hrow) as (_ & _ & Hsplit & _).
      unfold sniff. now rewrite Hsplit.
  - exists (Some ","). split.
    + eapply Forall_impl; [|exact Hall]. intros row Hrow.
      destruct (written_row Hrow) as (Hline & Hnb & Hsplit & _).
      destruct Hrow as (Hlen & _). now repeat split.
    + eapply Forall_impl; [|exact Hall]. intros row Hrow.
      destruct (written_row Hrow) as (_ & _ & Hsplit & _).
      cbn [str_split] in Hsplit. injection Hsplit as Hs.
      destruct Hrow as (Hlen & _). unfold sniff. rewrite !Hs.
      assert (E : (length row =? 1)%nat = false) by (apply Nat.eqb_neq; lia).
      now rewrite E.
  - exists (Some ";"). split.
    + eapply Forall_impl; [|exact Hall]. intros row Hrow.
      destruct (written_row Hrow) as (Hline & Hnb & Hsplit & _).
      destruct Hrow as (Hlen & _). now repeat split.
    + rewrite Forall_forall in *. intros row Hin.
      specialize (Hall row Hin). specialize (Hcomma row Hin).
      destruct (written_row Hall) as (_ & _ & Hsplit & _).
      cbn [str_split] in Hsplit. injection Hsplit as Hs.
      destruct Hall as (Hlen & _). unfold sniff.
      assert (Hnone : split_sep "," (str_join ";" row) = [str_join ";" row]).
      { unfold split_sep. apply split_sep_aux_none.
        now apply mem_char_join. }
      rewrite Hnone. cbn [length Nat.eqb]. rewrite !Hs.
      assert (E : (length row =? 1)%nat = false) by (apply Nat.eqb_neq; lia).
      now rewrite E.
  - exists None.
    assert (Hc1 : Ascii.eqb ","%char c = false).
    { apply Ascii.eqb_neq. intros <-. discriminate Hc. }
    assert (Hc2 : Ascii.eqb ";"%char c = false).
    { apply Ascii.eqb_neq. intros <-. discriminate Hc. }
    assert (Hws : forall row, In row table ->
               split_ws (str_join (String c EmptyString) row) = row).
    { intros row Hin. rewrite Forall_forall in Htok. apply split_ws_join; [exact Hc|].
      eapply Forall_impl; [|exact (Htok row Hin)]. intros cell (H1 & H2 & _). now split. }
    split.
    + rewrite Forall_forall in *. intros row Hin.
      destruct (written_row (Hall row Hin)) as (Hline & Hnb & _ & _).
      destruct (Hall row Hin) as (Hlen & _).
      repeat split; try assumption. cbn [str_split]. now rewrite Hws.
    + rewrite Forall_forall in *. intros row Hin. unfold sniff.
      assert (Hnone : forall d, Ascii.eqb d c = false ->
                 Forall (fun cell => mem_char d cell = false) row ->
                 split_sep (String d EmptyString) (str_join (String c EmptyString) row)
                 = [str_join (String c EmptyString) row]).
      { intros d Hd Hcells. unfold split_sep. apply split_sep_aux_none.
        now apply mem_char_join. }
      rewrite (Hnone ","%char Hc1), (Hnone ";"%char Hc2); cbn [length Nat.eqb].
      * now rewrite Hws.
      * eapply Forall_impl; [|exact (Htok row Hin)]. now intros cell (_ & _ & _ & H).
      * eapply Forall_impl; [|exact (Htok row Hin)]. now intros cell (_ & _ & H & _).
Qed.

(** C3, amended.  A table of well-formed rows of ASCII cells, written one
    row per line with a one-character ASCII separator and read with that
    separator given, or with none given where the reader finds it (the
    comma; the semi-colon when no cell holds a comma; whitespace when all
    cells are tokens), comes back as the list of its rows, each cell with
    double quotes stripped from both ends and then single quotes; the file
    is read to its end and closed. *)
Theorem sread_roundtrip :
  forall (c : ascii) (n : nat) (sp : option string) (name : string)
         (table : list (list string)),
    is_linebreak c = false ->
    reads_with c n sp table ->
    table <> [] ->
    Forall (well_formed_row c n) table ->
    is_ascii c = true ->
    ascii_table table ->
    sread (one_file name (text (write_table c table))) name
          (with_separator sp defaults)
      = (Return (rows_val (map (map unquote) table)), Some (mkFile [] true)).
Proof.
  intros c n sp name table Hc Hsp Hne Hall Hac Hat.
  unfold sread, one_file. rewrite String.eqb_refl.
  rewrite (@decode_written c table Hac Hat), (splitlines_written Hc Hall).
  destruct (reads_parsed Hsp Hall) as (sep & Hparsed & Hsniff).
  destruct table as [|row rows]; [congruence|clear Hne].
  inversion Hall as [|? ? Hrow Hrows]; subst.
  inversion Hparsed as [|? ? Prow Prows]; subst.
  inversion Hsniff as [|? ? Srow _]; subst.
  destruct (written_row Hrow) as (_ & _ & _ & Hn).
  destruct Prow as (Hlen & Hline & Hnb & Hsplit).
  destruct (max_index_seq Hn) as (m & Hmax & Hm).
  set (o := with_separator sp defaults).
  set (s := str_join (String c EmptyString) row) in *.
  assert (Hsetup :
            sread_setup o (mkFile (write_table c (row :: rows)) false)
            = (Return (mkSetup [] s sep row (seq 0 n) m),
               mkFile (write_table c rows) false)).
  { unfold sread_setup.
    change (0 <? hskip o)%nat with false. change (0 <? skip o)%nat with false.
    cbv iota. unfold mbind at 1, ret at 1. unfold mbind at 1, ret at 1.
    erewrite mbind_return.
    2:{ unfold first_line. cbn [pending write_table map first_line_from].
        unfold mbind at 1, advance at 1. cbv beta iota. fold s. rewrite Hline.
        rewrite (nonempty_length Hnb). reflexivity. }
    erewrite mbind_return.
    2:{ unfold lift. change (separator o) with sp. rewrite Srow. reflexivity. }
    cbn [fst snd]. rewrite Hlen.
    erewrite mbind_return.
    2:{ unfold indices. change (nc o) with (NcInt 0). change (cname o) with (@None cname_arg).
        change (cskip o) with 0%nat. cbn [nc_nonzero Z.eqb negb andb Z.leb Z.compare].
        rewrite Nat.sub_0_r. reflexivity. }
    erewrite mbind_return; [|unfold lift; rewrite Hmax; reflexivity].
    reflexivity. }
  assert (Hbody :
            sread_body o (mkFile (write_table c (row :: rows)) false)
            = (Return (rows_val (map (map unquote) (row :: rows))), mkFile [] true)).
  { unfold sread_body. erewrite mbind_return; [|exact Hsetup].
    change (header o) with false. cbv iota. unfold sread_values.
    cbn [st_res st_miinc st_sep st_iinc st_s].
    assert (Hfull : (length row <=? m)%nat = false) by (apply Nat.leb_gt; lia).
    rewrite Hfull. cbn [andb].
    erewrite mbind_return.
    2:{ unfold values_loop. cbn [pending].
        apply (@values_from_table o sep c n m rows); try reflexivity; assumption. }
    unfold mbind at 1, close at 1. cbv beta iota. unfold lift.
    rewrite finish_plain by reflexivity. change (fill o) with false. cbv iota.
    rewrite line2var_row. cbn [app closed pending].
    rewrite <- Hlen.
    change (strip o) with (@None string). rewrite line_row_full. reflexivity. }
  rewrite Hbody. reflexivity.
Qed.

(** The third file of the doctests without its extra header line:
    whitespace-delimited, read with no separator given. *)
Example sread_roundtrip_whitespace :
  sread (one_file "test3.dat"
           (text (write_table " " [["head1"; "head2"]; ["1.1"; "1.2"]; ["2.1"; "2.2"]])))
        "test3.dat" defaults
    = (Return (rows_val [["head1"; "head2"]; ["1.1"; "1.2"]; ["2.1"; "2.2"]]),
       Some (mkFile [] true)).
Proof. reflexivity. Qed.

Lemma sread_roundtrip_witness :
  sread (one_file "test2.dat" (text (write_table "," quoted_table))) "test2.dat"
        (with_separator None defaults)
    = (Return (rows_val (map (map unquote) quoted_table)), Some (mkFile [] true)) /\
  sread (one_file "test.dat" (text (write_table " " spaced_table))) "test.dat"
        (with_separator None defaults)
    = (Return (rows_val (map (map unquote) spaced_table)), Some (mkFile [] true)).
Proof.
  split.
  - apply (@sread_roundtrip ","%char 2 None "test2.dat" quoted_table).
    + reflexivity.
    + right. left. repeat split. lia.
    + discriminate.
    + repeat constructor; discriminate.
    + reflexivity.
    + repeat constructor.
  - apply (@sread_roundtrip " "%char 4 None "test.dat" spaced_table).
    + reflexivity.
    + right. right. right. repeat split. repeat constructor; discriminate.
    + discriminate.
    + repeat constructor; discriminate.
    + reflexivity.
    + repeat constructor.
Defined.

Example sread_roundtrip_quoted :
  map (map unquote) quoted_table = [["head1"; "head2"]; ["1.1"; "1.2"]; ["2.1"; "nan"]].
Proof. reflexivity. Qed.

(** C3 as stated fails in three ways.  A cell wrapped in single quotes
    around double quotes keeps its double quotes, because the double
    quotes are stripped before the single ones; a last cell that ends in a
    blank comes back without it; and a cell that holds a character outside
    ASCII, here the two UTF-8 bytes of an accented e, comes back without
    it, because the file is decoded as ASCII and what cannot be decoded is
    dropped. *)
Lemma sread_roundtrip_counterexample :
  sread (one_file "q.dat"
           (text (write_table ","
                    [[(squote ++ dquote ++ "a" ++ dquote ++ squote)%string; "b"]])))
        "q.dat" defaults
    = (Return (rows_val [[(dquote ++ "a" ++ dquote)%string; "b"]]),
       Some (mkFile [] true)) /\
  map (map trim_quotes) [[(squote ++ dquote ++ "a" ++ dquote ++ squote)%string; "b"]]
    = [["a"; "b"]] /\
  rows_val [[(dquote ++ "a" ++ dquote)%string; "b"]] <> rows_val [["a"; "b"]] /\
  sread (one_file "b.dat" (text (write_table "," [["a"; "b "]]))) "b.dat" defaults
    = (Return (rows_val [["a"; "b"]]), Some (mkFile [] true)) /\
  rows_val [["a"; "b"]] <> rows_val [["a"; "b "]] /\
  sread (one_file "u.dat" (text (write_table "," [[("caf" ++ e_acute)%string; "b"]])))
        "u.dat" defaults
    = (Return (rows_val [["caf"; "b"]]), Some (mkFile [] true)) /\
  map (map trim_quotes) [[("caf" ++ e_acute)%string; "b"]]
    = [[("caf" ++ e_acute)%string; "b"]] /\
  rows_val [["caf"; "b"]] <> rows_val [[("caf" ++ e_acute)%string; "b"]].
Proof.
  repeat split; discriminate.
Qed.

End SreadProps.

(** ** argsort.py: ties, keywords, empty and masked arguments *)

Module ArgsortOrder.

Import Argsort.
Import ArgsortProps.
Local Open Scope Z_scope.

(** Inserting an index larger than all those present keeps the stable order. *)
Lemma insert_by_stable :
  forall key i l,
    (forall j, In j l -> (j < i)%nat) ->
    StronglySorted (stable_before key) l ->
    StronglySorted (stable_before key) (insert_by key i l).
Proof.
  intros key i l. induction l as [|j l IH]; simpl; intros Hlt Hs.
  - constructor; constructor.
  - inversion Hs as [|? ? Hs' Hall]; subst.
    destruct (key i <? key j) eqn:Hij.
    + constructor; [exact Hs|].
      constructor.
      * left. lia.
      * rewrite Forall_forall in Hall. apply Forall_forall. intros x Hx. left.
        destruct (Hall x Hx) as [H|[H _]]; lia.
    + constructor.
      * apply IH; [|exact Hs']. intros x Hx. apply Hlt. now right.
      * rewrite Forall_forall in Hall. apply Forall_forall. intros x Hx.
        apply (Permutation_in _ (insert_by_perm key i l)) in Hx.
        destruct Hx as [Hx|Hx]; [subst x|now apply Hall].
        assert (Hji : (j < i)%nat) by (apply Hlt; now left).
        unfold stable_before.
        destruct (Z.eq_dec (key j) (key i)) as [E|E]; [right; now split|left; lia].
Qed.

Lemma py_sorted_stable_acc :
  forall key k n acc,
    (forall j, In j acc -> (j < n)%nat) ->
    StronglySorted (stable_before key) acc ->
    StronglySorted (stable_before key)
      (fold_left (fun a i => insert_by key i a) (seq n k) acc).
Proof.
  intros key k. induction k as [|k IH]; intros n acc Hlt Hs; simpl; [exact Hs|].
  apply IH.
  - intros j Hj. apply (Permutation_in _ (insert_by_perm key n acc)) in Hj.
    destruct Hj as [Hj|Hj]; [lia|]. apply Hlt in Hj. lia.
  - now apply insert_by_stable.
Qed.

(** Values read through a strongly sorted list of indices are sorted. *)
Lemma sorted_map_weaken :
  forall (R : nat -> nat -> Prop) (S : Z -> Z -> Prop) (key : nat -> Z) l,
    (forall a b, R a b -> S (key a) (key b)) ->
    StronglySorted R l -> Sorted S (map key l).
Proof.
  intros R S key l HRS Hs. induction Hs as [|a l Hs IH Hall]; simpl.
  - constructor.
  - constructor; [exact IH|].
    destruct l as [|b l]; simpl; constructor.
    apply HRS. now inversion Hall.
Qed.

Lemma strongly_sorted_weaken :
  forall (A : Type) (R S : A -> A -> Prop) l,
    (forall a b, R a b -> S a b) -> StronglySorted R l -> StronglySorted S l.
Proof.
  intros A R S l HRS Hs. induction Hs as [|a l Hs IH Hall].
  - constructor.
  - constructor; [exact IH|].
    rewrite Forall_forall in Hall. apply Forall_forall. intros x Hx.
    apply HRS. now apply Hall.
Qed.

(** X1.  [argsort] of a plain Python sequence returns every index once,
    ordered by the value it points to, and indices of equal values in their
    original order: the sort is stable. *)
Theorem iargsort_stable :
  forall (np_argsort : list Z -> list nat) (sq : list Z),
    exists ii,
      argsort np_argsort (Iterable sq) no_kwargs = Return ii /\
      Permutation ii (seq 0 (length sq)) /\
      Sorted Z.le (map (getitem sq) ii) /\
      StronglySorted (stable_before (getitem sq)) ii.
Proof.
  intros np sq. exists (py_sorted (getitem sq) (seq 0 (length sq))).
  split; [reflexivity|]. unfold py_sorted. split; [|split].
  - apply (py_sorted_perm_acc (getitem sq) (seq 0 (length sq)) []).
  - apply py_sorted_sorted_acc. constructor.
  - apply py_sorted_stable_acc; [intros j []|constructor].
Qed.

(** X2.  With [reverse=True], [argsort] of a plain Python sequence returns
    every index once, the values in non-increasing order; indices of equal
    values still come in their original order. *)
Theorem iargsort_reverse_stable :
  forall (np_argsort : list Z -> list nat) (sq : list Z),
    exists ii,
      argsort np_argsort (Iterable sq) (with_reverse true) = Return ii /\
      Permutation ii (seq 0 (length sq)) /\
      Sorted Z.ge (map (getitem sq) ii) /\
      StronglySorted
        (fun i j => getitem sq j < getitem sq i \/
                    (getitem sq i = getitem sq j /\ (i < j)%nat)) ii.
Proof.
  intros np sq.
  exists (py_sorted (fun i => - getitem sq i) (seq 0 (length sq))).
  split; [reflexivity|]. unfold py_sorted.
  assert (Hs : StronglySorted (stable_before (fun i => - getitem sq i))
                 (fold_left (fun a i => insert_by (fun i0 => - getitem sq i0) i a)
                            (seq 0 (length sq)) []))
    by (apply py_sorted_stable_acc; [intros j []|constructor]).
  split; [|split].
  - apply (py_sorted_perm_acc (fun i => - getitem sq i) (seq 0 (length sq)) []).
  - apply (sorted_map_weaken (R := stable_before (fun i => - getitem sq i)));
      [|exact Hs].
    intros a b [H|[H _]]; lia.
  - apply (strongly_sorted_weaken (R := stable_before (fun i => - getitem sq i)));
      [|exact Hs].
    intros a b [H|[H Hab]]; [left; lia|right; split; [lia|exact Hab]].
Qed.

(** X3.  For a plain Python sequence [argsort] raises the KeyError exactly
    when [key] is given, whatever the other keywords; with [fill_value] and
    no [key] it raises the TypeError of [sorted]; so a call that returns
    was given neither of the two. *)
Theorem argsort_iterable_keywords :
  forall (np_argsort : list Z -> list nat) (sq : list Z) (kw : kwargs),
    (argsort np_argsort (Iterable sq) kw
       = Raise (KeyError "keyword key cannot be given to argsort.") <->
     kw_key kw = true) /\
    (kw_key kw = false -> kw_fill_value kw <> None ->
     exists msg, argsort np_argsort (Iterable sq) kw = Raise (TypeError msg)) /\
    (forall ii, argsort np_argsort (Iterable sq) kw = Return ii ->
                kw_key kw = false /\ kw_fill_value kw = None).
Proof.
  intros np sq [fv rv k]. cbn [argsort iargsort kw_key kw_fill_value kw_reverse].
  destruct k; [|destruct fv as [v|]].
  - split; [split; reflexivity|]. split.
    + intros H. discriminate.
    + intros ii H. discriminate.
  - split; [split; intros H; discriminate|]. split.
    + intros _ _. eexists. reflexivity.
    + intros ii H. discriminate.
  - split; [split; [destruct rv as [[|]|]|]; intros H; discriminate|]. split.
    + intros _ H. congruence.
    + intros ii _. now split.
Qed.

(** The first-extreme law of [numpy.argmax] and [numpy.argmin] as modelled. *)
Lemma np_argmax_first :
  forall l : list Z,
    l <> [] ->
    exists i,
      np_argmax l = Return i /\ (i < length l)%nat /\
      (forall k, (k < length l)%nat -> getitem l k <= getitem l i) /\
      (forall k, (k < i)%nat -> getitem l k < getitem l i).
Proof.
  intros [|x r] Hne; [congruence|clear Hne].
  destruct (fold_left max_step (enumerate_from 1 r) (0%nat, x)) as [i v] eqn:Hmax.
  exists i.
  pose proof (@max_scan r 1 0 x ltac:(lia) i v Hmax) as (Wi & Gi & Ni & Ai).
  assert (Hi : (i < length (x :: r))%nat /\ getitem (x :: r) i = v).
  { destruct Wi as [E | [Hn He]].
    - inversion E; subst. simpl. split; [lia|reflexivity].
    - assert (i - 1 < length r)%nat by (apply nth_error_Some; congruence).
      split; [simpl; lia|].
      apply getitem_nth_error. replace i with (S (i - 1)) by lia. exact He. }
  destruct Hi as [Hi Hiv].
  split.
  { unfold np_argmax, enumerate. simpl.
    change (fold_left _ (enumerate_from 1 r) (0%nat, x))
      with (fold_left max_step (enumerate_from 1 r) (0%nat, x)).
    now rewrite Hmax. }
  split; [exact Hi|]. rewrite Hiv. split.
  - intros [|k] Hk; [exact Gi|].
    simpl in Hk. assert (Hk' : (k < length r)%nat) by lia.
    apply nth_error_getitem in Hk'. apply Ai in Hk'. apply Hk'.
  - intros [|k] Hk; [apply Ni; lia|].
    assert (Hk' : (k < length r)%nat) by (simpl in Hi; lia).
    apply nth_error_getitem in Hk'. apply Ai in Hk'. apply Hk'. lia.
Qed.

Lemma np_argmin_first :
  forall l : list Z,
    l <> [] ->
    exists j,
      np_argmin l = Return j /\ (j < length l)%nat /\
      (forall k, (k < length l)%nat -> getitem l j <= getitem l k) /\
      (forall k, (k < j)%nat -> getitem l j < getitem l k).
Proof.
  intros [|x r] Hne; [congruence|clear Hne].
  destruct (fold_left min_step (enumerate_from 1 r) (0%nat, x)) as [j u] eqn:Hmin.
  exists j.
  pose proof (@min_scan r 1 0 x ltac:(lia) j u Hmin) as (Wj & Gj & Nj & Aj).
  assert (Hj : (j < length (x :: r))%nat /\ getitem (x :: r) j = u).
  { destruct Wj as [E | [Hn He]].
    - inversion E; subst. simpl. split; [lia|reflexivity].
    - assert (j - 1 < length r)%nat by (apply nth_error_Some; congruence).
      split; [simpl; lia|].
      apply getitem_nth_error. replace j with (S (j - 1)) by lia. exact He. }
  destruct Hj as [Hj Hju].
  split.
  { unfold np_argmin, enumerate. simpl.
    change (fold_left _ (enumerate_from 1 r) (0%nat, x))
      with (fold_left min_step (enumerate_from 1 r) (0%nat, x)).
    now rewrite Hmin. }
  split; [exact Hj|]. rewrite Hju. split.
  - intros [|k] Hk; [exact Gj|].
    simpl in Hk. assert (Hk' : (k < length r)%nat) by lia.
    apply nth_error_getitem in Hk'. apply Aj in Hk'. apply Hk'.
  - intros [|k] Hk; [apply Nj; lia|].
    assert (Hk' : (k < length r)%nat) by (simpl in Hj; lia).
    apply nth_error_getitem in Hk'. apply Aj in Hk'. apply Hk'. lia.
Qed.

(** X4.  On a non-empty numpy array [argmax] returns the first index of
    the greatest value and [argmin] the first index of the smallest; the
    same indices are returned for the Python sequence of its elements,
    whatever keywords come with the sequence. *)
Theorem argmax_argmin_array_first_extreme :
  forall (l : list Z) (kw : kwargs),
    l <> [] ->
    exists i j,
      argmax (NdArray l) no_kwargs = Return i /\
      argmin (NdArray l) no_kwargs = Return j /\
      argmax (Iterable l) kw = Return i /\
      argmin (Iterable l) kw = Return j /\
      (i < length l)%nat /\ (j < length l)%nat /\
      (forall k, (k < length l)%nat -> getitem l k <= getitem l i) /\
      (forall k, (k < i)%nat -> getitem l k < getitem l i) /\
      (forall k, (k < length l)%nat -> getitem l j <= getitem l k) /\
      (forall k, (k < j)%nat -> getitem l j < getitem l k).
Proof.
  intros l kw Hne.
  destruct (np_argmax_first Hne) as (i & Hi & Hil & Himax & Hifirst).
  destruct (np_argmin_first Hne) as (j & Hj & Hjl & Hjmin & Hjfirst).
  assert (Hsame : argmax (Iterable l) kw = np_argmax l /\
                  argmin (Iterable l) kw = np_argmin l)
    by (destruct l; [congruence|split; reflexivity]).
  destruct Hsame as [Hmax Hmin].
  exists i, j.
  split; [exact Hi|]. split; [exact Hj|].
  split; [now rewrite Hmax|]. split; [now rewrite Hmin|].
  repeat split; assumption.
Qed.

Lemma argmax_argmin_array_first_extreme_witness :
  exists i j,
    argmax (NdArray [0; 4; 6; 2; 6; 0]) no_kwargs = Return i /\
    argmin (NdArray [0; 4; 6; 2; 6; 0]) no_kwargs = Return j /\
    argmax (Iterable [0; 4; 6; 2; 6; 0]) (with_reverse true) = Return i /\
    argmin (Iterable [0; 4; 6; 2; 6; 0]) (with_reverse true) = Return j /\
    (i < length [0; 4; 6; 2; 6; 0])%nat /\ (j < length [0; 4; 6; 2; 6; 0])%nat /\
    (forall k, (k < length [0; 4; 6; 2; 6; 0])%nat ->
               getitem [0; 4; 6; 2; 6; 0] k <= getitem [0; 4; 6; 2; 6; 0] i) /\
    (forall k, (k < i)%nat ->
               getitem [0; 4; 6; 2; 6; 0] k < getitem [0; 4; 6; 2; 6; 0] i) /\
    (forall k, (k < length [0; 4; 6; 2; 6; 0])%nat ->
               getitem [0; 4; 6; 2; 6; 0] j <= getitem [0; 4; 6; 2; 6; 0] k) /\
    (forall k, (k < j)%nat ->
               getitem [0; 4; 6; 2; 6; 0] j < getitem [0; 4; 6; 2; 6; 0] k).
Proof.
  apply (@argmax_argmin_array_first_extreme [0; 4; 6; 2; 6; 0] (with_reverse true)).
  discriminate.
Defined.

(** X5.  Without keywords [argmax] and [argmin] raise ValueError on an
    empty argument of any of the three kinds and otherwise return an index
    of the argument. *)
Theorem argmax_argmin_empty_or_index :
  forall a : pyarg,
    (arg_length a = 0%nat /\
     exists m1 m2,
       argmax a no_kwargs = Raise (ValueError m1) /\
       argmin a no_kwargs = Raise (ValueError m2)) \/
    (arg_length a <> 0%nat /\
     exists i j,
       argmax a no_kwargs = Return i /\ argmin a no_kwargs = Return j /\
       (i < arg_length a)%nat /\ (j < arg_length a)%nat).
Proof.
  assert (Hnp : forall l : list Z, l <> [] ->
            exists i j, np_argmax l = Return i /\ np_argmin l = Return j /\
                        (i < length l)%nat /\ (j < length l)%nat).
  { intros l Hl. destruct (np_argmax_first Hl) as (i & Hi & Hil & _).
    destruct (np_argmin_first Hl) as (j & Hj & Hjl & _). now exists i, j. }
  intros [data mask|data|sq]; cbn [arg_length].
  - cbn [argmax argmin sorted_only no_kwargs kw_key kw_reverse kw_fill_value orb].
    unfold np_ma_argmax, np_ma_argmin. rewrite !ma_filled_default. cbn [bind].
    destruct data as [|x data].
    + left. split; [reflexivity|]. eexists. eexists. split; reflexivity.
    + right. split; [discriminate|].
      assert (H1 : filled (x :: data) mask int64_min <> [])
        by (destruct mask; discriminate).
      assert (H2 : filled (x :: data) mask int64_max <> [])
        by (destruct mask; discriminate).
      destruct (np_argmax_first H1) as (i & Hi & Hil & _).
      destruct (np_argmin_first H2) as (j & Hj & Hjl & _).
      rewrite filled_length in Hil, Hjl. now exists i, j.
  - destruct data as [|x data].
    + left. split; [reflexivity|]. eexists. eexists. split; reflexivity.
    + right. split; [discriminate|]. apply Hnp. discriminate.
  - destruct sq as [|x sq].
    + left. split; [reflexivity|]. eexists. eexists. split; reflexivity.
    + right. split; [discriminate|].
      destruct (Hnp (x :: sq) ltac:(discriminate)) as (i & j & Hi & Hj & Hl).
      exists i, j. split; [exact Hi|]. split; [exact Hj|]. exact Hl.
Qed.

(** X6.  With the default fill values, [argmax] and [argmin] of a masked
    array that has an unmasked entry, all unmasked values lying strictly
    inside the int64 range, return unmasked positions: the first one
    holding the greatest unmasked value and the first one holding the
    smallest. *)
Theorem argmax_argmin_masked_default :
  forall (data : list Z) (mask : list bool),
    (forall k, (k < length data)%nat -> masked_at mask k = false ->
               int64_min < getitem data k < int64_max) ->
    (exists k, (k < length data)%nat /\ masked_at mask k = false) ->
    exists i j,
      argmax (MaskedArray data mask) no_kwargs = Return i /\
      argmin (MaskedArray data mask) no_kwargs = Return j /\
      (i < length data)%nat /\ (j < length data)%nat /\
      masked_at mask i = false /\ masked_at mask j = false /\
      (forall k, (k < length data)%nat -> masked_at mask k = false ->
                 getitem data k <= getitem data i) /\
      (forall k, (k < i)%nat -> masked_at mask k = false ->
                 getitem data k < getitem data i) /\
      (forall k, (k < length data)%nat -> masked_at mask k = false ->
                 getitem data j <= getitem data k) /\
      (forall k, (k < j)%nat -> masked_at mask k = false ->
                 getitem data j < getitem data k).
Proof.
  intros data mask Hrange (k0 & Hk0 & Hm0).
  assert (Hne : forall v, filled data mask v <> []).
  { intros v E. apply (f_equal (@length Z)) in E.
    rewrite filled_length in E. simpl in E. lia. }
  destruct (np_argmax_first (Hne int64_min)) as (i & Hi & Hil & Himax & Hifirst).
  destruct (np_argmin_first (Hne int64_max)) as (j & Hj & Hjl & Hjmin & Hjfirst).
  rewrite filled_length in Hil, Hjl, Himax, Hjmin.
  assert (Hfill : forall v k, (k < length data)%nat -> masked_at mask k = false ->
                    getitem (filled data mask v) k = getitem data k).
  { intros v k Hk Hm. rewrite filled_getitem by exact Hk.
    unfold masked_at in Hm. now rewrite Hm. }
  assert (Hmi : masked_at mask i = false).
  { destruct (masked_at mask i) eqn:E; [|reflexivity].
    pose proof (Himax k0 Hk0) as H.
    rewrite (Hfill _ _ Hk0 Hm0), (filled_getitem data mask int64_min Hil) in H.
    unfold masked_at in E. rewrite E in H.
    pose proof (Hrange k0 Hk0 Hm0). lia. }
  assert (Hmj : masked_at mask j = false).
  { destruct (masked_at mask j) eqn:E; [|reflexivity].
    pose proof (Hjmin k0 Hk0) as H.
    rewrite (Hfill _ _ Hk0 Hm0), (filled_getitem data mask int64_max Hjl) in H.
    unfold masked_at in E. rewrite E in H.
    pose proof (Hrange k0 Hk0 Hm0). lia. }
  exists i, j.
  cbn [argmax argmin sorted_only no_kwargs kw_key kw_reverse kw_fill_value orb].
  unfold np_ma_argmax, np_ma_argmin. rewrite !ma_filled_default. cbn [bind].
  split; [exact Hi|]. split; [exact Hj|].
  split; [exact Hil|]. split; [exact Hjl|].
  split; [exact Hmi|]. split; [exact Hmj|].
  repeat split.
  - intros k Hk Hm. rewrite <- (Hfill int64_min k Hk Hm), <- (Hfill int64_min i Hil Hmi).
    now apply Himax.
  - intros k Hk Hm.
    assert (Hkl : (k < length data)%nat) by lia.
    rewrite <- (Hfill int64_min k Hkl Hm), <- (Hfill int64_min i Hil Hmi).
    now apply Hifirst.
  - intros k Hk Hm. rewrite <- (Hfill int64_max k Hk Hm), <- (Hfill int64_max j Hjl Hmj).
    now apply Hjmin.
  - intros k Hk Hm.
    assert (Hkl : (k < length data)%nat) by lia.
    rewrite <- (Hfill int64_max k Hkl Hm), <- (Hfill int64_max j Hjl Hmj).
    now apply Hjfirst.
Qed.

Lemma argmax_argmin_masked_default_witness :
  exists i j,
    argmax (MaskedArray [0; 4; 6; 2; 1; 6] [false; false; true; false]) no_kwargs
      = Return i /\
    argmin (MaskedArray [0; 4; 6; 2; 1; 6] [false; false; true; false]) no_kwargs
      = Return j /\
    (i < length [0; 4; 6; 2; 1; 6])%nat /\ (j < length [0; 4; 6; 2; 1; 6])%nat /\
    masked_at [false; false; true; false] i = false /\
    masked_at [false; false; true; false] j = false /\
    (forall k, (k < length [0; 4; 6; 2; 1; 6])%nat ->
               masked_at [false; false; true; false] k = false ->
               getitem [0; 4; 6; 2; 1; 6] k <= getitem [0; 4; 6; 2; 1; 6] i) /\
    (forall k, (k < i)%nat -> masked_at [false; false; true; false] k = false ->
               getitem [0; 4; 6; 2; 1; 6] k < getitem [0; 4; 6; 2; 1; 6] i) /\
    (forall k, (k < length [0; 4; 6; 2; 1; 6])%nat ->
               masked_at [false; false; true; false] k = false ->
               getitem [0; 4; 6; 2; 1; 6] j <= getitem [0; 4; 6; 2; 1; 6] k) /\
    (forall k, (k < j)%nat -> masked_at [false; false; true; false] k = false ->
               getitem [0; 4; 6; 2; 1; 6] j < getitem [0; 4; 6; 2; 1; 6] k).
Proof.
  apply (@argmax_argmin_masked_default [0; 4; 6; 2; 1; 6] [false; false; true; false]).
  - intros k Hk _. simpl in Hk.
    do 6 (destruct k as [|k]; [vm_compute; split; reflexivity|]). lia.
  - exists 0%nat. split; [simpl; lia|reflexivity].
Defined.

(** Where a sorted list of values turns to the fill value, it stays there. *)
Lemma masked_last_split :
  forall (data : list Z) (mask : list bool) (ii : list nat),
    (forall k, In k ii -> (k < length data)%nat) ->
    (forall k, (k < length data)%nat -> masked_at mask k = false ->
               getitem data k < int64_max) ->
    StronglySorted Z.le (map (getitem (filled data mask int64_max)) ii) ->
    exists front back,
      ii = front ++ back /\
      Forall (fun k => masked_at mask k = false) front /\
      Forall (fun k => masked_at mask k = true) back /\
      Sorted Z.le (map (getitem data) front).
Proof.
  intros data mask ii. induction ii as [|k ii IH]; intros Hin Hrange Hs.
  - exists [], []. repeat split; constructor.
  - simpl in Hs. inversion Hs as [|? ? Hs' Hall]; subst.
    assert (Hk : (k < length data)%nat) by (apply Hin; now left).
    destruct (masked_at mask k) eqn:Hm.
    + exists [], (k :: ii). repeat split; try constructor; [exact Hm|].
      apply Forall_forall. intros x Hx.
      assert (Hxl : (x < length data)%nat) by (apply Hin; now right).
      rewrite Forall_forall in Hall.
      pose proof (Hall _ (in_map (getitem (filled data mask int64_max)) _ _ Hx)) as H.
      rewrite !filled_getitem in H by assumption.
      unfold masked_at in Hm. rewrite Hm in H.
      destruct (masked_at mask x) eqn:Hmx; [reflexivity|].
      pose proof (Hrange x Hxl Hmx) as Hr.
      unfold masked_at in Hmx. rewrite Hmx in H. lia.
    + destruct (IH (fun x Hx => Hin x (or_intror Hx)) Hrange Hs')
        as (front & back & E & Hf & Hb & Hsf).
      exists (k :: front), back. subst ii.
      split; [reflexivity|]. split; [now constructor|]. split; [exact Hb|].
      simpl. constructor; [exact Hsf|].
      destruct front as [|x front]; simpl; constructor.
      rewrite Forall_forall in Hall.
      assert (Hx : In x ((x :: front) ++ back)) by now left.
      assert (Hxl : (x < length data)%nat) by (apply Hin; now right).
      pose proof (Hall _ (in_map (getitem (filled data mask int64_max)) _ _ Hx)) as H.
      rewrite !filled_getitem in H by assumption.
      unfold masked_at in Hm. rewrite Hm in H.
      assert (Hmx : masked_at mask x = false) by now inversion Hf.
      unfold masked_at in Hmx. now rewrite Hmx in H.
Qed.

(** X7.  Without [fill_value], [argsort] of a masked array whose unmasked
    values lie below the largest int64 lists every index once: first the
    unmasked positions, their values in non-decreasing order, then all the
    masked ones. *)
Theorem argsort_masked_default_last :
  forall (np_argsort : list Z -> list nat),
    sorts np_argsort ->
    forall (data : list Z) (mask : list bool),
      (forall k, (k < length data)%nat -> masked_at mask k = false ->
                 getitem data k < int64_max) ->
      exists front back,
        argsort np_argsort (MaskedArray data mask) no_kwargs
          = Return (front ++ back) /\
        Permutation (front ++ back) (seq 0 (length data)) /\
        Forall (fun k => masked_at mask k = false) front /\
        Forall (fun k => masked_at mask k = true) back /\
        Sorted Z.le (map (getitem data) front).
Proof.
  intros np Hsorts data mask Hrange.
  destruct (Hsorts (filled data mask int64_max)) as [Hperm Hsorted].
  rewrite filled_length in Hperm.
  apply Sorted_StronglySorted in Hsorted; [|intros x y z; apply Z.le_trans].
  destruct (@masked_last_split data mask (np (filled data mask int64_max)))
    as (front & back & E & Hf & Hb & Hsf).
  - intros k Hk. apply (Permutation_in _ Hperm) in Hk. apply in_seq in Hk. lia.
  - exact Hrange.
  - exact Hsorted.
  - exists front, back.
    cbn [argsort sorted_only no_kwargs kw_key kw_reverse kw_fill_value orb].
    unfold np_ma_argsort. rewrite ma_filled_default. cbn [bind]. rewrite <- E.
    now repeat split.
Qed.

Lemma argsort_masked_default_last_witness :
  exists front back,
    argsort stable_argsort
      (MaskedArray [0; 4; 6; 2; 1; 5; 3; 5]
                   [false; false; true; true; false; false; false; false]) no_kwargs
      = Return (front ++ back) /\
    Permutation (front ++ back) (seq 0 (length [0; 4; 6; 2; 1; 5; 3; 5])) /\
    Forall (fun k => masked_at [false; false; true; true; false; false; false; false] k
                     = false) front /\
    Forall (fun k => masked_at [false; false; true; true; false; false; false; false] k
                     = true) back /\
    Sorted Z.le (map (getitem [0; 4; 6; 2; 1; 5; 3; 5]) front).
Proof.
  apply (@argsort_masked_default_last stable_argsort stable_argsort_sorts
           [0; 4; 6; 2; 1; 5; 3; 5]
           [false; false; true; true; false; false; false; false]).
  intros k Hk _. simpl in Hk.
  do 8 (destruct k as [|k]; [vm_compute; reflexivity|]). lia.
Defined.

End ArgsortOrder.

(** ** division.py: masked operands, raising calls and the sign of [prec] *)

Module DivisionMasked.

Import Division.
Import DivisionProps.

Lemma size_to_masked : forall a : array, size (to_masked a) = asize a.
Proof.
  intros [v|v]; cbn [to_masked asize]; [apply size_nd_map|reflexivity].
Qed.



Lemma broadcast2_mismatch :
  forall (A B C : Type) (f : A -> B -> C) (u : nd A) (v : nd B),
    bsize (size u) (size v) = None ->
    broadcast2 f u v = Raise (ValueError "operands could not be broadcast together").
Proof.
  intros A B C f [a|xs] [b|ys] H; cbn [size bsize] in H; try discriminate.
  unfold broadcast2.
  destruct (length xs =? length ys)%nat; [discriminate|].
  destruct (length xs =? 1)%nat eqn:E1; [discriminate|].
  destruct (length ys =? 1)%nat eqn:E2; [discriminate|].
  destruct xs as [|x [|x' xs]]; destruct ys as [|y [|y' ys]];
    try reflexivity; discriminate.
Qed.





(** With 'over' set to 'raise' too, an overflow at another position is
    reported in place of the invalid quotient. *)
Example division_overflow_before_invalid :
  division (mkErr Warn RaiseErr Ignore RaiseErr)
           (Plain (Vector [Fin (inject_Z (2 ^ 1000)); Fin 0]))
           (Plain (Vector [Fin (1 / inject_Z (2 ^ 1000)); Fin 0]))
           (Scalar (Fin 0)) (Fin 1) =
    (Raise (FloatingPointError "overflow encountered in true_divide"),
     mkErr Ignore RaiseErr Ignore RaiseErr).
Proof. vm_compute. reflexivity. Qed.

(** X10.  Operands whose shapes do not broadcast make [division] raise
    numpy's ValueError, for plain and for masked arrays; the error settings
    are not put back: 'divide' stays switched to 'ignore'. *)
Theorem division_shape_mismatch :
  forall (st : errstate) (a b : array) (x : nd fval) (p : fval),
    bsize (asize a) (asize b) = None ->
    division st a b x p =
      (Raise (ValueError "operands could not be broadcast together"),
       seterr_divide Ignore st).
Proof.
  intros st a b x p H. unfold division.
  destruct (is_masked a || is_masked b) eqn:Hm.
  - rewrite <- !size_to_masked in H. unfold ma_divide.
    now rewrite (broadcast2_mismatch (fun x y => (ma_div_elt x y, ma_flag x y)) _ _ H).
  - destruct a as [u|u]; destruct b as [v|v]; try discriminate.
    cbn [to_plain asize] in *. unfold np_divide.
    now rewrite (broadcast2_mismatch fdiv _ _ H).
Qed.

Lemma division_shape_mismatch_witness :
  division default_err (Plain (Vector [Fin 1; Fin 2; Fin 3]))
           (Masked (Vector [Some (Fin 1); None])) (Scalar NaN) (Fin 0) =
    (Raise (ValueError "operands could not be broadcast together"),
     seterr_divide Ignore default_err).
Proof.
  apply (@division_shape_mismatch default_err (Plain (Vector [Fin 1; Fin 2; Fin 3]))
           (Masked (Vector [Some (Fin 1); None])) (Scalar NaN) (Fin 0)).
  reflexivity.
Defined.

(** X11.  Only the absolute value of [prec] matters: two thresholds of the
    same absolute value give the same outcome and the same settings, for
    plain and masked operands alike. *)
Theorem division_prec_sign :
  forall (st : errstate) (a b : array) (x : nd fval) (p p' : fval),
    fabs p = fabs p' ->
    division st a b x p = division st a b x p'.
Proof.
  intros st a b x p p' H. unfold division, ma_abs_gt. now rewrite H.
Qed.

Lemma division_prec_sign_witness :
  division default_err (Plain (Vector [Fin 1; Fin 1; Fin 1]))
           (Plain (Vector [Fin 2; Fin 1; Fin 0])) (Scalar NaN) (Fin 1)
    = division default_err (Plain (Vector [Fin 1; Fin 1; Fin 1]))
               (Plain (Vector [Fin 2; Fin 1; Fin 0])) (Scalar NaN) (Fin (-1)).
Proof.
  apply (@division_prec_sign default_err (Plain (Vector [Fin 1; Fin 1; Fin 1]))
           (Plain (Vector [Fin 2; Fin 1; Fin 0])) (Scalar NaN) (Fin 1) (Fin (-1))).
  reflexivity.
Defined.

End DivisionMasked.

(** ** readhdf5.py and readhdf4.py: names, handles and what is read back *)

Module HdfReaders.

Import Hdf.
Import HdfProps.
Local Open Scope Z_scope.

Lemma insert_str_perm :
  forall s l, Permutation (insert_str s l) (s :: l).
Proof.
  intros s l. induction l as [|t l IH]; simpl.
  - apply Permutation_refl.
  - destruct (String.ltb s t).
    + apply Permutation_refl.
    + eapply perm_trans; [apply perm_skip, IH|apply perm_swap].
Qed.

Lemma ltb_asym : forall s t, String.ltb s t = true -> String.ltb t s = false.
Proof.
  intros s t. unfold String.ltb. rewrite (String.compare_antisym t s).
  destruct (String.compare s t); simpl; congruence.
Qed.

Lemma insert_str_sorted :
  forall s l, Sorted str_le l -> Sorted str_le (insert_str s l).
Proof.
  intros s l. induction l as [|t l IH]; simpl; intros Hs.
  - repeat constructor.
  - destruct (String.ltb s t) eqn:Hst.
    + constructor; [exact Hs|]. constructor. unfold str_le. now apply ltb_asym.
    + inversion Hs as [|? ? Hs' Hhd]; subst.
      constructor; [now apply IH|].
      destruct l as [|t' l]; simpl.
      * constructor. exact Hst.
      * destruct (String.ltb s t'); constructor; [exact Hst|now inversion Hhd].
Qed.

Lemma sorted_str_perm_acc :
  forall l acc,
    Permutation (fold_left (fun a s => insert_str s a) l acc) (acc ++ l).
Proof.
  induction l as [|s l IH]; intros acc; simpl.
  - rewrite app_nil_r. apply Permutation_refl.
  - eapply perm_trans; [apply IH|].
    eapply perm_trans; [apply Permutation_app_tail, insert_str_perm|].
    simpl. apply Permutation_middle.
Qed.

Lemma sorted_str_sorted_acc :
  forall l acc,
    Sorted str_le acc ->
    Sorted str_le (fold_left (fun a s => insert_str s a) l acc).
Proof.
  induction l as [|s l IH]; intros acc Hs; simpl; [exact Hs|].
  apply IH. now apply insert_str_sorted.
Qed.

Lemma sorted_str_spec :
  forall l, Permutation (sorted_str l) l /\ Sorted str_le (sorted_str l).
Proof.
  intros l. unfold sorted_str. split.
  - apply (sorted_str_perm_acc l []).
  - apply sorted_str_sorted_acc. constructor.
Qed.

(** X12.  With [variables=True] and [sort=True] (and no file attributes
    asked for) both readers close the file and return the names of all its
    datasets, each as often as it occurs, in ascending order; [hdf4read]
    does what [readhdf4] does. *)
Theorem readers_variables_sorted :
  forall (fs : filesystem) (fName : string) (f : container) (o : options),
    fs fName = Some f ->
    fileattributes o = false -> variables o = true -> sort o = true ->
    exists names,
      ReadHDF5.readhdf5 fs fName o = (Return (RNames names), Opened true) /\
      ReadHDF4.readhdf4 true fs fName o = (Return (RNames names), Opened true) /\
      ReadHDF4.hdf4read true fs fName o = (Return (RNames names), Opened true) /\
      Permutation names (map fst (datasets f)) /\
      Sorted str_le names.
Proof.
  intros fs fName f o Hf Hfa Hv Hs.
  exists (sorted_str (map fst (datasets f))).
  unfold ReadHDF4.hdf4read, ReadHDF4.readhdf4, ReadHDF5.readhdf5. cbn [negb].
  rewrite Hf, Hfa, Hv, Hs.
  split; [reflexivity|]. split; [reflexivity|]. split; [reflexivity|].
  apply sorted_str_spec.
Qed.

Lemma readers_variables_sorted_witness :
  exists names,
    ReadHDF5.readhdf5 modis_fs "test_readhdf4.hdf4" (list_variables true)
      = (Return (RNames names), Opened true) /\
    ReadHDF4.readhdf4 true modis_fs "test_readhdf4.hdf4" (list_variables true)
      = (Return (RNames names), Opened true) /\
    ReadHDF4.hdf4read true modis_fs "test_readhdf4.hdf4" (list_variables true)
      = (Return (RNames names), Opened true) /\
    Permutation names (map fst (datasets modis_container)) /\
    Sorted str_le names.
Proof.
  apply (@readers_variables_sorted modis_fs "test_readhdf4.hdf4" modis_container
           (list_variables true)); reflexivity.
Defined.

(** The doctest of [hdf4read] with [variables=True, sort=True]. *)
Example hdf4read_doctest_sorted :
  ReadHDF4.hdf4read true modis_fs "test_readhdf4.hdf4" (list_variables true)
    = (Return (RNames ["QC_250m_1"; "num_observations"; "sur_refl_b01_1";
                       "sur_refl_b02_1"]), Opened true).
Proof. reflexivity. Qed.

Lemma raise_with_not_return :
  forall (A : Type) (mk : string -> exn) (msg : outcome string) (a : A),
    raise_with mk msg <> Return a.
Proof. intros A mk [m|e|] a; discriminate. Qed.

(** X13.  The readers and the file they open.  A file that cannot be
    opened makes [readhdf5] raise the IOError naming it, and nothing is
    opened.  When [readhdf5] or [readhdf4] returns, the file has been
    closed, whatever the keywords.  A failing read of the selected dataset
    can leave the file open: in [readhdf5] h5py's ValueError for a scalar
    dataset is not caught, and in [readhdf4] no error of the read is. *)
Theorem readers_handle :
  forall (fs : filesystem) (fName : string) (o : options),
    (fs fName = None ->
     ReadHDF5.readhdf5 fs fName o
       = (Raise (IOError ("Cannot open file: " ++ fName)%string), NotOpened)) /\
    (forall r h, ReadHDF5.readhdf5 fs fName o = (Return r, h) -> h = Opened true) /\
    (forall r h, ReadHDF4.readhdf4 true fs fName o = (Return r, h) ->
                 h = Opened true) /\
    (forall f d,
       fs fName = Some f ->
       fileattributes o = false -> variables o = false -> attributes o = false ->
       var o <> EmptyString ->
       lookup (var o) (datasets f) = Some d ->
       ((forall x, ds_data d = Some (D0 x) ->
           exists msg,
             ReadHDF5.readhdf5 fs fName o = (Raise (ValueError msg), Opened false)) /\
        (ds_data d = None ->
           exists msg,
             ReadHDF4.readhdf4 true fs fName o
               = (Raise (ValueError msg), Opened false)))).
Proof.
  intros fs fName o. split; [|split; [|split]].
  - intros Hf. unfold ReadHDF5.readhdf5. now rewrite Hf.
  - intros r h. unfold ReadHDF5.readhdf5.
    destruct (fs fName) as [f|]; [|discriminate].
    destruct (fileattributes o); [congruence|].
    destruct (variables o); [congruence|].
    destruct (attributes o).
    + destruct (lookup (var o) (datasets f)); congruence.
    + destruct (String.eqb (var o) EmptyString); [congruence|].
      destruct (lookup (var o) (datasets f)) as [d|]; [|congruence].
      destruct (ds_data d) as [[x|v|m]|]; try congruence;
        destruct (reform o || squeeze o); congruence.
  - intros r h. unfold ReadHDF4.readhdf4. cbn [negb].
    destruct (fs fName) as [f|]; [|cbn [ReadHDF4.load_class]; discriminate].
    destruct (fileattributes o); [congruence|].
    destruct (variables o); [congruence|].
    destruct (attributes o).
    + destruct (lookup (var o) (datasets f)); congruence.
    + destruct (String.eqb (var o) EmptyString); [congruence|].
      destruct (lookup (var o) (datasets f)) as [d|]; [|congruence].
      destruct (ds_data d) as [arr|]; [|congruence].
      destruct (reform o || squeeze o); congruence.
  - intros f d Hf Hfa Hv Ha Hne Hd.
    apply String.eqb_neq in Hne.
    unfold ReadHDF5.readhdf5, ReadHDF4.readhdf4. cbn [negb].
    rewrite Hf, Hfa, Hv, Ha, Hne, Hd. split.
    + intros x Hx. rewrite Hx. eexists. reflexivity.
    + intros Hx. rewrite Hx. eexists. reflexivity.
Qed.

(** A scalar dataset: [readhdf5] leaves the file open. *)
Example readhdf5_scalar_dataset_leaves_open :
  ReadHDF5.readhdf5 modis_fs "test_readhdf4.hdf4" (with_var "num_observations" false)
    = (Raise (ValueError "Illegal slicing argument for scalar dataspace"),
       Opened false).
Proof. reflexivity. Qed.

(** A dataset whose data cannot be read: [readhdf4] leaves the file open,
    while [readhdf5] closes it before it fails on the message. *)
Example readhdf4_read_failure_leaves_open :
  ReadHDF4.readhdf4 true modis_fs "test_readhdf4.hdf4" (with_var "QC_250m_1" false)
    = (Raise (ValueError "SDreaddata failure"), Opened false).
Proof. reflexivity. Qed.

Example readhdf5_read_failure_closes :
  ReadHDF5.readhdf5 modis_fs "test_readhdf4.hdf4" (with_var "QC_250m_1" false)
    = (Raise (NameError "fname"), Opened true).
Proof. reflexivity. Qed.

(** X14.  Asked for a variable (no list of names, no attributes),
    [readhdf5] returns an array exactly when the name is not empty, the
    file has a dataset of that name, its data can be read and the dataset
    is not a scalar one; the array is then the data, squeezed if [reform]
    or [squeeze] is set. *)
Theorem readhdf5_array_iff :
  forall (fs : filesystem) (fName : string) (f : container) (o : options)
         (a : ndarray),
    fs fName = Some f ->
    fileattributes o = false -> variables o = false -> attributes o = false ->
    (fst (ReadHDF5.readhdf5 fs fName o) = Return (RArray a) <->
     (var o <> EmptyString /\
      exists d arr,
        lookup (var o) (datasets f) = Some d /\ ds_data d = Some arr /\
        (forall x, arr <> D0 x) /\
        a = if reform o || squeeze o then nd_squeeze arr else arr)).
Proof.
  intros fs fName f o a Hf Hfa Hv Ha.
  unfold ReadHDF5.readhdf5. rewrite Hf, Hfa, Hv, Ha.
  destruct (String.eqb (var o) EmptyString) eqn:E.
  - apply String.eqb_eq in E. split.
    + intros H. discriminate.
    + intros [H _]. contradiction.
  - apply String.eqb_neq in E.
    destruct (lookup (var o) (datasets f)) as [d|] eqn:Hl.
    + destruct (ds_data d) as [arr|] eqn:Hdd.
      * assert (Hcase : (exists x, arr = D0 x) \/ (forall x, arr <> D0 x)).
        { destruct arr as [x|v|m]; [left; now exists x|right|right];
            intros x; discriminate. }
        destruct Hcase as [[x ->]|Hnd].
        -- split.
           ++ cbn [fst]. intros H. discriminate.
           ++ intros (_ & d' & arr' & Hd & Harr & Hnd & _).
              assert (arr' = D0 x) by congruence. now apply Hnd in H.
        -- split.
           ++ intros H. split; [exact E|]. exists d, arr.
              split; [reflexivity|]. split; [exact Hdd|]. split; [exact Hnd|].
              destruct arr as [x|v|m]; [now destruct (Hnd x)| |];
                destruct (reform o || squeeze o); cbn [fst] in H; congruence.
           ++ intros (_ & d' & arr' & Hd & Harr & _ & Ea).
              assert (arr' = arr) by congruence. subst arr' a.
              destruct arr as [x|v|m]; [now destruct (Hnd x)| |];
                now destruct (reform o || squeeze o).
      * split.
        -- cbn [fst]. intros H. now apply raise_with_not_return in H.
        -- intros (_ & d' & arr' & Hd & Harr & _). congruence.
    + split.
      * cbn [fst]. intros H. now apply raise_with_not_return in H.
      * intros (_ & d' & arr' & Hd & _). discriminate.
Qed.

Lemma readhdf5_array_iff_witness :
  fst (ReadHDF5.readhdf5 test_fs "test_readhdf5.hdf5" (with_var "chs" false))
    = Return (RArray (D2 [[1; 2; 3]; [4; 5; 6]])) <->
  (var (with_var "chs" false) <> EmptyString /\
   exists d arr,
     lookup (var (with_var "chs" false)) (datasets test_container) = Some d /\
     ds_data d = Some arr /\
     (forall x, arr <> D0 x) /\
     D2 [[1; 2; 3]; [4; 5; 6]]
       = if reform (with_var "chs" false) || squeeze (with_var "chs" false)
         then nd_squeeze arr else arr).
Proof.
  apply (@readhdf5_array_iff test_fs "test_readhdf5.hdf5" test_container
           (with_var "chs" false) (D2 [[1; 2; 3]; [4; 5; 6]]));
    reflexivity.
Defined.

(** X15.  A variable that is not in the file makes [readhdf4] end the
    access to the file and then fail while it builds the message: the
    message reads the undefined name [fname], so a NameError is raised in
    place of the ValueError, as in [readhdf5]. *)
Theorem readhdf4_missing_variable :
  forall (fs : filesystem) (fName : string) (f : container)
         (v : string) (attrs : bool),
    fs fName = Some f ->
    ~ In v (map fst (datasets f)) ->
    attrs = true \/ v <> EmptyString ->
    ReadHDF4.readhdf4 true fs fName (with_var v attrs)
      = (Raise (NameError "fname"), Opened true).
Proof.
  intros fs fName f v attrs Hf Hv Hcase.
  unfold ReadHDF4.readhdf4. cbn [negb]. rewrite Hf.
  cbn [with_var fileattributes variables attributes var].
  rewrite (lookup_not_in _ _ Hv).
  destruct attrs; [reflexivity|].
  destruct Hcase as [|Hne]; [discriminate|].
  destruct (String.eqb v EmptyString) eqn:E; [|reflexivity].
  apply String.eqb_eq in E. contradiction.
Qed.

Lemma readhdf4_missing_variable_witness :
  ReadHDF4.readhdf4 true modis_fs "test_readhdf4.hdf4" (with_var "EM_BB" true)
    = (Raise (NameError "fname"), Opened true).
Proof.
  apply (@readhdf4_missing_variable modis_fs "test_readhdf4.hdf4" modis_container
           "EM_BB" true).
  - reflexivity.
  - simpl. intros [H|[H|[H|[H|[]]]]]; discriminate.
  - now left.
Defined.

(** X16.  Without pyhdf every call of [readhdf4] fails the same way: the
    handler of the failed import raises the undefined name [Error], so the
    caller gets a NameError and never the message about missing HDF4
    support; no file is opened. *)
Theorem readhdf4_without_pyhdf_nameerror :
  forall (fs : filesystem) (fName : string) (o : options),
    ReadHDF4.readhdf4 false fs fName o = (Raise (NameError "Error"), NotOpened) /\
    ReadHDF4.hdf4read false fs fName o = (Raise (NameError "Error"), NotOpened).
Proof.
  intros fs fName o. split; reflexivity.
Qed.

End HdfReaders.

(** ** sread.py: the handle, refused keywords, skipped lines and headers *)

Module SreadPaths.

Import PyStr Sread PyStrProps SreadProps.

(** X17.  A file that cannot be opened gives an IOError and no file
    object.  A file that was opened has been closed when [sread] returns,
    and when it raises one of its own three errors: the ValueError on [nc]
    given together with [cname], the IOError on a missing header line, and
    the ValueError on a line with too few columns. *)
Theorem sread_handle_states :
  forall (fs : filesystem) (infile : string) (o : options),
    match sread fs infile o with
    | (r, None) => fs infile = None /\ exists msg, r = Raise (IOError msg)
    | (r, Some f') =>
        fs infile <> None /\
        ((exists v, r = Return v) \/
         r = Raise (ValueError "nc and cname are mutually exclusive.") \/
         r = Raise (IOError "No header line left for choosing columns by name.") \/
         (exists l, r = Raise (not_enough l)) ->
         closed f' = true)
    end.
Proof.
  intros fs infile o. unfold sread.
  destruct (fs infile) as [content|].
  - split; [discriminate|].
    destruct (@sread_handle o (str_splitlines (decode_ascii content)) _ _
                (surjective_pairing _)) as [H|[H|[H|H]]]; [intros _; exact H| | |];
      cbn [fst snd] in *; rewrite H;
      intros [(v & E)|[E|[E|(l & E)]]]; discriminate E.
  - split; [reflexivity|]. eexists. reflexivity.
Qed.

(** The paths that leave the file open: an empty separator and an empty
    selection of columns, each refused by Python before [f.close()]. *)
Example sread_empty_separator_leaves_open :
  sread (one_file "test.dat" (text test_dat)) "test.dat"
        (with_separator (Some EmptyString) defaults)
    = (Raise (ValueError "empty separator"),
       Some (mkFile [line "1.1 1.2 1.3 1.4"; line "2.1 2.2 2.3 2.4"] false)).
Proof. reflexivity. Qed.

Example sread_empty_selection_leaves_open :
  sread (one_file "test.dat" (text test_dat)) "test.dat" (with_nc (NcSeq []) defaults)
    = (Raise (ValueError "max() arg is an empty sequence"),
       Some (mkFile [line "1.1 1.2 1.3 1.4"; line "2.1 2.2 2.3 2.4"] false)).
Proof. reflexivity. Qed.

(** Without [skip_blank] the search for the first data line returns. *)
Lemma first_line_returns :
  forall o lines f,
    skip_blank o = false ->
    exists s f', first_line_from o lines f = (Return s, f') /\ closed f' = closed f.
Proof.
  intros o lines f Hb.
  destruct (first_line_from_outcome o lines f) as (r & f' & E & Hc & [(s & ->)|[_ H]]).
  - now exists s, f'.
  - congruence.
Qed.

Lemma sniff_valid :
  forall sp s,
    sp <> Some EmptyString ->
    exists sep res, sniff sp s = Return (sep, res) /\ sep <> Some EmptyString.
Proof.
  intros sp s Hsp.
  destruct (sniff_outcome sp s) as [H|H]; [exact H|].
  destruct sp as [[|c sp]|]; [congruence| |].
  - discriminate.
  - unfold sniff in H.
    destruct (length (split_sep "," s) =? 1)%nat;
      [destruct (length (split_sep ";" s) =? 1)%nat|]; discriminate.
Qed.

(** With a usable separator and without [skip_blank], the first part of
    [sread] gets as far as the selection of columns with the file open. *)
Lemma setup_to_indices :
  forall o f,
    closed f = false -> skip_blank o = false -> separator o <> Some EmptyString ->
    exists head s sep res fh,
      closed fh = false /\ sep <> Some EmptyString /\
      sread_setup o f =
        mbind (indices o head sep (length res))
              (fun iinc =>
                 mbind (lift (max_index iinc))
                       (fun miinc => ret (mkSetup head s sep res iinc miinc))) fh.
Proof.
  intros o f Hf Hb Hsp. unfold sread_setup.
  destruct (skip_part_open (0 <? hskip o)%nat (hskip o) f Hf)
    as (l0 & f0 & E0 & Hf0).
  destruct (skip_part_open (0 <? skip o)%nat (skip o - hskip o) f0 Hf0)
    as (head & fh & Eh & Hfh).
  destruct (first_line_returns o (pending fh) fh Hb) as (s & f1 & Es & Hc).
  destruct (sniff_valid s Hsp) as (sep & res & Esn & Hsep).
  exists head, s, sep, res, f1.
  split; [congruence|]. split; [exact Hsep|].
  erewrite mbind_return; [|exact E0].
  erewrite mbind_return; [|exact Eh].
  erewrite mbind_return; [|exact Es].
  erewrite mbind_return; [|unfold lift; rewrite Esn; reflexivity].
  reflexivity.
Qed.

(** X18.  Given both [nc] and [cname], with a usable separator and
    without [skip_blank], [sread] raises the ValueError on the exclusive
    keywords and has closed the file, whatever the file holds. *)
Theorem sread_nc_and_cname_closed :
  forall (fs : filesystem) (infile content : string) (o : options),
    fs infile = Some content ->
    nc_nonzero (nc o) = true -> cname o <> None ->
    skip_blank o = false -> separator o <> Some EmptyString ->
    exists f',
      sread fs infile o
        = (Raise (ValueError "nc and cname are mutually exclusive."), Some f') /\
      closed f' = true.
Proof.
  intros fs infile content o Hfs Hnc Hcn Hb Hsp. unfold sread. rewrite Hfs.
  destruct (@setup_to_indices o (mkFile (str_splitlines (decode_ascii content)) false)
              eq_refl Hb Hsp) as (head & s & sep & res & fh & Hfh & Hsep & E).
  exists (mkFile (pending fh) true). split; [|reflexivity].
  assert (Hbody : sread_body o (mkFile (str_splitlines (decode_ascii content)) false)
                  = (Raise (ValueError "nc and cname are mutually exclusive."),
                     mkFile (pending fh) true)).
  { unfold sread_body. apply mbind_raise. rewrite E.
    apply mbind_raise. now apply indices_exclusive. }
  now rewrite Hbody.
Qed.

Lemma sread_nc_and_cname_closed_witness :
  exists f',
    sread (one_file "test.dat" (text test_dat)) "test.dat"
          (with_skip 1 (with_cname (CnameStr "head1") (with_nc (NcInt 1) defaults)))
      = (Raise (ValueError "nc and cname are mutually exclusive."), Some f') /\
    closed f' = true.
Proof.
  apply (@sread_nc_and_cname_closed (one_file "test.dat" (text test_dat)) "test.dat"
           (text test_dat)
           (with_skip 1 (with_cname (CnameStr "head1") (with_nc (NcInt 1) defaults)))).
  - reflexivity.
  - reflexivity.
  - discriminate.
  - reflexivity.
  - discriminate.
Defined.

(** X19.  Columns chosen by name need a header line: with [cname] given,
    [nc] left at 0 and no line between [hskip] and [skip], [sread] raises
    the IOError on the missing header line and has closed the file
    (usable separator, no [skip_blank]). *)
Theorem sread_cname_without_header_line :
  forall (fs : filesystem) (infile content : string) (o : options),
    fs infile = Some content ->
    nc_nonzero (nc o) = false -> cname o <> None ->
    (skip o <= hskip o)%nat ->
    skip_blank o = false -> separator o <> Some EmptyString ->
    exists f',
      sread fs infile o
        = (Raise (IOError "No header line left for choosing columns by name."),
           Some f') /\
      closed f' = true.
Proof.
  intros fs infile content o Hfs Hnc Hcn Hskip Hb Hsp. unfold sread. rewrite Hfs.
  destruct (@setup_to_indices o (mkFile (str_splitlines (decode_ascii content)) false)
              eq_refl Hb Hsp) as (head & s & sep & res & fh & Hfh & Hsep & E).
  exists (mkFile (pending fh) true). split; [|reflexivity].
  assert (Hbody : sread_body o (mkFile (str_splitlines (decode_ascii content)) false)
                  = (Raise (IOError "No header line left for choosing columns by name."),
                     mkFile (pending fh) true)).
  { unfold sread_body. apply mbind_raise. rewrite E.
    apply mbind_raise. unfold indices. rewrite Hnc. cbn [andb].
    destruct (cname o) as [cn|]; [|congruence].
    assert (Hle : (skip o - hskip o <=? 0)%nat = true) by (apply Nat.leb_le; lia).
    rewrite Hle. reflexivity. }
  now rewrite Hbody.
Qed.

Lemma sread_cname_without_header_line_witness :
  exists f',
    sread (one_file "test.dat" (text test_dat)) "test.dat"
          (with_cname (CnameStr "head1") defaults)
      = (Raise (IOError "No header line left for choosing columns by name."),
         Some f') /\
    closed f' = true.
Proof.
  apply (@sread_cname_without_header_line (one_file "test.dat" (text test_dat))
           "test.dat" (text test_dat) (with_cname (CnameStr "head1") defaults)).
  - reflexivity.
  - reflexivity.
  - discriminate.
  - simpl. lia.
  - reflexivity.
  - discriminate.
Defined.

(** A line that has all the selected columns gives their cells, stripped,
    in the order of the selection. *)
Lemma line_row_in_range :
  forall res iinc stp,
    Forall (fun i => (i < length res)%nat) iinc ->
    line_row res iinc stp = map (fun i => stripped stp (nth i res EmptyString)) iinc.
Proof.
  intros res iinc stp Hall. rewrite Forall_forall in Hall. unfold line_row.
  rewrite filter_all, filter_none.
  - cbn [length repeat]. now rewrite app_nil_r.
  - intros i Hi. apply Nat.leb_gt. now apply Hall.
  - intros i Hi. apply Nat.ltb_lt. now apply Hall.
Qed.

(** X20.  [line2var] appends exactly one row to [var], with one cell per
    selected column: the stripped cells of the columns the line has, in the
    order of the selection, followed by one empty string for each selected
    column beyond the end of the line. *)
Theorem line2var_appends_row :
  forall (res : list string) (var : list (list string)) (iinc : list nat)
         (stp : option string),
    exists row,
      line2var res var iinc stp = var ++ [row] /\
      length row = length iinc /\
      firstn (length (filter (fun i => i <? length res)%nat iinc)) row
        = map (fun i => stripped stp (nth i res EmptyString))
              (filter (fun i => i <? length res)%nat iinc) /\
      Forall (fun cell => cell = EmptyString)
             (skipn (length (filter (fun i => i <? length res)%nat iinc)) row) /\
      (Forall (fun i => (i < length res)%nat) iinc ->
       row = map (fun i => stripped stp (nth i res EmptyString)) iinc).
Proof.
  intros res var iinc stp. exists (line_row res iinc stp).
  split; [apply line2var_row|]. split; [apply line_row_length|].
  set (present := filter (fun i => i <? length res)%nat iinc).
  assert (Hlen : length (map (fun i => stripped stp (nth i res EmptyString)) present)
                 = length present) by apply length_map.
  unfold line_row. fold present. repeat split.
  - rewrite <- Hlen at 1. rewrite firstn_app, Nat.sub_diag, firstn_all.
    cbn [firstn]. now rewrite app_nil_r.
  - rewrite <- Hlen at 1. rewrite skipn_app, Nat.sub_diag, skipn_all.
    cbn [skipn app]. apply Forall_forall. intros x Hx. now apply repeat_spec in Hx.
  - intros Hall. now apply line_row_in_range.
Qed.

(** The outcome of a bound computation depends on the state only through
    the outcome of its first part, if the rest does not look at the state. *)
Lemma mbind_fst :
  forall (A B : Type) (m m' : M A) (k : A -> M B) f f',
    fst (m f) = fst (m' f') ->
    (forall a g g', fst (k a g) = fst (k a g')) ->
    fst (mbind m k f) = fst (mbind m' k f').
Proof.
  intros A B m m' k f f' Hm Hk. unfold mbind.
  destruct (m f) as [[a|e|] g], (m' f') as [[a'|e'|] g']; cbn [fst] in *;
    try discriminate; try congruence.
  inversion Hm; subst. apply Hk.
Qed.

(** The loop stops at a blank line. *)
Lemma values_from_stops :
  forall o sep iinc miinc l post pre var f f',
    skip_blank o = false -> blank l ->
    fst (values_from o sep iinc miinc (pre ++ l :: post) var f)
      = fst (values_from o sep iinc miinc pre var f').
Proof.
  intros o sep iinc miinc l post pre. induction pre as [|x pre IH];
    intros var f f' Hb Hl.
  - cbn [app]. rewrite values_from_cons. cbv zeta.
    unfold blank in Hl. rewrite Hl. cbn [String.length Nat.eqb]. rewrite Hb.
    reflexivity.
  - cbn [app]. rewrite !values_from_cons. cbv zeta.
    destruct (String.length (str_rstrip x) =? 0)%nat.
    + rewrite Hb. reflexivity.
    + destruct (is_comment (comment o) (str_rstrip x)); [now apply IH|].
      destruct (str_split sep (str_rstrip x)) as [res|e|]; try reflexivity.
      destruct ((length res <=? miinc)%nat && negb (fill o)); [reflexivity|].
      now apply IH.
Qed.

(** The loop passes over comment lines and, under [skip_blank], over blank
    lines. *)
Lemma values_from_skips :
  forall o sep iinc miinc l post pre var f f',
    (blank l /\ skip_blank o = true) \/
    (~ blank l /\ is_comment (comment o) (str_rstrip l) = true) ->
    fst (values_from o sep iinc miinc (pre ++ l :: post) var f)
      = fst (values_from o sep iinc miinc (pre ++ post) var f').
Proof.
  intros o sep iinc miinc l post pre.
  assert (Hstate : forall lines var f f',
            fst (values_from o sep iinc miinc lines var f)
            = fst (values_from o sep iinc miinc lines var f')).
  { induction lines as [|x lines IH]; intros var f f'; [reflexivity|].
    rewrite !values_from_cons. cbv zeta.
    destruct (String.length (str_rstrip x) =? 0)%nat.
    - destruct (skip_blank o); [apply IH|reflexivity].
    - destruct (is_comment (comment o) (str_rstrip x)); [apply IH|].
      destruct (str_split sep (str_rstrip x)) as [res|e|]; try reflexivity.
      destruct ((length res <=? miinc)%nat && negb (fill o)); [reflexivity|].
      apply IH. }
  induction pre as [|x pre IH]; intros var f f' Hl.
  - cbn [app]. rewrite values_from_cons. cbv zeta.
    destruct Hl as [[Hl Hb]|[Hl Hc]].
    + unfold blank in Hl. rewrite Hl. cbn [String.length Nat.eqb]. rewrite Hb.
      apply Hstate.
    + assert (E : (String.length (str_rstrip l) =? 0)%nat = false).
      { apply nonempty_length. exact Hl. }
      rewrite E, Hc. apply Hstate.
  - cbn [app]. rewrite !values_from_cons. cbv zeta.
    destruct (String.length (str_rstrip x) =? 0)%nat.
    + destruct (skip_blank o); [now apply IH|reflexivity].
    + destruct (is_comment (comment o) (str_rstrip x)); [now apply IH|].
      destruct (str_split sep (str_rstrip x)) as [res|e|]; try reflexivity.
      destruct ((length res <=? miinc)%nat && negb (fill o)); [reflexivity|].
      now apply IH.
Qed.

Lemma values_tail_stateless :
  forall (o : options) (var : list (list string)) (g g' : file),
    fst (mbind close (fun _ => lift (finish o (rows_val var))) g)
      = fst (mbind close (fun _ => lift (finish o (rows_val var))) g').
Proof. reflexivity. Qed.

(** X21.  Without [skip_blank] the loop over the data lines ends at the
    first blank line: whatever follows it in the file has no influence on
    what the call returns or raises. *)
Theorem sread_stops_at_blank_line :
  forall (o : options) (st : setup) (pre post : list string) (l : string),
    skip_blank o = false -> blank l ->
    fst (sread_values o st (mkFile (pre ++ l :: post) false))
      = fst (sread_values o st (mkFile pre false)).
Proof.
  intros o st pre post l Hb Hl. unfold sread_values.
  destruct ((length (st_res st) <=? st_miinc st)%nat && negb (fill o));
    [reflexivity|].
  apply mbind_fst.
  - unfold values_loop. cbn [pending]. now apply values_from_stops.
  - intros var g g'. apply values_tail_stateless.
Qed.

Lemma sread_stops_at_blank_line_witness :
  fst (sread_values defaults (mkSetup [] "1 2" None ["1"; "2"] [0; 1] 1)
         (mkFile ([line "3 4"] ++ line EmptyString :: [line "5 6"]) false))
    = fst (sread_values defaults (mkSetup [] "1 2" None ["1"; "2"] [0; 1] 1)
             (mkFile [line "3 4"] false)).
Proof.
  apply (@sread_stops_at_blank_line defaults
           (mkSetup [] "1 2" None ["1"; "2"] [0; 1] 1)
           [line "3 4"] [line "5 6"] (line EmptyString)).
  - reflexivity.
  - reflexivity.
Defined.

(** X22.  The loop over the data lines passes over every comment line
    and, under [skip_blank], over every blank line: the call returns or
    raises what it would if the line were not in the file. *)
Theorem sread_skips_comment_and_blank_lines :
  forall (o : options) (st : setup) (pre post : list string) (l : string),
    (blank l /\ skip_blank o = true) \/
    (~ blank l /\ is_comment (comment o) (str_rstrip l) = true) ->
    fst (sread_values o st (mkFile (pre ++ l :: post) false))
      = fst (sread_values o st (mkFile (pre ++ post) false)).
Proof.
  intros o st pre post l Hl. unfold sread_values.
  destruct ((length (st_res st) <=? st_miinc st)%nat && negb (fill o));
    [reflexivity|].
  apply mbind_fst.
  - unfold values_loop. cbn [pending]. now apply values_from_skips.
  - intros var g g'. apply values_tail_stateless.
Qed.

Lemma sread_skips_comment_and_blank_lines_witness :
  fst (sread_values (with_skip_blank true defaults)
         (mkSetup [] "1 2" None ["1"; "2"] [0; 1] 1)
         (mkFile ([line "3 4"] ++ line EmptyString :: [line "5 6"]) false))
    = fst (sread_values (with_skip_blank true defaults)
             (mkSetup [] "1 2" None ["1"; "2"] [0; 1] 1)
             (mkFile ([line "3 4"] ++ [line "5 6"]) false)).
Proof.
  apply (@sread_skips_comment_and_blank_lines (with_skip_blank true defaults)
           (mkSetup [] "1 2" None ["1"; "2"] [0; 1] 1)
           [line "3 4"] [line "5 6"] (line EmptyString)).
  left. split; reflexivity.
Defined.

End SreadPaths.

(** ** sread.py: headers and written tables read back by column *)

Module SreadTables.

Import PyStr Sread PyStrProps SreadProps SreadPaths.

(** *** The header lines *)

Lemma read_stripped_length :
  forall n f ls f',
    read_stripped n f = (Return ls, f') -> length ls = n.
Proof.
  induction n as [|n IH]; intros f ls f' H; cbn [read_stripped] in H.
  - unfold ret in H. now inversion H.
  - apply mbind_inv in H. destruct H as (l & f1 & _ & H).
    apply mbind_inv in H. destruct H as (ls' & f2 & Hls & H).
    unfold ret in H. inversion H; subst. cbn [length]. f_equal.
    eapply IH. exact Hls.
Qed.

(** After the first part, [head] holds one entry per line between [hskip]
    and [skip]. *)
Lemma setup_head_length :
  forall o f st f1,
    sread_setup o f = (Return st, f1) ->
    length (st_head st) = (if (0 <? skip o)%nat then skip o - hskip o else 0)%nat.
Proof.
  intros o f st f1 H. unfold sread_setup in H.
  apply mbind_inv in H. destruct H as (x0 & f0 & _ & H).
  apply mbind_inv in H. destruct H as (head & fh & Hh & H).
  apply mbind_inv in H. destruct H as (s & fs & _ & H).
  apply mbind_inv in H. destruct H as ([sep res] & fr & _ & H).
  apply mbind_inv in H. destruct H as (iinc & fi & _ & H).
  apply mbind_inv in H. destruct H as (miinc & fm & _ & H).
  unfold ret in H. inversion H; subst. cbn [st_head].
  destruct (0 <? skip o)%nat.
  - now apply read_stripped_length in Hh.
  - unfold ret in Hh. now inversion Hh.
Qed.

Lemma fill_rows_row :
  forall fv r, fill_rows fv (row_val r) = Return (spelled r).
Proof.
  intros fv r. unfold fill_rows, row_val, spelled. cbn [py_iter bind].
  rewrite (mapM_map PStr _ (fun name => PList (chars_of name))).
  - reflexivity.
  - intros s _. cbn [py_iter bind]. f_equal. f_equal. unfold chars_of.
    rewrite map_map. apply map_ext. reflexivity.
Qed.

(** X23.  With [header=True], one header line ([skip-hskip = 1]) and
    [fill=True] in the list branch, the header comes back misshapen: the
    names, already taken out of their one-row list, are iterated as if they
    were rows, so each selected name is returned as the list of its
    characters; the file is closed. *)
Theorem sread_header_fill_spells_names :
  forall (o : options) (lines : list string) (st : setup) (f1 : file),
    header o = true -> full_header o = false -> fill o = true ->
    strarr o = false -> squeeze o = false -> reform o = false ->
    transpose o = false ->
    (skip o - hskip o = 1)%nat ->
    sread_setup o (mkFile lines false) = (Return st, f1) ->
    exists h hres,
      st_head st = [h] /\
      str_split (st_sep st) h = Return hres /\
      sread_body o (mkFile lines false)
        = (Return (spelled (line_row hres (st_iinc st) (strip o))),
           mkFile (pending f1) true).
Proof.
  intros o lines st f1 Hh Hfull Hfill Harr Hsq Hre Htr Hskip Hsetup.
  destruct (setup_inv o (mkFile lines false) eq_refl Hsetup) as (Hopen & Hsep & _).
  pose proof (setup_head_length _ _ Hsetup) as Hlen.
  assert (Hpos : (0 <? skip o)%nat = true) by (apply Nat.ltb_lt; lia).
  rewrite Hpos, Hskip in Hlen.
  destruct (st_head st) as [|h [|h' hd]] eqn:Ehead; try discriminate.
  destruct (split_valid h Hsep) as (hres & Hres).
  exists h, hres. split; [reflexivity|]. split; [exact Hres|].
  unfold sread_body. erewrite mbind_return; [|exact Hsetup].
  rewrite Hh. unfold sread_header. rewrite Hskip, Hfull, Ehead.
  cbn [Nat.ltb Nat.leb Nat.eqb].
  erewrite mbind_return.
  2:{ erewrite mbind_return.
      2:{ rewrite header_rows_cons, Hres, Hfill, andb_false_r.
          cbn [header_rows]. reflexivity. }
      reflexivity. }
  unfold mbind at 1, close at 1. cbv beta iota. unfold lift.
  rewrite line2var_row. cbn [app nth].
  unfold finish. rewrite Harr, Hfill, Hsq, Hre, Htr, fill_rows_row.
  reflexivity.
Qed.

Lemma sread_header_fill_spells_names_witness :
  exists h hres,
    st_head (mkSetup ["head1 head2 head3 head4"] "1.1 1.2 1.3 1.4" None
                     ["1.1"; "1.2"; "1.3"; "1.4"] [0; 1; 2; 3] 3)
      = [h] /\
    str_split (st_sep (mkSetup ["head1 head2 head3 head4"] "1.1 1.2 1.3 1.4" None
                               ["1.1"; "1.2"; "1.3"; "1.4"] [0; 1; 2; 3] 3)) h
      = Return hres /\
    sread_body (with_fill "-1" (with_header true (with_skip 1 defaults)))
               (mkFile test_dat false)
      = (Return (spelled
                   (line_row hres
                      (st_iinc (mkSetup ["head1 head2 head3 head4"] "1.1 1.2 1.3 1.4"
                                        None ["1.1"; "1.2"; "1.3"; "1.4"]
                                        [0; 1; 2; 3] 3))
                      (strip (with_fill "-1" (with_header true (with_skip 1 defaults)))))),
         mkFile (pending (mkFile [line "2.1 2.2 2.3 2.4"] false)) true).
Proof.
  apply (@sread_header_fill_spells_names
           (with_fill "-1" (with_header true (with_skip 1 defaults)))
           test_dat
           (mkSetup ["head1 head2 head3 head4"] "1.1 1.2 1.3 1.4" None
                    ["1.1"; "1.2"; "1.3"; "1.4"] [0; 1; 2; 3] 3)
           (mkFile [line "2.1 2.2 2.3 2.4"] false)); reflexivity.
Defined.

(** X24.  With [header=True] and no line between [hskip] and [skip], the
    header is [None]: in the list branch the call closes the file and
    returns [None] when nothing reshapes the result, and raises TypeError
    as soon as [fill], [squeeze], [reform] or [transpose] is set. *)
Theorem sread_header_without_header_lines :
  forall (o : options) (lines : list string) (st : setup) (f1 : file),
    header o = true -> (skip o <= hskip o)%nat -> strarr o = false ->
    sread_setup o (mkFile lines false) = (Return st, f1) ->
    (fill o || squeeze o || reform o || transpose o = false /\
     sread_body o (mkFile lines false) = (Return PNone, mkFile (pending f1) true)) \/
    (fill o || squeeze o || reform o || transpose o = true /\
     exists msg,
       sread_body o (mkFile lines false)
         = (Raise (TypeError msg), mkFile (pending f1) true)).
Proof.
  intros o lines st f1 Hh Hskip Harr Hsetup.
  assert (Hzero : (0 <? skip o - hskip o)%nat = false) by (apply Nat.ltb_ge; lia).
  assert (Hbody : sread_body o (mkFile lines false)
                  = (finish o PNone, mkFile (pending f1) true)).
  { unfold sread_body. erewrite mbind_return; [|exact Hsetup].
    rewrite Hh. unfold sread_header. rewrite Hzero. reflexivity. }
  rewrite Hbody. unfold finish. rewrite Harr.
  destruct (fill o); [right; split; [reflexivity|]; eexists; reflexivity|].
  destruct (squeeze o); [right; split; [reflexivity|]; eexists; reflexivity|].
  destruct (reform o); [right; split; [reflexivity|]; eexists; reflexivity|].
  destruct (transpose o); [right; split; [reflexivity|]; eexists; reflexivity|].
  left. split; reflexivity.
Qed.

Lemma sread_header_without_header_lines_witness :
  (fill (with_header true defaults) || squeeze (with_header true defaults)
   || reform (with_header true defaults) || transpose (with_header true defaults)
   = false /\
   sread_body (with_header true defaults) (mkFile test_dat false)
     = (Return PNone,
        mkFile (pending (mkFile [line "1.1 1.2 1.3 1.4"; line "2.1 2.2 2.3 2.4"] false))
               true)) \/
  (fill (with_header true defaults) || squeeze (with_header true defaults)
   || reform (with_header true defaults) || transpose (with_header true defaults)
   = true /\
   exists msg,
     sread_body (with_header true defaults) (mkFile test_dat false)
       = (Raise (TypeError msg),
          mkFile (pending (mkFile [line "1.1 1.2 1.3 1.4"; line "2.1 2.2 2.3 2.4"] false))
                 true)).
Proof.
  apply (@sread_header_without_header_lines (with_header true defaults) test_dat
           (mkSetup [] "head1 head2 head3 head4" None
                    ["head1"; "head2"; "head3"; "head4"] [0; 1; 2; 3] 3)
           (mkFile [line "1.1 1.2 1.3 1.4"; line "2.1 2.2 2.3 2.4"] false)).
  - reflexivity.
  - simpl. lia.
  - reflexivity.
  - reflexivity.
Defined.

(** *** Lines of text, skipped lines and selected columns *)

Lemma text_app :
  forall a b, text (a ++ b) = (text a ++ text b)%string.
Proof.
  induction a as [|l a IH]; intros b; cbn [app text]; [reflexivity|].
  now rewrite IH, append_assoc.
Qed.

(** Lines free of line breaks, written one after the other, are split where
    they were joined. *)
Lemma splitlines_lines :
  forall hs rest,
    Forall (fun h => no_linebreak h = true) hs ->
    str_splitlines (text (map line hs) ++ rest) = map line hs ++ str_splitlines rest.
Proof.
  intros hs rest Hall. unfold str_splitlines.
  induction Hall as [|h hs Hh Hhs IH]; [reflexivity|].
  cbn [map text app]. unfold line at 1. rewrite !append_assoc.
  rewrite splitlines_aux_plain by exact Hh.
  rewrite splitlines_aux_newline, IH. reflexivity.
Qed.

(** Decoding works line by line and brings in no line break. *)
Lemma decode_lines :
  forall hs,
    decode_ascii (text (map line hs)) = text (map line (map decode_ascii hs)).
Proof.
  induction hs as [|h hs IH]; [reflexivity|].
  cbn [map text]. unfold line at 1 3. rewrite !decode_ascii_app, IH. reflexivity.
Qed.

Lemma no_linebreak_decode :
  forall h, no_linebreak h = true -> no_linebreak (decode_ascii h) = true.
Proof.
  unfold no_linebreak. induction h as [|ch h IH]; intros H; [reflexivity|].
  cbn [str_forallb] in H. apply andb_true_iff in H. destruct H as [Hch Hh].
  cbn [decode_ascii]. destruct (is_ascii ch); [|now apply IH].
  cbn [str_forallb]. now rewrite Hch, IH.
Qed.

Lemma read_stripped_lines :
  forall ls rest,
    read_stripped (length ls) (mkFile (ls ++ rest) false)
      = (Return (map str_rstrip ls), mkFile rest false).
Proof.
  induction ls as [|l ls IH]; intros rest; cbn [length app read_stripped map].
  - reflexivity.
  - erewrite mbind_return; [|reflexivity].
    erewrite mbind_return; [|apply IH]. reflexivity.
Qed.

Lemma skip_lines :
  forall ls rest,
    (if (0 <? length ls)%nat then read_stripped (length ls - 0) else ret [])
      (mkFile (ls ++ rest) false)
      = (Return (map str_rstrip ls), mkFile rest false).
Proof.
  intros [|l ls] rest; [reflexivity|].
  change (0 <? length (l :: ls))%nat with true. cbv iota.
  rewrite Nat.sub_0_r. apply read_stripped_lines.
Qed.

(** Without [cname] the selection is made from [nc] and [cskip]. *)
Lemma indices_selected :
  forall o head sep nres f,
    cname o = None ->
    indices o head sep nres f = (Return (selected (nc o) (cskip o) nres), f).
Proof.
  intros o head sep nres f Hcn. unfold indices, selected.
  rewrite Hcn, andb_false_r.
  destruct (nc o) as [z|l]; [destruct (z <=? 0)%Z|]; reflexivity.
Qed.

Lemma fold_max_bound :
  forall l b n,
    Forall (fun i => (i < n)%nat) l -> (b < n)%nat ->
    (fold_left Nat.max l b < n)%nat.
Proof.
  induction l as [|i l IH]; intros b n Hall Hb; cbn [fold_left]; [exact Hb|].
  inversion Hall; subst. apply IH; [assumption|]. lia.
Qed.

Lemma max_index_bound :
  forall iinc n,
    iinc <> [] -> Forall (fun i => (i < n)%nat) iinc ->
    exists m, max_index iinc = Return m /\ (m < n)%nat.
Proof.
  intros [|i iinc] n Hne Hall; [congruence|]. inversion Hall; subst.
  cbn [max_index]. eexists. split; [reflexivity|]. now apply fold_max_bound.
Qed.

(** The first part of [sread] on some skipped lines followed by a written
    table. *)
Lemma setup_table :
  forall o c n sp sep hs row rows m,
    separator o = sp -> skip o = length hs -> hskip o = 0%nat ->
    cname o = None -> comment o = None ->
    parsed sep c n row ->
    sniff sp (str_join (String c EmptyString) row) = Return (sep, row) ->
    max_index (selected (nc o) (cskip o) n) = Return m ->
    sread_setup o (mkFile (map line hs ++ write_table c (row :: rows)) false)
      = (Return (mkSetup (map (fun h => str_rstrip (line h)) hs)
                         (str_join (String c EmptyString) row) sep row
                         (selected (nc o) (cskip o) n) m),
         mkFile (write_table c rows) false).
Proof.
  intros o c n sp sep hs row rows m Hsep Hskip Hhskip Hcname Hcm
         (Hlen & Hline & Hnb & Hsplit) Hsniff Hmax.
  unfold sread_setup.
  erewrite mbind_return; [|rewrite Hhskip; reflexivity].
  erewrite mbind_return.
  2:{ rewrite Hskip, Hhskip, <- (length_map line hs). apply skip_lines. }
  erewrite mbind_return.
  2:{ unfold first_line. cbn [pending].
      change (write_table c (row :: rows))
        with (line (str_join (String c EmptyString) row) :: write_table c rows).
      cbn [first_line_from]. unfold mbind at 1, advance at 1. cbv beta iota.
      rewrite Hline, (nonempty_length Hnb), Hcm. reflexivity. }
  erewrite mbind_return; [|unfold lift; rewrite Hsep, Hsniff; reflexivity].
  cbn [fst snd]. rewrite Hlen.
  erewrite mbind_return; [|apply indices_selected; exact Hcname].
  erewrite mbind_return; [|unfold lift; rewrite Hmax; reflexivity].
  rewrite map_map. reflexivity.
Qed.

(** The loop reads the lines of parsed rows into their selected cells. *)
Lemma values_from_cols :
  forall o sep c n m iinc rows var f,
    comment o = None -> strip o = None ->
    (m < n)%nat -> Forall (fun i => (i < n)%nat) iinc ->
    Forall (parsed sep c n) rows ->
    values_from o sep iinc m (write_table c rows) var f
      = (Return (var ++ map (fun row => map unquote (pick iinc row)) rows),
         mkFile [] (closed f)).
Proof.
  intros o sep c n m iinc rows var f Hcm Hstrip Hm Hin Hall. revert var f.
  induction Hall as [|row rows Hrow Hrows IH]; intros var f.
  - cbn [write_table map values_from]. now rewrite app_nil_r.
  - destruct Hrow as (Hlen & Hline & Hne & Hsplit).
    change (write_table c (row :: rows))
      with (line (str_join (String c EmptyString) row) :: write_table c rows).
    rewrite values_from_cons. cbv zeta. rewrite Hline.
    rewrite (nonempty_length Hne), Hcm. cbn [is_comment]. rewrite Hsplit.
    assert (Hfull : (length row <=? m)%nat = false) by (apply Nat.leb_gt; lia).
    rewrite Hfull. cbn [andb]. rewrite IH. cbn [closed map].
    rewrite <- app_assoc. cbn [app]. rewrite Hstrip.
    rewrite line_row_in_range by (now rewrite Hlen).
    unfold pick. rewrite map_map. reflexivity.
Qed.

(** *** Shapes of the selected table *)

Lemma heads_map_cons :
  forall (A B : Type) (g : A -> B) (h : A -> list B) (l : list A),
    heads (map (fun x => g x :: h x) l) = map g l.
Proof.
  intros A B g h l. unfold heads. induction l as [|x l IH]; cbn [map flat_map app].
  - reflexivity.
  - now rewrite IH.
Qed.

(** Zipping rows made column by column gives one list per column. *)
Lemma zip_star_columns :
  forall (A B : Type) (g : nat -> A -> B) (cols : list nat) (l : list A),
    zip_star (length cols) (map (fun x => map (fun i => g i x) cols) l)
      = map (fun i => map (g i) l) cols.
Proof.
  intros A B g cols l. induction cols as [|i cols IH]; [reflexivity|].
  cbn [length zip_star map]. f_equal.
  - apply (heads_map_cons (g i) (fun x => map (fun j => g j x) cols)).
  - rewrite map_map. cbn [tl]. exact IH.
Qed.

Lemma min_length_regular :
  forall (A : Type) (k : nat) (rows : list (list A)),
    rows <> [] -> Forall (fun r => length r = k) rows -> min_length rows = k.
Proof.
  intros A k [|r rows] Hne Hall; [congruence|]. inversion Hall as [|? ? Hr Hrows]; subst.
  cbn [min_length]. clear Hne Hall.
  induction Hrows as [|r' rows Hr' Hrows IH]; cbn [map fold_left]; [reflexivity|].
  rewrite Hr', Nat.min_id. exact IH.
Qed.

(** The transpose step on a table given column by column. *)
Lemma transpose_rows_columns :
  forall (A : Type) (g : nat -> A -> string) (cols : list nat) (l : list A),
    l <> [] ->
    transpose_rows (rows_val (map (fun x => map (fun i => g i x) cols) l))
      = Return (rows_val (map (fun i => map (g i) l) cols)).
Proof.
  intros A g cols l Hne.
  set (rows := map (fun x => map (fun i => g i x) cols) l).
  assert (Hrows : rows <> []) by (destruct l; [congruence|discriminate]).
  assert (Hlen : Forall (fun r => length r = length cols) (map (map PStr) rows)).
  { unfold rows. rewrite map_map. apply Forall_forall. intros r Hr.
    apply in_map_iff in Hr. destruct Hr as (x & <- & _). now rewrite !length_map. }
  assert (Hfirst : exists r rest, rows = r :: rest)
    by (destruct rows as [|r rest]; [congruence|eauto]).
  destruct Hfirst as (r & rest & Er).
  unfold transpose_rows, rows_val. rewrite Er. cbn [map py_first bind].
  unfold row_val at 1. cbn [py_iter bind].
  change (row_val r :: map row_val rest) with (map row_val (r :: rest)).
  rewrite (mapM_map row_val py_iter (map PStr)) by reflexivity.
  cbn [bind]. rewrite <- Er.
  rewrite (@min_length_regular pyval (length cols) (map (map PStr) rows));
    [|destruct rows; [congruence|discriminate]|exact Hlen].
  f_equal. f_equal. unfold rows. rewrite map_map.
  rewrite (map_ext (fun x => map PStr (map (fun i => g i x) cols))
                   (fun x => map (fun i => PStr (g i x)) cols))
    by (intros x; apply map_map).
  rewrite (@zip_star_columns _ _ (fun i x => PStr (g i x)) cols l).
  rewrite !(map_map _ _ cols). apply map_ext. intros i. unfold row_val.
  now rewrite map_map.
Qed.

Lemma fold_max_ones :
  forall (l : list nat), Forall (fun k => k = 1%nat) l -> fold_left Nat.max l 1%nat = 1%nat.
Proof.
  induction l as [|k l IH]; intros Hall; cbn [fold_left]; [reflexivity|].
  inversion Hall; subst. now apply IH.
Qed.

(** The squeeze step on rows of one cell. *)
Lemma squeeze_rows_single :
  forall (A : Type) (g : A -> string) (l : list A),
    l <> [] ->
    squeeze_rows (rows_val (map (fun x => [g x]) l))
      = Return (PList (map (fun x => PStr (g x)) l)).
Proof.
  intros A g l Hne. unfold squeeze_rows, rows_val. cbn [py_iter bind].
  rewrite !map_map.
  rewrite (mapM_map (fun x => row_val [g x]) py_len (fun _ => 1%nat)) by reflexivity.
  cbn [bind].
  destruct l as [|x l]; [congruence|]. cbn [map max_index bind].
  rewrite fold_max_ones
    by (apply Forall_forall; intros k Hk; apply in_map_iff in Hk;
        now destruct Hk as (? & <- & _)).
  cbn [Nat.eqb].
  change (row_val [g x] :: map (fun x0 => row_val [g x0]) l)
    with (map (fun x0 => row_val [g x0]) (x :: l)).
  rewrite (mapM_map (fun x0 => row_val [g x0]) py_first (fun x0 => PStr (g x0)))
    by reflexivity.
  reflexivity.
Qed.

(** *** A written table behind skipped lines *)

Section WrittenTable.

Variable c : ascii.
Variable n : nat.
Variable sp : option string.
Variable name : string.
Variable hs : list string.
Variable table : list (list string).
Variable o : options.

Hypothesis Hc : is_linebreak c = false.
Hypothesis Hreads : reads_with c n sp table.
Hypothesis Hne : table <> [].
Hypothesis Hwf : Forall (well_formed_row c n) table.
Hypothesis Hascii_c : is_ascii c = true.
Hypothesis Hascii : ascii_table table.
Hypothesis Hhs : Forall (fun h => no_linebreak h = true) hs.
Hypothesis Hsep : separator o = sp.
Hypothesis Hskip : skip o = length hs.
Hypothesis Hhskip : hskip o = 0%nat.
Hypothesis Hcname : cname o = None.
Hypothesis Hcomment : comment o = None.
Hypothesis Hstrip : strip o = None.
Hypothesis Hheader : header o = false.
Hypothesis Hsel : selected (nc o) (cskip o) n <> [].
Hypothesis Hin : Forall (fun i => (i < n)%nat) (selected (nc o) (cskip o) n).

(** The rows collected from the file: the selected cells of every row of
    the table, handed to the shaping steps with the file read to its end
    and closed. *)
Lemma sread_table :
  sread (one_file name (text (map line hs ++ write_table c table))) name o
    = (finish o (rows_val (map (fun row => map unquote
                                              (pick (selected (nc o) (cskip o) n) row))
                               table)),
       Some (mkFile [] true)).
Proof.
  unfold sread, one_file. rewrite String.eqb_refl.
  rewrite text_app, decode_ascii_app, decode_lines.
  rewrite (@decode_written c table Hascii_c Hascii).
  assert (Hhs' : Forall (fun h => no_linebreak h = true) (map decode_ascii hs)).
  { apply Forall_map. eapply Forall_impl; [|exact Hhs].
    intros h. apply no_linebreak_decode. }
  assert (Hskip' : skip o = length (map decode_ascii hs))
    by (now rewrite length_map).
  rewrite (splitlines_lines _ Hhs'), (splitlines_written Hc Hwf).
  destruct (reads_parsed Hreads Hwf) as (sep & Hparsed & Hsniff).
  destruct table as [|row rows]; [congruence|].
  inversion Hparsed as [|? ? Prow Prows]; subst.
  inversion Hsniff as [|? ? Srow _]; subst.
  destruct (max_index_bound Hsel Hin) as (m & Hmax & Hm).
  pose proof (@setup_table o c n (separator o) sep (map decode_ascii hs) row rows m
                eq_refl Hskip' Hhskip Hcname Hcomment Prow Srow Hmax) as Hsetup.
  destruct Prow as (Hlen & Hline & Hnb & Hsplit).
  assert (Hbody :
            sread_body o (mkFile (map line (map decode_ascii hs)
                                    ++ write_table c (row :: rows)) false)
            = (finish o (rows_val (map (fun r => map unquote
                                                     (pick (selected (nc o) (cskip o) n) r))
                                       (row :: rows))),
               mkFile [] true)).
  { unfold sread_body. erewrite mbind_return; [|exact Hsetup].
    rewrite Hheader. unfold sread_values.
    cbn [st_res st_miinc st_sep st_iinc st_s].
    assert (Hfull : (length row <=? m)%nat = false) by (apply Nat.leb_gt; lia).
    rewrite Hfull. cbn [andb].
    erewrite mbind_return.
    2:{ unfold values_loop. cbn [pending].
        apply (@values_from_cols o sep c n m); assumption. }
    unfold mbind at 1, close at 1. cbv beta iota. unfold lift.
    rewrite line2var_row. cbn [app closed pending]. rewrite Hstrip.
    rewrite line_row_in_range by (now rewrite Hlen).
    cbn [map].
    replace (map unquote (pick (selected (nc o) (cskip o) n) row))
      with (map (fun i => stripped None (nth i row EmptyString))
                (selected (nc o) (cskip o) n))
      by (unfold pick; now rewrite map_map).
    reflexivity. }
  rewrite Hbody. reflexivity.
Qed.

(** X25.  A table of well-formed rows of ASCII cells, written with an
    ASCII separator behind [skip] arbitrary lines, is read back by column: with columns selected by [nc] and
    [cskip], all of them present in the table, and nothing reshaping the
    result, [sread] returns for every row of the table the selected cells,
    in the order of the selection and unquoted; the file is read to its
    end and closed. *)
Theorem sread_reads_selected_columns :
  strarr o = false -> squeeze o = false -> reform o = false ->
  transpose o = false -> fill o = false ->
  sread (one_file name (text (map line hs ++ write_table c table))) name o
    = (Return (rows_val (map (fun row => map unquote
                                              (pick (selected (nc o) (cskip o) n) row))
                             table)),
       Some (mkFile [] true)).
Proof.
  intros Harr Hsq Hre Htr Hfill. rewrite sread_table.
  rewrite finish_plain by assumption. now rewrite Hfill.
Qed.

(** X26.  With [transpose=True] (list branch, no [fill], no squeezing) the
    same table comes back column by column: one list per selected column,
    holding the unquoted cell of every row of the table in turn. *)
Theorem sread_transpose_columns :
  strarr o = false -> squeeze o = false -> reform o = false ->
  transpose o = true -> fill o = false ->
  sread (one_file name (text (map line hs ++ write_table c table))) name o
    = (Return (rows_val (map (fun i => map (fun row => unquote (nth i row EmptyString))
                                           table)
                             (selected (nc o) (cskip o) n))),
       Some (mkFile [] true)).
Proof.
  intros Harr Hsq Hre Htr Hfill. rewrite sread_table.
  unfold finish. rewrite Harr, Hfill, Hsq, Hre, Htr. cbn [orb bind].
  unfold pick.
  rewrite (map_ext (fun row => map unquote
                                 (map (fun i => nth i row EmptyString)
                                      (selected (nc o) (cskip o) n)))
                   (fun row => map (fun i => unquote (nth i row EmptyString))
                                   (selected (nc o) (cskip o) n)))
    by (intros row; apply map_map).
  rewrite (transpose_rows_columns
             (fun i row => unquote (nth i row EmptyString))
             (selected (nc o) (cskip o) n) Hne).
  reflexivity.
Qed.

(** X27.  With [squeeze=True] or [reform=True] and a single selected
    column (list branch, no [fill]) the same table comes back as a flat
    list: the unquoted cell of that column for every row of the table,
    with or without [transpose]. *)
Theorem sread_squeeze_single_column :
  forall i : nat,
    selected (nc o) (cskip o) n = [i] ->
    strarr o = false -> squeeze o || reform o = true -> fill o = false ->
    sread (one_file name (text (map line hs ++ write_table c table))) name o
      = (Return (PList (map (fun row => PStr (unquote (nth i row EmptyString))) table)),
         Some (mkFile [] true)).
Proof.
  intros i Hone Harr Hsq Hfill. rewrite sread_table.
  unfold finish. rewrite Harr, Hfill, Hsq, Hone. cbn [bind]. unfold pick.
  cbn [map].
  rewrite (squeeze_rows_single (fun row => unquote (nth i row EmptyString)) Hne).
  cbn [bind].
  destruct (transpose o); [|reflexivity].
  destruct table as [|row rows]; [congruence|]. reflexivity.
Qed.

End WrittenTable.

Lemma sread_reads_selected_columns_witness :
  sread (one_file "test.dat"
           (text (map line ["head1 head2 head3 head4"] ++ write_table " " spaced_table)))
        "test.dat" (with_nc (NcSeq [2; 0]%nat) (with_skip 1 defaults))
    = (Return (rows_val [["1.3"; "1.1"]; ["2.3"; "2.1"]]), Some (mkFile [] true)).
Proof.
  apply (@sread_reads_selected_columns " "%char 4 None "test.dat"
           ["head1 head2 head3 head4"] spaced_table
           (with_nc (NcSeq [2; 0]%nat) (with_skip 1 defaults))).
  - reflexivity.
  - right. right. right. repeat split. repeat constructor; discriminate.
  - discriminate.
  - repeat constructor; discriminate.
  - reflexivity.
  - repeat constructor.
  - repeat constructor.
  - reflexivity.
  - reflexivity.
  - reflexivity.
  - reflexivity.
  - reflexivity.
  - reflexivity.
  - reflexivity.
  - discriminate.
  - repeat constructor.
  - reflexivity.
  - reflexivity.
  - reflexivity.
  - reflexivity.
  - reflexivity.
Defined.

Lemma sread_transpose_columns_witness :
  sread (one_file "test.dat"
           (text (map line ["head1 head2 head3 head4"] ++ write_table " " spaced_table)))
        "test.dat"
        (with_transpose true (with_nc (NcInt 2) (with_skip 1 defaults)))
    = (Return (rows_val [["1.1"; "2.1"]; ["1.2"; "2.2"]]), Some (mkFile [] true)).
Proof.
  apply (@sread_transpose_columns " "%char 4 None "test.dat"
           ["head1 head2 head3 head4"] spaced_table
           (with_transpose true (with_nc (NcInt 2) (with_skip 1 defaults)))).
  - reflexivity.
  - right. right. right. repeat split. repeat constructor; discriminate.
  - discriminate.
  - repeat constructor; discriminate.
  - reflexivity.
  - repeat constructor.
  - repeat constructor.
  - reflexivity.
  - reflexivity.
  - reflexivity.
  - reflexivity.
  - reflexivity.
  - reflexivity.
  - reflexivity.
  - discriminate.
  - repeat constructor.
  - reflexivity.
  - reflexivity.
  - reflexivity.
  - reflexivity.
  - reflexivity.
Defined.

Lemma sread_squeeze_single_column_witness :
  sread (one_file "test.dat"
           (text (map line ["head1 head2 head3 head4"] ++ write_table " " spaced_table)))
        "test.dat"
        (with_squeeze true (with_nc (NcSeq [1]%nat) (with_skip 1 defaults)))
    = (Return (PList [PStr "1.2"; PStr "2.2"]), Some (mkFile [] true)).
Proof.
  apply (@sread_squeeze_single_column " "%char 4 None "test.dat"
           ["head1 head2 head3 head4"] spaced_table
           (with_squeeze true (with_nc (NcSeq [1]%nat) (with_skip 1 defaults))))
    with (i := 1%nat).
  - reflexivity.
  - right. right. right. repeat split. repeat constructor; discriminate.
  - discriminate.
  - repeat constructor; discriminate.
  - reflexivity.
  - repeat constructor.
  - repeat constructor.
  - reflexivity.
  - reflexivity.
  - reflexivity.
  - reflexivity.
  - reflexivity.
  - reflexivity.
  - reflexivity.
  - discriminate.
  - repeat constructor.
  - reflexivity.
  - reflexivity.
  - reflexivity.
  - reflexivity.
Defined.

(** X28.  With [header=True] and [skip=1] the first line of a written
    table of ASCII cells is returned as the header: its selected names, unquoted, in the
    order of the selection.  The columns are counted on the first data
    line, which is read (and nothing after it) before the file is
    closed. *)
Theorem sread_header_names :
  forall (c : ascii) (n : nat) (sp : option string) (name : string)
         (hrow : list string) (table : list (list string)) (o : options),
    is_linebreak c = false ->
    reads_with c n sp (hrow :: table) ->
    table <> [] ->
    Forall (well_formed_row c n) (hrow :: table) ->
    is_ascii c = true ->
    ascii_table (hrow :: table) ->
    separator o = sp -> skip o = 1%nat -> hskip o = 0%nat ->
    cname o = None -> comment o = None -> strip o = None ->
    header o = true -> full_header o = false ->
    selected (nc o) (cskip o) n <> [] ->
    Forall (fun i => (i < n)%nat) (selected (nc o) (cskip o) n) ->
    strarr o = false -> squeeze o = false -> reform o = false ->
    transpose o = false -> fill o = false ->
    sread (one_file name (text (write_table c (hrow :: table)))) name o
      = (Return (row_val (map unquote (pick (selected (nc o) (cskip o) n) hrow))),
         Some (mkFile (write_table c (tl table)) true)).
Proof.
  intros c n sp name hrow table o Hc Hreads Hne Hwf Hac Hat Hsep Hskip Hhskip
         Hcname Hcomment Hstrip Hheader Hfull Hsel Hin Harr Hsq Hre Htr Hfill.
  unfold sread, one_file. rewrite String.eqb_refl.
  rewrite (@decode_written c (hrow :: table) Hac Hat), (splitlines_written Hc Hwf).
  destruct (reads_parsed Hreads Hwf) as (sep & Hparsed & Hsniff).
  destruct table as [|row rows]; [congruence|].
  inversion Hparsed as [|? ? Phrow Prows']; subst.
  inversion Prows' as [|? ? Prow Prows]; subst.
  inversion Hsniff as [|? ? _ Hsniff']; subst.
  inversion Hsniff' as [|? ? Srow _]; subst.
  destruct (max_index_bound Hsel Hin) as (m & Hmax & Hm).
  pose proof (@setup_table o c n (separator o) sep
                [str_join (String c EmptyString) hrow] row rows m
                eq_refl Hskip Hhskip Hcname Hcomment Prow Srow Hmax) as Hsetup.
  destruct Phrow as (Hlen & Hline & Hnb & Hsplit).
  cbn [map] in Hsetup. rewrite Hline in Hsetup.
  assert (Hbody :
            sread_body o (mkFile (write_table c (hrow :: row :: rows)) false)
            = (Return (row_val (map unquote
                                    (pick (selected (nc o) (cskip o) n) hrow))),
               mkFile (write_table c rows) true)).
  { unfold sread_body.
    change (write_table c (hrow :: row :: rows))
      with (map line [str_join (String c EmptyString) hrow]
              ++ write_table c (row :: rows)).
    erewrite mbind_return; [|exact Hsetup].
    rewrite Hheader. unfold sread_header. rewrite Hskip, Hhskip, Hfull.
    cbn [Nat.sub Nat.ltb Nat.leb Nat.eqb st_head st_sep st_iinc st_miinc].
    erewrite mbind_return.
    2:{ erewrite mbind_return.
        2:{ rewrite header_rows_cons, Hsplit.
            assert (Hlong : (length hrow <=? m)%nat = false)
              by (apply Nat.leb_gt; lia).
            rewrite Hlong. cbn [andb header_rows]. reflexivity. }
        reflexivity. }
    unfold mbind at 1, close at 1. cbv beta iota. unfold lift.
    rewrite line2var_row. cbn [app nth pending]. rewrite Hstrip.
    rewrite line_row_in_range by (now rewrite Hlen).
    unfold finish. rewrite Harr, Hfill, Hsq, Hre, Htr. cbn [orb bind].
    unfold pick. rewrite map_map. reflexivity. }
  rewrite Hbody. reflexivity.
Qed.

Lemma sread_header_names_witness :
  sread (one_file "test.dat" (text (write_table " " headed_table))) "test.dat"
        (with_header true (with_nc (NcInt 2) (with_skip 1 defaults)))
    = (Return (row_val ["head1"; "head2"]),
       Some (mkFile [line "2.1 2.2 2.3 2.4"] true)).
Proof.
  apply (@sread_header_names " "%char 4 None "test.dat"
           ["head1"; "head2"; "head3"; "head4"] spaced_table
           (with_header true (with_nc (NcInt 2) (with_skip 1 defaults)))).
  - reflexivity.
  - right. right. right. repeat split. repeat constructor; discriminate.
  - discriminate.
  - repeat constructor; discriminate.
  - reflexivity.
  - repeat constructor.
  - reflexivity.
  - reflexivity.
  - reflexivity.
  - reflexivity.
  - reflexivity.
  - reflexivity.
  - reflexivity.
  - reflexivity.
  - discriminate.
  - repeat constructor.
  - reflexivity.
  - reflexivity.
  - reflexivity.
  - reflexivity.
  - reflexivity.
Defined.

End SreadTables.

(** ** alpha_kin_h2o.py: on which side of 1 the factor lies *)

Module AlphaKinProps.

Import Reals Lra.
Import AlphaKin.
Local Open Scope R_scope.

(** Raising a number between 0 and 1 to the power 2/3 moves it towards 1. *)
Lemma Rpower_two_thirds : forall x, 0 < x < 1 -> x < Rpower x (2 / 3) < 1.
Proof.
  intros x [H0 H1]. unfold Rpower.
  assert (Hln : ln x < 0) by (rewrite <- ln_1; now apply ln_increasing).
  split.
  - rewrite <- (exp_ln x H0) at 1. apply exp_increasing. lra.
  - rewrite <- exp_0. apply exp_increasing. lra.
Qed.

Lemma Rpower_one : Rpower 1 (2 / 3) = 1.
Proof. unfold Rpower. rewrite ln_1, Rmult_0_r. apply exp_0. Qed.

Lemma factor_range :
  forall isotope cappa,
    (fractionates isotope = true /\ 0 < factor isotope cappa < 1) \/
    (fractionates isotope = false /\ factor isotope cappa = 1).
Proof.
  intros [z|] cappa; [|now right]. unfold fractionates, factor.
  destruct (z =? 1)%Z; [left; split; [reflexivity|destruct cappa; lra]|].
  destruct (z =? 2)%Z; [left; split; [reflexivity|destruct cappa; lra]|].
  now right.
Qed.

Lemma inv_range : forall x, 0 < x < 1 -> 1 < 1 / x.
Proof.
  intros x [H0 H1]. unfold Rdiv. rewrite Rmult_1_l.
  rewrite <- Rinv_1 at 1. apply Rinv_lt_contravar; lra.
Qed.

Lemma inv_order : forall x y, 0 < x -> x < y -> 1 / y < 1 / x.
Proof.
  intros x y H0 H1. unfold Rdiv. rewrite !Rmult_1_l.
  apply Rinv_lt_contravar; [|exact H1]. apply Rmult_lt_0_compat; lra.
Qed.

(** X29.  [eps=True] reports the factor minus one.  For HDO and H218O the
    factor lies strictly between 0 and 1 in the atmospheric convention
    ([greater1=False]) and strictly above 1 otherwise, with either set of
    literature values and with or without the boundary-layer exponent; for
    any other [isotope] it is exactly 1. *)
Theorem alpha_kin_h2o_sides :
  forall (isotope : option Z) (greater1 boundary cappa : bool),
    alpha_kin_h2o isotope true greater1 boundary cappa
      = alpha_kin_h2o isotope false greater1 boundary cappa - 1 /\
    if fractionates isotope
    then (if greater1
          then 1 < alpha_kin_h2o isotope false greater1 boundary cappa
          else 0 < alpha_kin_h2o isotope false greater1 boundary cappa < 1)
    else alpha_kin_h2o isotope false greater1 boundary cappa = 1.
Proof.
  intros isotope greater1 boundary cappa. split; [reflexivity|].
  unfold alpha_kin_h2o.
  destruct (factor_range isotope cappa) as [[-> Hr]|[-> Hr]].
  - assert (Hb : 0 < (if boundary then Rpower (factor isotope cappa) (2 / 3)
                      else factor isotope cappa) < 1).
    { destruct boundary; [|exact Hr].
      pose proof (@Rpower_two_thirds _ Hr). lra. }
    destruct greater1; [now apply inv_range|exact Hb].
  - rewrite Hr. destruct boundary; [rewrite Rpower_one|]; destruct greater1; lra.
Qed.

(** X30.  For HDO and H218O the boundary-layer factor ([boundary=True])
    lies strictly between 1 and the factor of molecular diffusion, on
    whichever side of 1 the convention puts them. *)
Theorem alpha_kin_h2o_boundary :
  forall (isotope : option Z) (greater1 cappa : bool),
    fractionates isotope = true ->
    if greater1
    then 1 < alpha_kin_h2o isotope false true true cappa
           < alpha_kin_h2o isotope false true false cappa
    else alpha_kin_h2o isotope false false false cappa
           < alpha_kin_h2o isotope false false true cappa < 1.
Proof.
  intros isotope greater1 cappa Hf. unfold alpha_kin_h2o.
  destruct (factor_range isotope cappa) as [[_ Hr]|[Hn _]]; [|congruence].
  pose proof (@Rpower_two_thirds _ Hr) as Hp.
  destruct greater1.
  - split; [apply inv_range; lra|apply inv_order; lra].
  - exact Hp.
Qed.

Lemma alpha_kin_h2o_boundary_witness :
  1 < alpha_kin_h2o (Some 2%Z) false true true false
    < alpha_kin_h2o (Some 2%Z) false true false false.
Proof.
  apply (@alpha_kin_h2o_boundary (Some 2%Z) true false). reflexivity.
Defined.

End AlphaKinProps.
